(** * ConvertToPDFSrv: a shallow embedding of the conversion service

    The development follows the four Python modules of the service:
    [config.py], [converter.py], [cleanup.py] and [main.py].  Python
    strings are Rocq strings, [bytes] are lists of bytes, the task
    dictionary is a finite map keyed by strings, exceptions are an
    explicit result type, and every interaction with the outside world
    (the file system, the LibreOffice process, the clock, the logger) is
    either an oracle of the environment or an event of the trace.

    Part I holds the model, Part II the lemmas and theorems. *)

From stdpp Require Import gmap strings list fin_maps pretty.
From Stdlib Require Import ZArith Lia Ascii.
From Stdlib.Strings Require Import Byte.

Local Open Scope Z_scope.

(* ===================================================================== *)
(** * Part I: the model                                                   *)
(* ===================================================================== *)

(** ** Python values shared by all modules *)

(** Exceptions deriving from Python's [Exception]; each carries what
    [str(e)] prints.  [BaseException]s outside [Exception] (interpreter
    exit, task cancellation) are not conversion outcomes and are only
    modelled where the code names them (the sweeper loop). *)
Inductive exn : Type :=
| TimeoutExpired (msg : string)       (* subprocess.TimeoutExpired *)
| AsyncTimeoutError (msg : string)    (* asyncio.TimeoutError *)
| FileNotFoundError (msg : string)
| PermissionError (msg : string)
| KeyError (key : string)
| HTTPException (status_code : Z) (detail : string)
| OtherError (msg : string).          (* any other subclass of Exception *)

Definition str_exn (e : exn) : string :=
  match e with
  | TimeoutExpired m | AsyncTimeoutError m | FileNotFoundError m
  | PermissionError m | OtherError m => m
  | KeyError k => "'" +:+ k +:+ "'"
  | HTTPException c d => pretty c +:+ ": " +:+ d
  end.

(** The outcome of evaluating a Python expression: a value or a raise. *)
Inductive pyresult (A : Type) : Type :=
| Return (a : A)
| Raise (e : exn).
Arguments Return {A} a.
Arguments Raise {A} e.

Inductive log_level : Type := INFO | WARNING | ERROR.

(** What [subprocess.run(cmd, capture_output=True, text=True, timeout=..)]
    does: it returns a completed process or raises.  With [text=True]
    it decodes what the process printed once the process has ended, and
    raises [UnicodeDecodeError] on bytes that are not text in the
    encoding of the locale: the process has then run to its end, with
    its exit status and whatever files it wrote, and the call raises all
    the same. *)
Inductive run_outcome : Type :=
| Completed (returncode : Z) (stdout stderr : string)
| RunRaises (e : exn)
| Undecodable (returncode : Z) (msg : string).

(** The exit status of the external process, when it ran to its end. *)
Definition exit_status (r : run_outcome) : option Z :=
  match r with
  | Completed rc _ _ | Undecodable rc _ => Some rc
  | RunRaises _ => None
  end.

(** What [asyncio.wait_for(process.communicate(), timeout=..)] does.  The
    standard error stream comes with the result of [stderr.decode()],
    which raises on bytes that are not UTF-8. *)
Inductive comm_outcome : Type :=
| Communicated (returncode : Z) (stdout : list byte) (stderr_decode : pyresult string)
| CommRaises (e : exn).

(** Observable interactions, in the order the code performs them. *)
Inductive event : Type :=
| EvLog (level : log_level) (msg : string)
| EvWrite (path : string) (content : list byte) (failure : option exn)
| EvRun (cmd : list string) (timeout : Z) (outcome : run_outcome)
| EvSpawn (cmd : list string) (failure : option exn)
| EvCommunicate (cmd : list string) (timeout : Z) (outcome : comm_outcome)
| EvKill (failure : option exn)
| EvExists (path : string) (answer : pyresult bool).

(** ** A writer and error monad for effectful Python code

    A computation yields the events it performed and either a value or
    the exception it raised.  Events performed before a raise are kept,
    as side effects are in Python. *)
Definition Eff (A : Type) : Type := (list event * pyresult A)%type.

#[global] Instance Eff_ret : MRet Eff := λ A a, ([], Return a).

#[global] Instance Eff_bind : MBind Eff := λ A B f m,
  match m with
  | (t, Return a) => let '(t', r) := f a in (t ++ t', r)
  | (t, Raise e) => (t, Raise e)
  end.

Definition emit (ev : event) : Eff unit := ([ev], Return tt).
Definition raise {A} (e : exn) : Eff A := ([], Raise e).
Definition of_result {A} (r : pyresult A) : Eff A := ([], r).

(** [try: m  except Exception as e: h e] *)
Definition try_except {A} (m : Eff A) (h : exn → Eff A) : Eff A :=
  match m with
  | (t, Return a) => (t, Return a)
  | (t, Raise e) => let '(t', r) := h e in (t ++ t', r)
  end.

Definition trace_of {A} (m : Eff A) : list event := m.1.
Definition result_of {A} (m : Eff A) : pyresult A := m.2.

Definition logger_info (msg : string) : Eff unit := emit (EvLog INFO msg).
Definition logger_error (msg : string) : Eff unit := emit (EvLog ERROR msg).

(** [sep.join(parts)] *)
Fixpoint str_join (sep : string) (parts : list string) : string :=
  match parts with
  | [] => ""
  | [x] => x
  | x :: rest => x +:+ sep +:+ str_join sep rest
  end.

(** ** pathlib: the pure path operations the service uses

    [PurePosixPath.name], [.suffix] and [.stem] as CPython 3.4 to 3.13
    define them: the name is the last component that is neither empty
    nor a single dot; with [i = name.rfind('.')], the suffix is
    [name[i:]] and the stem [name[:i]] when [0 < i < len(name) - 1], and
    otherwise the suffix is empty and the stem is the whole name.
    (CPython 3.14 counts a single trailing dot as a suffix; the model
    follows the rule of the earlier versions.) *)
Module Pathlib.

Definition dot : ascii := "."%char.
Definition slash : ascii := "/"%char.

(** [s.rfind(c)], with [None] for Python's [-1]. *)
Fixpoint rfind (c : ascii) (s : string) : option nat :=
  match s with
  | EmptyString => None
  | String a s' =>
      match rfind c s' with
      | Some i => Some (S i)
      | None => if Ascii.eqb a c then Some 0%nat else None
      end
  end.

(** [s[:n]] and [s[n:]] for [0 <= n]. *)
Fixpoint str_take (n : nat) (s : string) : string :=
  match n, s with
  | O, _ => ""
  | S n', String a s' => String a (str_take n' s')
  | S _, EmptyString => ""
  end.

Fixpoint str_drop (n : nat) (s : string) : string :=
  match n, s with
  | O, _ => s
  | S n', String _ s' => str_drop n' s'
  | S _, EmptyString => ""
  end.

(** [s.split(sep)] for a one-character separator. *)
Fixpoint split_on (sep : ascii) (s : string) : list string :=
  match s with
  | EmptyString => [""]
  | String a s' =>
      if Ascii.eqb a sep then "" :: split_on sep s'
      else match split_on sep s' with
           | x :: xs => String a x :: xs
           | [] => [String a ""]
           end
  end.

Definition is_component (x : string) : bool :=
  negb (String.eqb x "") && negb (String.eqb x ".").

(** The components of [PurePosixPath(p)] after the root. *)
Definition components (p : string) : list string :=
  List.filter is_component (split_on slash p).

(** [PurePosixPath(p).name] *)
Definition name (p : string) : string := List.last (components p) "".

Definition splits_at (nm : string) (i : nat) : bool :=
  (0 <? i)%nat && (i <? String.length nm - 1)%nat.

(** [PurePosixPath(p).suffix] *)
Definition suffix (p : string) : string :=
  let nm := name p in
  match rfind dot nm with
  | Some i => if splits_at nm i then str_drop i nm else ""
  | None => ""
  end.

(** [PurePosixPath(p).stem] *)
Definition stem (p : string) : string :=
  let nm := name p in
  match rfind dot nm with
  | Some i => if splits_at nm i then str_take i nm else nm
  | None => nm
  end.

(** [str(Path(d) / n)] for a directory [d] and a relative name [n]. *)
Definition joinpath (d n : string) : string := d +:+ "/" +:+ n.

Definition ends_with_dot (s : string) : bool :=
  match rfind dot s with
  | Some i => (0 <? i)%nat && (i =? String.length s - 1)%nat
  | None => false
  end.

End Pathlib.

(** [s.lower()] on the ASCII letters, which are the only characters whose
    lower case occurs in the extension allow-list. *)
Definition ascii_lower (a : ascii) : ascii :=
  let n := nat_of_ascii a in
  if (65 <=? n)%nat && (n <=? 90)%nat then ascii_of_nat (n + 32) else a.

Fixpoint str_lower (s : string) : string :=
  match s with
  | EmptyString => ""
  | String a s' => String (ascii_lower a) (str_lower s')
  end.

(** ** config.py *)

Record Config : Type := {
  API_KEY : string;
  PORT : Z;
  HOST : string;
  UPLOAD_DIR : string;
  OUTPUT_DIR : string;
  ENABLE_CLEANUP : bool;
  CLEANUP_INTERVAL_MINUTES : Z;
  FILE_EXPIRE_HOURS : Z;
  SOFFICE_PATH : string;
  CONVERSION_TIMEOUT : Z;
  LOG_LEVEL : string
}.

(** [Config.validate]: every check raises [ValueError] inside a [try]
    whose handler prints and returns [False]. *)
Definition validate (config : Config) : bool :=
  if negb ((1 <=? PORT config) && (PORT config <=? 65535)) then false
  else if CLEANUP_INTERVAL_MINUTES config <=? 0 then false
  else if FILE_EXPIRE_HOURS config <=? 0 then false
  else true.

(** The defaults of [config.py], used when no environment variable is set. *)
Definition default_config : Config := {|
  API_KEY := "your-api-key-here";
  PORT := 8000;
  HOST := "0.0.0.0";
  UPLOAD_DIR := "uploads";
  OUTPUT_DIR := "outputs";
  ENABLE_CLEANUP := true;
  CLEANUP_INTERVAL_MINUTES := 30;
  FILE_EXPIRE_HOURS := 1;
  SOFFICE_PATH := "soffice";
  CONVERSION_TIMEOUT := 300;
  LOG_LEVEL := "INFO"
|}.

(** ** converter.py *)

(** The environment of one conversion attempt: what the random source,
    the file system and the external process answer when the code asks. *)
Record Env : Type := {
  uuid4 : string;                                          (* str(uuid.uuid4()) *)
  open_write : string → list byte → option exn;            (* open(p,'wb'); f.write(b) *)
  subprocess_run : list string → Z → run_outcome;
  create_subprocess_exec : list string → option exn;
  communicate : list string → Z → comm_outcome;
  process_kill : option exn;
  path_exists : string → pyresult bool;                    (* Path.exists() *)
  datetime_now : Z                                         (* datetime.now() *)
}.

(** The shape of [str(uuid.uuid4())]: 36 characters, each a lower-case
    hexadecimal digit or a hyphen. *)
Definition uuid_char (a : ascii) : bool :=
  match Pathlib.rfind a "0123456789abcdef-" with Some _ => true | None => false end.

Fixpoint str_forallb (f : ascii → bool) (s : string) : bool :=
  match s with
  | EmptyString => true
  | String a s' => f a && str_forallb f s'
  end.

Definition uuid_shaped (s : string) : bool :=
  (String.length s =? 36)%nat && str_forallb uuid_char s.

Module Converter.
Section PDFConverter.

Variable config : Config.
Variable env : Env.

Definition upload_dir : string := UPLOAD_DIR config.
Definition output_dir : string := OUTPUT_DIR config.

Definition _generate_unique_filename (original_filename extension : string) : string :=
  let unique_id := uuid4 env in
  let name_without_ext := Pathlib.stem original_filename in
  name_without_ext +:+ "_" +:+ unique_id +:+ extension.

Definition soffice_cmd (input_file outdir : string) : list string :=
  [SOFFICE_PATH config; "--headless"; "--convert-to"; "pdf"; "--outdir"; outdir; input_file].

(** [with open(input_file, 'wb') as f: f.write(file_content)] *)
Definition write_file (path : string) (content : list byte) : Eff unit :=
  let r := open_write env path content in
  emit (EvWrite path content r);;
  match r with
  | None => mret tt
  | Some e => raise e
  end.

Definition run (cmd : list string) (timeout : Z) : Eff (Z * string * string) :=
  let r := subprocess_run env cmd timeout in
  emit (EvRun cmd timeout r);;
  match r with
  | Completed rc out err => mret (rc, out, err)
  | RunRaises e => raise e
  | Undecodable _ msg => raise (OtherError msg)      (* UnicodeDecodeError *)
  end.

Definition exists_ (path : string) : Eff bool :=
  let r := path_exists env path in
  emit (EvExists path r);;
  of_result r.

Definition _run_soffice_command (input_file outdir : string) : Eff (bool * string) :=
  try_except
    (let cmd := soffice_cmd input_file outdir in
     logger_info ("Running command: " +:+ str_join " " cmd);;
     '(returncode, _, stderr) ← run cmd (CONVERSION_TIMEOUT config);
     if returncode =? 0 then
       logger_info ("Conversion successful for " +:+ Pathlib.name input_file);;
       mret (true, "Conversion successful")
     else
       let error_msg := "Conversion failed: " +:+ stderr in
       logger_error error_msg;;
       mret (false, error_msg))
    (λ e,
       match e with
       | TimeoutExpired _ =>
           let error_msg :=
             "Conversion timeout after " +:+ pretty (CONVERSION_TIMEOUT config) +:+ " seconds" in
           logger_error error_msg;;
           mret (false, error_msg)
       | FileNotFoundError _ =>
           let error_msg := "LibreOffice not found at " +:+ SOFFICE_PATH config in
           logger_error error_msg;;
           mret (false, error_msg)
       | _ =>
           let error_msg := "Unexpected error during conversion: " +:+ str_exn e in
           logger_error error_msg;;
           mret (false, error_msg)
       end).

Definition convert_to_pdf (file_content : list byte) (filename : string)
  : Eff (bool * string * option string) :=
  try_except
    (let unique_input_name := _generate_unique_filename filename (Pathlib.suffix filename) in
     let input_file := Pathlib.joinpath upload_dir unique_input_name in
     write_file input_file file_content;;
     logger_info ("Saved input file: " +:+ input_file);;
     '(success, message) ← _run_soffice_command input_file output_dir;
     if success : bool then
       let expected_pdf_name := Pathlib.stem unique_input_name +:+ ".pdf" in
       let output_file := Pathlib.joinpath output_dir expected_pdf_name in
       found ← exists_ output_file;
       if found : bool then
         mret (true, "Conversion completed successfully", Some expected_pdf_name)
       else
         mret (false, "PDF file not found after conversion", None)
     else
       mret (false, message, None))
    (λ e,
       let error_msg := "Error during conversion: " +:+ str_exn e in
       logger_error error_msg;;
       mret (false, error_msg, None)).

Definition spawn (cmd : list string) : Eff unit :=
  let r := create_subprocess_exec env cmd in
  emit (EvSpawn cmd r);;
  match r with
  | None => mret tt
  | Some e => raise e
  end.

Definition kill : Eff unit :=
  let r := process_kill env in
  emit (EvKill r);;
  match r with
  | None => mret tt
  | Some e => raise e
  end.

(** The value of the inner [try] around [asyncio.wait_for]: either the
    function returns from the timeout handler, or it carries on with the
    exit status and the standard error stream. *)
Inductive waited : Type :=
| TimedOut
| Exited (returncode : Z) (stderr_decode : pyresult string).

Definition wait_for_communicate (cmd : list string) (timeout : Z) : Eff waited :=
  let r := communicate env cmd timeout in
  emit (EvCommunicate cmd timeout r);;
  match r with
  | Communicated rc _ err => mret (Exited rc err)
  | CommRaises (AsyncTimeoutError _) => kill;; mret TimedOut
  | CommRaises e => raise e
  end.

Definition convert_to_pdf_async (file_content : list byte) (filename : string)
  : Eff (bool * string * option string) :=
  try_except
    (let unique_input_name := _generate_unique_filename filename (Pathlib.suffix filename) in
     let input_file := Pathlib.joinpath upload_dir unique_input_name in
     write_file input_file file_content;;
     logger_info ("Saved input file: " +:+ input_file);;
     let cmd := soffice_cmd input_file output_dir in
     logger_info ("Running async command: " +:+ str_join " " cmd);;
     spawn cmd;;
     w ← wait_for_communicate cmd (CONVERSION_TIMEOUT config);
     match w with
     | TimedOut =>
         mret (false,
               "Conversion timeout after " +:+ pretty (CONVERSION_TIMEOUT config) +:+ " seconds",
               None)
     | Exited returncode stderr_decode =>
         if returncode =? 0 then
           let expected_pdf_name := Pathlib.stem unique_input_name +:+ ".pdf" in
           let output_file := Pathlib.joinpath output_dir expected_pdf_name in
           found ← exists_ output_file;
           if found : bool then
             logger_info ("Async conversion successful for " +:+ filename);;
             mret (true, "Conversion completed successfully", Some expected_pdf_name)
           else
             mret (false, "PDF file not found after conversion", None)
         else
           stderr ← of_result stderr_decode;
           let error_msg := "Async conversion failed: " +:+ stderr in
           logger_error error_msg;;
           mret (false, error_msg, None)
     end)
    (λ e,
       let error_msg := "Error during async conversion: " +:+ str_exn e in
       logger_error error_msg;;
       mret (false, error_msg, None)).

End PDFConverter.
End Converter.

(** ** cleanup.py *)

Module Cleanup.

(** What the sweeper can observe of one directory entry.  Times are
    naive local [datetime] values counted in microseconds, the
    resolution of [datetime]; [st_mtime] stands for
    [datetime.fromtimestamp(file_path.stat().st_mtime)]. *)
Record entry : Type := {
  entry_name : string;
  is_file : pyresult bool;        (* file_path.is_file() *)
  st_mtime : pyresult Z;          (* file_path.stat().st_mtime, as a datetime *)
  unlink : option exn             (* what file_path.unlink() raises, if anything *)
}.

(** A directory that is there: what [exists()] and [iterdir()] raise, if
    anything, and the listing [iterdir()] gives. *)
Record directory : Type := {
  exists_error : option exn;
  iterdir_error : option exn;
  entries : list entry
}.

(** The part of the world the sweeper works on: directories by path (a
    path that is not mapped does not exist), how many times the clock
    has been read, and the log. *)
Record world : Type := {
  fs : gmap string directory;
  ticks : nat;
  logged : list event
}.

Definition log (ev : event) (w : world) : world :=
  {| fs := fs w; ticks := ticks w; logged := logged w ++ [ev] |}.

(** The outcome of scanning a listing. *)
Record scanned : Type := {
  deleted_files : list string;
  remaining : list entry;
  scan_ticks : nat;
  scan_log : list event
}.

(** [timedelta(hours=h)] in microseconds. *)
Definition timedelta_hours (h : Z) : Z := h * 3600 * 1000000.

(** The result dictionary of [cleanup_expired_files]. *)
Record report : Type := {
  timestamp : Z;
  deleted_uploads : nat;
  deleted_outputs : nat;
  total_deleted : nat;
  upload_files : list string;
  output_files : list string
}.

(** What the loop does, in order. *)
Inductive loop_event : Type :=
| LoopSweep (outcome : pyresult report)   (* self.cleanup_expired_files() *)
| LoopSleep (seconds : Z)                 (* await asyncio.sleep(seconds) begins *)
| LoopLog (level : log_level) (msg : string).

(** How an [await asyncio.sleep(..)] ends: the time elapses, or the task
    is cancelled ([stop_cleanup_service]) and [CancelledError] is raised
    at the await. *)
Inductive wake : Type := Elapsed | CancelledError.

(** The fields of a [FileCleanup] object besides the two paths. *)
Record service : Type := {
  is_running : bool;
  cleanup_task : bool       (* a loop task has been created *)
}.

Section FileCleanup.

Variable config : Config.

(** [clock k] is what the [k]-th call of [datetime.now()] returns. *)
Variable clock : nat → Z.

Definition upload_dir : string := UPLOAD_DIR config.
Definition output_dir : string := OUTPUT_DIR config.

Definition _is_file_expired (file_path : string) (e : entry) (tick : nat)
  : bool * nat * list event :=
  match st_mtime e with
  | Return file_mtime =>
      let expire_time := clock tick - timedelta_hours (FILE_EXPIRE_HOURS config) in
      (file_mtime <? expire_time, S tick, [])
  | Raise x =>
      (false, tick,
       [EvLog ERROR ("Error checking file expiry for " +:+ file_path +:+ ": " +:+ str_exn x)])
  end.

(** The [for] loop of [_cleanup_directory] over the listing.  A raise of
    [is_file()] leaves the loop through the outer handler; the entries
    not yet visited stay as they are. *)
Fixpoint scan (directory_path : string) (listing : list entry) (tick : nat) : scanned :=
  match listing with
  | [] => {| deleted_files := []; remaining := []; scan_ticks := tick; scan_log := [] |}
  | e :: rest =>
      let file_path := Pathlib.joinpath directory_path (entry_name e) in
      match is_file e with
      | Raise x =>
          {| deleted_files := []; remaining := e :: rest; scan_ticks := tick;
             scan_log := [EvLog ERROR ("Error scanning directory " +:+ directory_path
                                         +:+ ": " +:+ str_exn x)] |}
      | Return false =>
          let r := scan directory_path rest tick in
          {| deleted_files := deleted_files r; remaining := e :: remaining r;
             scan_ticks := scan_ticks r; scan_log := scan_log r |}
      | Return true =>
          let '(expired, tick', lg) := _is_file_expired file_path e tick in
          let r := scan directory_path rest tick' in
          if expired : bool then
            match unlink e with
            | None =>
                {| deleted_files := file_path :: deleted_files r;
                   remaining := remaining r;
                   scan_ticks := scan_ticks r;
                   scan_log := lg ++ EvLog INFO ("Deleted expired file: " +:+ file_path)
                                 :: scan_log r |}
            | Some x =>
                {| deleted_files := deleted_files r;
                   remaining := e :: remaining r;
                   scan_ticks := scan_ticks r;
                   scan_log := lg ++ EvLog ERROR ("Error deleting file " +:+ file_path
                                                    +:+ ": " +:+ str_exn x)
                                 :: scan_log r |}
            end
          else
            {| deleted_files := deleted_files r; remaining := e :: remaining r;
               scan_ticks := scan_ticks r; scan_log := lg ++ scan_log r |}
      end
  end.

Definition _cleanup_directory (directory_path : string) (w : world)
  : pyresult (list string) * world :=
  match fs w !! directory_path with
  | None => (Return [], w)                          (* not directory.exists() *)
  | Some d =>
      match exists_error d with
      | Some x => (Raise x, w)
      | None =>
          match iterdir_error d with
          | Some x =>
              (Return [],
               log (EvLog ERROR ("Error scanning directory " +:+ directory_path
                                   +:+ ": " +:+ str_exn x)) w)
          | None =>
              let r := scan directory_path (entries d) (ticks w) in
              (Return (deleted_files r),
               {| fs := <[directory_path :=
                            {| exists_error := None; iterdir_error := None;
                               entries := remaining r |}]> (fs w);
                  ticks := scan_ticks r;
                  logged := logged w ++ scan_log r |})
          end
      end
  end.

Definition cleanup_expired_files (w : world) : pyresult report * world :=
  let w0 := log (EvLog INFO "Starting file cleanup process") w in
  match _cleanup_directory upload_dir w0 with
  | (Raise x, w1) => (Raise x, w1)
  | (Return uploads, w1) =>
      match _cleanup_directory output_dir w1 with
      | (Raise x, w2) => (Raise x, w2)
      | (Return outputs, w2) =>
          let result := {|
            timestamp := clock (ticks w2);
            deleted_uploads := length uploads;
            deleted_outputs := length outputs;
            total_deleted := length uploads + length outputs;
            upload_files := uploads;
            output_files := outputs |} in
          (Return result,
           log (EvLog INFO ("Cleanup completed. Deleted "
                              +:+ pretty (total_deleted result) +:+ " files"))
             {| fs := fs w2; ticks := S (ticks w2); logged := logged w2 |})
      end
  end.

(** One pass through the body of the [while] loop up to the point where
    it awaits a sleep, and whether that sleep is the one of the
    [except Exception] handler. *)
Definition loop_body (w : world) : list loop_event * world * bool :=
  if ENABLE_CLEANUP config then
    match cleanup_expired_files w with
    | (Return r, w') =>
        ([LoopSweep (Return r); LoopSleep (CLEANUP_INTERVAL_MINUTES config * 60)],
         w', false)
    | (Raise x, w') =>
        ([LoopSweep (Raise x);
          LoopLog ERROR ("Error in cleanup loop: " +:+ str_exn x);
          LoopSleep 60], w', true)
    end
  else ([LoopSleep (CLEANUP_INTERVAL_MINUTES config * 60)], w, false).

(** [_cleanup_loop], run for as long as [wakes] says how its sleeps end:
    every pass ends in exactly one sleep.  With [wakes] used up the task
    is suspended in the sleep it has just begun.  [running] is
    [self.is_running], which only [stop_cleanup_service] clears, together
    with cancelling the task; a cancellation that arrives in the
    handler's sleep is not caught by the loop. *)
Fixpoint _cleanup_loop (wakes : list wake) (running : bool) (w : world)
  : list loop_event * world :=
  if negb running then ([], w)
  else
    let '(evs, w1, in_handler) := loop_body w in
    match wakes with
    | [] => (evs, w1)
    | Elapsed :: wakes' =>
        let '(evs', w2) := _cleanup_loop wakes' running w1 in (evs ++ evs', w2)
    | CancelledError :: _ =>
        if in_handler : bool then (evs, w1)
        else (evs ++ [LoopLog INFO "Cleanup loop cancelled"], w1)
    end.

(** [start_cleanup_service]: the new fields and what is logged. *)
Definition start_cleanup_service (s : service) : service * list loop_event :=
  if negb (ENABLE_CLEANUP config) then
    (s, [LoopLog INFO "File cleanup is disabled"])
  else if is_running s then
    (s, [LoopLog WARNING "Cleanup service is already running"])
  else
    ({| is_running := true; cleanup_task := true |},
     [LoopLog INFO ("File cleanup service started. Interval: "
                      +:+ pretty (CLEANUP_INTERVAL_MINUTES config) +:+ " minutes")]).

(** A start creates a loop task unless it returns early. *)
Definition creates_task (s : service) : bool :=
  ENABLE_CLEANUP config && negb (is_running s).

(** [stop_cleanup_service]: the flag is cleared and the task cancelled. *)
Definition stop_cleanup_service (s : service) : service * list loop_event :=
  if negb (is_running s) then (s, [])
  else ({| is_running := false; cleanup_task := cleanup_task s |},
        [LoopLog INFO "File cleanup service stopped"]).

(** What the loop task does from the moment the service is started;
    nothing when the start creates no task. *)
Definition started_loop (wakes : list wake) (s : service) (w : world)
  : list loop_event * world :=
  if creates_task s
  then _cleanup_loop wakes (is_running (start_cleanup_service s).1) w
  else ([], w).

End FileCleanup.

Definition is_sweep (ev : loop_event) : bool :=
  match ev with LoopSweep _ => true | _ => false end.

(** The seconds slept before the first sweep of a trace; [None] when the
    trace has no sweep. *)
Fixpoint slept_before_first_sweep (evs : list loop_event) : option Z :=
  match evs with
  | [] => None
  | LoopSweep _ :: _ => Some 0
  | LoopSleep d :: rest => (λ t, d + t) <$> slept_before_first_sweep rest
  | LoopLog _ _ :: rest => slept_before_first_sweep rest
  end.

(** The deletions the sweeps of a trace report, in order. *)
Definition sweep_totals (evs : list loop_event) : list nat :=
  omap (λ ev, match ev with
              | LoopSweep (Return r) => Some (total_deleted r)
              | _ => None
              end) evs.

(** The trace of a loop is a sequence of passes: a sweep that returns
    is followed by one sleep of [seconds]; a sweep that raises is logged
    and followed by the sleep of the handler.  A cancellation caught by
    the loop ends the trace. *)
Inductive paced (seconds : Z) : list loop_event → Prop :=
| paced_nil : paced seconds []
| paced_cancelled : paced seconds [LoopLog INFO "Cleanup loop cancelled"]
| paced_sweep r evs :
    paced seconds evs →
    paced seconds (LoopSweep (Return r) :: LoopSleep seconds :: evs)
| paced_failed x msg evs :
    paced seconds evs →
    paced seconds (LoopSweep (Raise x) :: LoopLog ERROR msg :: LoopSleep 60 :: evs).

Section sweeps.

Variable config : Config.
Variable clock : nat → Z.

Definition expiry : Z := timedelta_hours (FILE_EXPIRE_HOURS config).

(** The sweep can reach and remove the entry: it is a regular file and
    unlinking it does not fail. *)
Definition removable (e : entry) : Prop :=
  is_file e = Return true ∧ unlink e = None.

(** The listing of the directory can be scanned to its end. *)
Definition scannable (d : directory) : Prop :=
  iterdir_error d = None ∧ Forall (λ x, ∀ ex, is_file x ≠ Raise ex) (entries d).

(** The verdict of [_is_file_expired] on a modification time at the
    [k]-th reading of the clock. *)
Definition expired_at (m : Z) (k : nat) : bool := m <? clock k - expiry.

(** From the reading [lo] of the clock up to the reading [hi], no entry
    of the listing passes its expiry: the verdict on each entry is the
    same at every reading. *)
Definition steady_between (lo hi : nat) (l : list entry) : Prop :=
  ∀ e m k, In e l → st_mtime e = Return m → (lo ≤ k < hi)%nat →
           expired_at m k = expired_at m lo.

(** No file of a staging area passes its expiry while two sweeps run,
    one right after the other, from the world [w]: from the first
    reading of the clock by the first sweep to the last by the second. *)
Definition steady (w : world) : Prop :=
  let last := ticks (cleanup_expired_files config clock
                       (cleanup_expired_files config clock w).2).2 in
  ∀ area d, area = upload_dir config ∨ area = output_dir config →
            fs w !! area = Some d →
            steady_between (ticks w) last (entries d).

(** Of two sweeps run one right after the other, the second reports no
    deletion. *)
Definition second_sweep_reports_nothing (w : world) : Prop :=
  ∀ r1 w1 r2 w2,
    cleanup_expired_files config clock w = (Return r1, w1) →
    cleanup_expired_files config clock w1 = (Return r2, w2) →
    deleted_uploads r2 = 0%nat ∧ deleted_outputs r2 = 0%nat ∧ total_deleted r2 = 0%nat.

(** The sweeper is started and the first sweep waits for one full
    interval: whatever the loop task does, a sweep in its trace is
    preceded by at least [CLEANUP_INTERVAL_MINUTES * 60] seconds of sleep. *)
Definition first_sweep_after_interval (wakes : list wake) (s : service) (w : world) : Prop :=
  ∀ slept,
    slept_before_first_sweep (started_loop config clock wakes s w).1 = Some slept →
    CLEANUP_INTERVAL_MINUTES config * 60 ≤ slept.

(** A sweep that returns removes every regular file of a staging area
    whose modification time is older than every reading of the clock
    less the expiry. *)
Definition deletes_every_expired (w : world) : Prop :=
  ∀ r w' area d e m,
    cleanup_expired_files config clock w = (Return r, w') →
    area = upload_dir config ∨ area = output_dir config →
    fs w !! area = Some d → In e (entries d) →
    is_file e = Return true → st_mtime e = Return m →
    (∀ k, m < clock k - expiry) →
    ∀ d', fs w' !! area = Some d' → ¬ In e (entries d').

End sweeps.

End Cleanup.

(** ** main.py *)

Module Main.

Inductive task_status : Type := processing | completed | failed.

#[global] Instance task_status_eq_dec : EqDecision task_status.
Proof. solve_decision. Defined.

Definition status_str (s : task_status) : string :=
  match s with
  | processing => "processing"
  | completed => "completed"
  | failed => "failed"
  end.

(** One value of the [async_tasks] dictionary. *)
Record task : Type := Task {
  task_state : task_status;       (* "status" *)
  task_message : string;          (* "message" *)
  task_filename : option string;  (* "filename" *)
  created_at : Z                  (* "created_at" *)
}.

(** A call handed to [BackgroundTasks.add_task]: the arguments of
    [process_async_conversion]. *)
Record scheduled : Type := Scheduled {
  sched_task_id : string;
  sched_content : list byte;
  sched_filename : string
}.

(** The mutable state of the application: the module-level dictionary
    and the background calls the framework has yet to run. *)
Record app_state : Type := AppState {
  async_tasks : gmap string task;
  background_tasks : list scheduled
}.

Definition initial_state : app_state := AppState ∅ [].

(** Stateful code: the state survives a raise, as mutations do. *)
Definition App (A : Type) : Type := app_state → app_state * Eff A.

#[global] Instance App_ret : MRet App := λ A a st, (st, mret a).

#[global] Instance App_bind : MBind App := λ A B f m st,
  match m st with
  | (st', (t, Return a)) =>
      let '(st'', (t', r)) := f a st' in (st'', (t ++ t', r))
  | (st', (t, Raise e)) => (st', (t, Raise e))
  end.

Definition lift {A} (m : Eff A) : App A := λ st, (st, m).

Definition app_try_except {A} (m : App A) (h : exn → App A) : App A := λ st,
  match m st with
  | (st', (t, Return a)) => (st', (t, Return a))
  | (st', (t, Raise e)) =>
      let '(st'', (t', r)) := h e st' in (st'', (t ++ t', r))
  end.

(** [async_tasks[task_id]] *)
Definition getitem (task_id : string) : App task := λ st,
  match async_tasks st !! task_id with
  | Some t => (st, mret t)
  | None => (st, raise (KeyError task_id))
  end.

(** [async_tasks[task_id] = t] *)
Definition setitem (task_id : string) (t : task) : App unit := λ st,
  (AppState (<[task_id := t]> (async_tasks st)) (background_tasks st), mret tt).

(** [task_id in async_tasks] *)
Definition contains (task_id : string) : App bool := λ st,
  (st, mret (bool_decide (is_Some (async_tasks st !! task_id)))).

(** [background_tasks.add_task(process_async_conversion, ...)] *)
Definition add_task (s : scheduled) : App unit := λ st,
  (AppState (async_tasks st) (background_tasks st ++ [s]), mret tt).

(** What an endpoint is handed as [file]: Starlette's [UploadFile], whose
    [filename] is optional and whose [read()] returns the content or
    raises. *)
Record Upload : Type := {
  file_filename : option string;        (* file.filename *)
  file_read : pyresult (list byte)      (* await file.read() *)
}.

(** An upload that has a file name and whose content can be read. *)
Record UploadFile : Type := {
  upload_filename : string;       (* file.filename *)
  upload_content : list byte      (* await file.read() *)
}.

Definition received (file : UploadFile) : Upload :=
  {| file_filename := Some (upload_filename file);
     file_read := Return (upload_content file) |}.

Coercion received : UploadFile >-> Upload.

(** [Path(file.filename)]: the constructor raises [TypeError] when it is
    given [None] (the wording of the message varies with the version of
    Python). *)
Definition Path (name : option string) : pyresult string :=
  match name with
  | Some s => Return s
  | None => Raise (OtherError "expected str, bytes or os.PathLike object, not NoneType")
  end.

Record ConversionResponse : Type := {
  success : bool;
  message : string;
  task_id : option string;
  download_url : option string;
  filename : option string
}.

Record TaskStatusResponse : Type := {
  status_task_id : string;
  status : string;
  status_message : string;
  status_download_url : option string;
  status_filename : option string
}.

Definition allowed_extensions : list string :=
  [".doc"; ".docx"; ".xls"; ".xlsx"; ".ppt"; ".pptx"; ".odt"; ".ods"; ".odp"].

Definition unsupported_detail (file_ext : string) : string :=
  "Unsupported file type: " +:+ file_ext +:+ ". Supported types: "
    +:+ str_join ", " allowed_extensions.

(** The two [except] clauses shared by both endpoints: an
    [HTTPException] is raised again, anything else becomes a 500. *)
Definition endpoint_handler {A} (what : string) (e : exn) : Eff A :=
  match e with
  | HTTPException _ _ => raise e
  | _ =>
      logger_error (what +:+ str_exn e);;
      raise (HTTPException 500 ("Internal server error: " +:+ str_exn e))
  end.

Section endpoints.

Variable config : Config.
Variable env : Env.

Definition convert_sync (file : Upload) : Eff ConversionResponse :=
  try_except
    (name ← of_result (Path (file_filename file));
     let file_ext := str_lower (Pathlib.suffix name) in
     (if negb (bool_decide (file_ext ∈ allowed_extensions))
      then raise (HTTPException 400 (unsupported_detail file_ext))
      else mret tt);;
     file_content ← of_result (file_read file);
     (if (length file_content =? 0)%nat
      then raise (HTTPException 400 "Empty file")
      else mret tt);;
     '(ok, msg, output_filename) ←
        Converter.convert_to_pdf config env file_content name;
     if ok : bool then
       let url := "/download/" +:+ default "None" output_filename in
       mret {| success := true; message := msg; task_id := None;
               download_url := Some url; filename := output_filename |}
     else
       raise (HTTPException 500 msg))
    (endpoint_handler "Error in sync conversion: ").

Definition convert_async (file : Upload) : App ConversionResponse :=
  app_try_except
    (name ← lift (of_result (Path (file_filename file)));
     let file_ext := str_lower (Pathlib.suffix name) in
     lift (if negb (bool_decide (file_ext ∈ allowed_extensions))
           then raise (HTTPException 400 (unsupported_detail file_ext))
           else mret tt);;
     file_content ← lift (of_result (file_read file));
     lift (if (length file_content =? 0)%nat
           then raise (HTTPException 400 "Empty file")
           else mret tt);;
     let new_id := uuid4 env in
     setitem new_id {| task_state := processing;
                       task_message := "Conversion in progress";
                       task_filename := None;
                       created_at := datetime_now env |};;
     add_task (Scheduled new_id file_content name);;
     mret {| success := true; message := "Conversion task started";
             task_id := Some new_id; download_url := None; filename := None |})
    (λ e, lift (endpoint_handler "Error in async conversion: " e)).

(** The dictionary display on the right of each assignment is evaluated
    first, and its last entry reads [async_tasks[task_id]]. *)
Definition record_outcome (id : string) (st : task_status) (msg : string)
    (output_filename : option string) : App unit :=
  old ← getitem id;
  setitem id {| task_state := st; task_message := msg;
                task_filename := output_filename;
                created_at := created_at old |}.

Definition process_async_conversion (id : string) (file_content : list byte)
    (name : string) : App unit :=
  app_try_except
    ('(ok, msg, output_filename) ←
        lift (Converter.convert_to_pdf_async config env file_content name);
     if ok : bool then record_outcome id completed msg output_filename
     else record_outcome id failed msg None)
    (λ e,
       lift (logger_error ("Error in async conversion task " +:+ id +:+ ": " +:+ str_exn e));;
       record_outcome id failed ("Conversion failed: " +:+ str_exn e) None).

End endpoints.

Definition get_task_status (id : string) : App TaskStatusResponse :=
  known ← contains id;
  (if known : bool then mret tt
   else lift (raise (HTTPException 404 "Task not found")));;
  t ← getitem id;
  let url :=
    match task_state t, task_filename t with
    | completed, Some f => if (String.length f =? 0)%nat then None
                           else Some ("/download/" +:+ f)
    | _, _ => None
    end in
  mret {| status_task_id := id; status := status_str (task_state t);
          status_message := task_message t; status_download_url := url;
          status_filename := task_filename t |}.

(** ** The requests the application serves and the background calls the
    framework makes, one at a time. *)
Inductive op : Type :=
| OpConvertSync (env : Env) (file : Upload)         (* POST /convert/sync *)
| OpConvertAsync (env : Env) (file : Upload)        (* POST /convert/async *)
| OpBackground (env : Env) (k : nat)                (* run the k-th scheduled call *)
| OpTaskStatus (id : string)                        (* GET /task/{task_id} *)
| OpDownload (name : string)                        (* GET /download/{filename} *)
| OpStats                                           (* GET /stats *)
| OpCleanup.                                        (* POST /cleanup *)

(** The effect of an operation on the state.  Only [convert_async] and
    [process_async_conversion] assign to [async_tasks]; the framework
    takes a scheduled call off its list when it runs it. *)
Definition step (config : Config) (o : op) (st : app_state) : app_state :=
  match o with
  | OpConvertAsync env file => (convert_async env file st).1
  | OpBackground env k =>
      match background_tasks st !! k with
      | Some s =>
          let st' := AppState (async_tasks st) (delete k (background_tasks st)) in
          (process_async_conversion config env
             (sched_task_id s) (sched_content s) (sched_filename s) st').1
      | None => st
      end
  | OpTaskStatus id => (get_task_status id st).1
  | OpConvertSync _ _ | OpDownload _ | OpStats | OpCleanup => st
  end.

(** The states after each operation of a run. *)
Fixpoint run (config : Config) (ops : list op) (st : app_state) : list app_state :=
  match ops with
  | [] => []
  | o :: ops' => let st' := step config o st in st' :: run config ops' st'
  end.

(** A submission gets as far as drawing a task identifier when its
    extension is allowed and its content is not empty. *)
Definition accepted (file : Upload) : bool :=
  match file_filename file, file_read file with
  | Some name, Return content =>
      bool_decide (str_lower (Pathlib.suffix name) ∈ allowed_extensions)
      && negb (length content =? 0)%nat
  | _, _ => false
  end.

(** What the endpoint's own uses of [file] raise, if anything, before a
    conversion is attempted: [Path(file.filename)] for a missing name
    and, once the extension has passed, [await file.read()]. *)
Definition upload_fault (file : Upload) : option exn :=
  match Path (file_filename file) with
  | Raise x => Some x
  | Return name =>
      if bool_decide (str_lower (Pathlib.suffix name) ∈ allowed_extensions)
      then match file_read file with
           | Raise x => Some x
           | Return _ => None
           end
      else None
  end.

(** The task identifiers the run draws for its submissions. *)
Definition drawn_ids (ops : list op) : list string :=
  omap (λ o, match o with
             | OpConvertAsync env file => if accepted file then Some (uuid4 env) else None
             | _ => None
             end) ops.

Definition status_in (id : string) (st : app_state) : option task_status :=
  task_state <$> async_tasks st !! id.

(** The statuses a task goes through, from the state where it first
    exists. *)
Definition status_history (id : string) (states : list app_state) : list task_status :=
  omap (status_in id) states.

(** The tasks that still have a scheduled background call. *)
Definition pending_ids (st : app_state) : list string :=
  sched_task_id <$> background_tasks st.

(** Scheduled calls and processing tasks correspond one to one. *)
Definition consistent (st : app_state) : Prop :=
  NoDup (pending_ids st) ∧
  ∀ id, id ∈ pending_ids st ↔ status_in id st = Some processing.

(** The identifiers a run is going to draw are new: distinct from each
    other and from the keys of the dictionary. *)
Definition fresh_ids (ops : list op) (st : app_state) : Prop :=
  NoDup (drawn_ids ops) ∧ ∀ id, id ∈ drawn_ids ops → async_tasks st !! id = None.

(** What one operation can do to the status of a task. *)
Inductive status_step : option task_status → option task_status → Prop :=
| status_same c : status_step c c
| status_create : status_step None (Some processing)
| status_finish t : t ≠ processing → status_step (Some processing) (Some t).

(** The statuses a task may go through from a given current status. *)
Inductive lifecycle : option task_status → list task_status → Prop :=
| lifecycle_end c : lifecycle c []
| lifecycle_create h :
    lifecycle (Some processing) h → lifecycle None (processing :: h)
| lifecycle_stay s h :
    lifecycle (Some s) h → lifecycle (Some s) (s :: h)
| lifecycle_finish t h :
    t ≠ processing → lifecycle (Some t) h → lifecycle (Some processing) (t :: h).

End Main.

Coercion Main.received : Main.UploadFile >-> Main.Upload.

(** ** Reading a trace *)

(** The call that waits for the external process returned an exit status
    of zero. *)
Definition is_exit_zero (ev : event) : bool :=
  match ev with
  | EvRun _ _ (Completed rc _ _) => rc =? 0
  | EvCommunicate _ _ (Communicated rc _ _) => rc =? 0
  | _ => false
  end.

Definition exited_zero (t : list event) : bool := existsb is_exit_zero t.

(** [Path.exists()] was asked about [path] and gave [answer]. *)
Definition is_exists_answer (path : string) (answer : bool) (ev : event) : bool :=
  match ev with
  | EvExists p (Return b) => String.eqb p path && Bool.eqb b answer
  | _ => false
  end.

Definition found_at (path : string) (t : list event) : bool :=
  existsb (is_exists_answer path true) t.

Definition missing_at (path : string) (t : list event) : bool :=
  existsb (is_exists_answer path false) t.

(** The external binary was launched, by either path. *)
Definition is_invocation (ev : event) : bool :=
  match ev with
  | EvRun _ _ _ | EvSpawn _ _ | EvCommunicate _ _ _ => true
  | _ => false
  end.

(** A file was staged, or staging was attempted. *)
Definition is_staging (ev : event) : bool :=
  match ev with
  | EvWrite _ _ _ => true
  | _ => false
  end.

Definition is_logging (ev : event) : bool :=
  match ev with
  | EvLog _ _ => true
  | _ => false
  end.

Definition is_log (level : log_level) (ev : event) : bool :=
  match ev, level with
  | EvLog INFO _, INFO | EvLog WARNING _, WARNING | EvLog ERROR _, ERROR => true
  | _, _ => false
  end.

Definition NOT_FOUND_MESSAGE : string := "PDF file not found after conversion".

(** The staged input name of a conversion attempt and the output path it
    predicts, as [convert_to_pdf] and [convert_to_pdf_async] compute them. *)
Definition staged_name (env : Env) (filename : string) : string :=
  Converter._generate_unique_filename env filename (Pathlib.suffix filename).

Definition predicted_name (env : Env) (filename : string) : string :=
  Pathlib.stem (staged_name env filename) +:+ ".pdf".

Definition predicted_path (config : Config) (env : Env) (filename : string) : string :=
  Pathlib.joinpath (Converter.output_dir config) (predicted_name env filename).

(** The success criterion of one conversion attempt [m]. *)
Definition success_criterion (predicted : string)
    (m : Eff (bool * string * option string)) : Prop :=
  ∃ success message output,
    result_of m = Return (success, message, output) ∧
    (success = true ↔
       exited_zero (trace_of m) = true ∧ found_at predicted (trace_of m) = true) ∧
    (exited_zero (trace_of m) = true ∧ missing_at predicted (trace_of m) = true ↔
       (success, message, output) = (false, NOT_FOUND_MESSAGE, None)).

(** The attempt [m] absorbs every failure: it returns, and unless the
    process exited with zero and the output was found it reports a
    failure with a message. *)
Definition absorbs_failures (predicted : string)
    (m : Eff (bool * string * option string)) : Prop :=
  ∃ success message output,
    result_of m = Return (success, message, output) ∧
    message ≠ "" ∧
    (exited_zero (trace_of m) && found_at predicted (trace_of m) = false →
     success = false).

(** The output name is there exactly on success, and then names a PDF. *)
Definition output_iff_success (m : Eff (bool * string * option string)) : Prop :=
  ∃ success message output,
    result_of m = Return (success, message, output) ∧
    (success = true → ∃ base, output = Some (base +:+ ".pdf")) ∧
    (success = false → output = None).

(** The names of a conversion attempt are the original stem, an
    underscore and the token, followed by the original extension for
    the staged input and by [.pdf] for the predicted output. *)
Definition names_as_specified (env : Env) (filename : string) : Prop :=
  staged_name env filename =
    Pathlib.stem filename +:+ "_" +:+ uuid4 env +:+ Pathlib.suffix filename ∧
  predicted_name env filename =
    Pathlib.stem filename +:+ "_" +:+ uuid4 env +:+ ".pdf".

(** An event of an attempt touches the staged input and the predicted
    output only. *)
Definition uses_names (config : Config) (env : Env) (filename : string) (ev : event) : Prop :=
  match ev with
  | EvWrite p _ _ =>
      p = Pathlib.joinpath (Converter.upload_dir config) (staged_name env filename)
  | EvExists p _ => p = predicted_path config env filename
  | _ => True
  end.

(** The attempt [m] stages and looks up by these names and returns the
    predicted name. *)
Definition names_used (config : Config) (env : Env) (filename : string)
    (m : Eff (bool * string * option string)) : Prop :=
  Forall (uses_names config env filename) (trace_of m) ∧
  ∀ ok msg output, result_of m = Return (ok, msg, Some output) →
                   output = predicted_name env filename.

(** The background call, given a task that is not in the dictionary,
    does nothing but log: it returns, and the state is as before. *)
Definition absent_is_logged_noop (config : Config) (env : Env) (id : string)
    (content : list byte) (name : string) (st : Main.app_state) : Prop :=
  Main.async_tasks st !! id = None →
  ∃ t, Main.process_async_conversion config env id content name st = (st, (t, Return tt)) ∧
       existsb is_logging t = true.

(** ** Sample environments and inputs, used to run the model *)

Definition sample_uuid : string := "123e4567-e89b-42d3-a456-426614174000".

(** LibreOffice exits with [returncode] and the predicted file is or is
    not there afterwards. *)
Definition env_exit (returncode : Z) (found : bool) : Env := {|
  uuid4 := sample_uuid;
  open_write := λ _ _, None;
  subprocess_run := λ _ _, Completed returncode "" "conversion error";
  create_subprocess_exec := λ _, None;
  communicate := λ _ _, Communicated returncode [] (Return "conversion error");
  process_kill := None;
  path_exists := λ _, Return found;
  datetime_now := 1762160000000000
|}.

Definition sample_content : list byte := [x25; x50; x44; x46].

(** LibreOffice converts the document, exits with zero and leaves the
    PDF, and prints a byte that is not text in the encoding of the
    locale. *)
Definition env_undecodable : Env := {|
  uuid4 := sample_uuid;
  open_write := λ _ _, None;
  subprocess_run := λ _ _,
    Undecodable 0 "'utf-8' codec can't decode byte 0xff in position 0: invalid start byte";
  create_subprocess_exec := λ _, None;
  communicate := λ _ _,
    Communicated 0 [xff]
      (Raise (OtherError
                "'utf-8' codec can't decode byte 0xff in position 0: invalid start byte"));
  process_kill := None;
  path_exists := λ _, Return true;
  datetime_now := 1762160000000000
|}.

(** A second attempt, with a token of its own. *)
Definition other_env : Env := {|
  uuid4 := "9b2f0c1e-5d4a-4f7b-8e21-0a6c3d9e7f54";
  open_write := λ _ _, None;
  subprocess_run := λ _ _, Completed 0 "" "";
  create_subprocess_exec := λ _, None;
  communicate := λ _ _, Communicated 0 [] (Return "");
  process_kill := None;
  path_exists := λ _, Return true;
  datetime_now := 1762160001000000
|}.

(** An environment where the launch of LibreOffice raises [e]. *)
Definition env_raise (e : exn) : Env := {|
  uuid4 := sample_uuid;
  open_write := λ _ _, None;
  subprocess_run := λ _ _, RunRaises e;
  create_subprocess_exec := λ _, Some e;
  communicate := λ _ _, CommRaises e;
  process_kill := None;
  path_exists := λ _, Return false;
  datetime_now := 1762160000000000
|}.

Definition sample_upload : Main.UploadFile :=
  {| Main.upload_filename := "report.docx"; Main.upload_content := sample_content |}.

Definition empty_upload : Main.UploadFile :=
  {| Main.upload_filename := "report.docx"; Main.upload_content := [] |}.

(** A submission, a status query, the background call and a second
    query. *)
Definition sample_run : list Main.op :=
  [Main.OpConvertAsync (env_exit 0 true) sample_upload;
   Main.OpTaskStatus sample_uuid;
   Main.OpBackground (env_exit 0 true) 0;
   Main.OpTaskStatus sample_uuid].

Definition hour : Z := 3600 * 1000000.

(** A clock that shows two hours past the epoch at every reading. *)
Definition two_o_clock (k : nat) : Z := 2 * hour.

Definition old_file : Cleanup.entry := {|
  Cleanup.entry_name := "old_123e.docx";
  Cleanup.is_file := Return true;
  Cleanup.st_mtime := Return 0;                       (* two hours ago *)
  Cleanup.unlink := None
|}.

Definition recent_file : Cleanup.entry := {|
  Cleanup.entry_name := "recent_9f1c.docx";
  Cleanup.is_file := Return true;
  Cleanup.st_mtime := Return (2 * hour - 600 * 1000000);  (* ten minutes ago *)
  Cleanup.unlink := None
|}.

(** A clock that advances by a microsecond from one reading to the next. *)
Definition ticking (k : nat) : Z := 2 * hour + Z.of_nat k.

(** A file that is exactly one hour old at the first reading of the
    ticking clock. *)
Definition edge_file : Cleanup.entry := {|
  Cleanup.entry_name := "edge.docx";
  Cleanup.is_file := Return true;
  Cleanup.st_mtime := Return hour;
  Cleanup.unlink := None
|}.

(** An old file that cannot be unlinked. *)
Definition locked_file : Cleanup.entry := {|
  Cleanup.entry_name := "locked_77aa.pdf";
  Cleanup.is_file := Return true;
  Cleanup.st_mtime := Return 0;
  Cleanup.unlink := Some (PermissionError "[Errno 13] Permission denied")
|}.

Definition plain_directory (l : list Cleanup.entry) : Cleanup.directory :=
  {| Cleanup.exists_error := None; Cleanup.iterdir_error := None; Cleanup.entries := l |}.

Definition staging (uploads outputs : list Cleanup.entry) : Cleanup.world := {|
  Cleanup.fs := <["uploads" := plain_directory uploads]>
                  (<["outputs" := plain_directory outputs]> ∅);
  Cleanup.ticks := 0;
  Cleanup.logged := []
|}.

Definition stopped : Cleanup.service :=
  {| Cleanup.is_running := false; Cleanup.cleanup_task := false |}.

(** ** converter.py: looking up and deleting staged files *)

Module Files.

(** A file that is there: what [stat()] and [unlink()] raise on it, if
    anything.  The files of the service are kept by path; a path that is
    not mapped does not exist. *)
Record node : Type := {
  stat_error : option exn;
  unlink_error : option exn
}.

Section PDFConverter.

Variable config : Config.

(** [Path.exists()]: a missing file is [False], a file that cannot be
    examined raises. *)
Definition path_exists (files : gmap string node) (path : string) : pyresult bool :=
  match files !! path with
  | None => Return false
  | Some n =>
      match stat_error n with
      | Some e => Raise e
      | None => Return true
      end
  end.

(** [Path.unlink()] *)
Definition unlink (files : gmap string node) (path : string)
  : option exn * gmap string node :=
  match files !! path with
  | None =>
      (Some (FileNotFoundError ("[Errno 2] No such file or directory: '" +:+ path +:+ "'")),
       files)
  | Some n =>
      match unlink_error n with
      | Some e => (Some e, files)
      | None => (None, delete path files)
      end
  end.

(** [filename] is a relative name, as a route parameter is. *)
Definition get_file_path (filename file_type : string) (files : gmap string node)
  : pyresult (option string) :=
  let file_path :=
    if String.eqb file_type "upload"
    then Pathlib.joinpath (Converter.upload_dir config) filename
    else Pathlib.joinpath (Converter.output_dir config) filename in
  match path_exists files file_path with
  | Return true => Return (Some file_path)
  | Return false => Return None
  | Raise e => Raise e
  end.

(** The result, the files afterwards and what is logged. *)
Definition delete_file (filename file_type : string) (files : gmap string node)
  : bool * gmap string node * list event :=
  let on_error e :=
    (false, files,
     [EvLog ERROR ("Error deleting file " +:+ filename +:+ ": " +:+ str_exn e)]) in
  match get_file_path filename file_type files with
  | Raise e => on_error e
  | Return None => (false, files, [])
  | Return (Some file_path) =>
      match unlink files file_path with
      | (None, files') => (true, files', [EvLog INFO ("Deleted file: " +:+ file_path)])
      | (Some e, _) => on_error e
      end
  end.

End PDFConverter.
End Files.

(** ** cleanup.py: directory statistics *)

Module Stats.

(** The dictionary of [get_dir_info], without its [total_size_mb], a
    floating-point rounding of [total_size]. *)
Record dir_info : Type := {
  dir_exists : bool;            (* "exists" *)
  file_count : nat;             (* "file_count" *)
  total_size : Z                (* "total_size" *)
}.

Record stats : Type := {
  stats_upload_dir : dir_info;
  stats_output_dir : dir_info;
  cleanup_enabled : bool;
  cleanup_interval_minutes : Z;
  file_expire_hours : Z;
  service_running : bool
}.

Section get_directory_stats.

Variable config : Config.

(** [file_path.stat().st_size] of an entry. *)
Variable st_size : Cleanup.entry → pyresult Z.

(** The [for] loop of [get_dir_info] with its two accumulators; a raise
    of [is_file()] or [stat()] leaves the loop through the handler, which
    logs, and the counts reached so far are returned. *)
Fixpoint count (directory_path : string) (listing : list Cleanup.entry)
    (files : nat) (size : Z) : nat * Z * list event :=
  let failed x :=
    [EvLog ERROR ("Error getting directory stats for " +:+ directory_path
                    +:+ ": " +:+ str_exn x)] in
  match listing with
  | [] => (files, size, [])
  | e :: rest =>
      match Cleanup.is_file e with
      | Raise x => (files, size, failed x)
      | Return false => count directory_path rest files size
      | Return true =>
          match st_size e with
          | Raise x => (S files, size, failed x)
          | Return n => count directory_path rest (S files) (size + n)
          end
      end
  end.

Definition get_dir_info (directory_path : string) (w : Cleanup.world)
  : pyresult dir_info * list event :=
  match Cleanup.fs w !! directory_path with
  | None => (Return {| dir_exists := false; file_count := 0; total_size := 0 |}, [])
  | Some d =>
      match Cleanup.exists_error d with
      | Some x => (Raise x, [])
      | None =>
          match Cleanup.iterdir_error d with
          | Some x =>
              (Return {| dir_exists := true; file_count := 0; total_size := 0 |},
               [EvLog ERROR ("Error getting directory stats for " +:+ directory_path
                               +:+ ": " +:+ str_exn x)])
          | None =>
              let '(files, size, lg) :=
                count directory_path (Cleanup.entries d) 0 0 in
              (Return {| dir_exists := true; file_count := files; total_size := size |}, lg)
          end
      end
  end.

Definition get_directory_stats (s : Cleanup.service) (w : Cleanup.world)
  : pyresult stats * list event :=
  match get_dir_info (Cleanup.upload_dir config) w with
  | (Raise x, lg) => (Raise x, lg)
  | (Return up, lg) =>
      match get_dir_info (Cleanup.output_dir config) w with
      | (Raise x, lg') => (Raise x, lg ++ lg')
      | (Return out, lg') =>
          (Return {| stats_upload_dir := up;
                     stats_output_dir := out;
                     cleanup_enabled := ENABLE_CLEANUP config;
                     cleanup_interval_minutes := CLEANUP_INTERVAL_MINUTES config;
                     file_expire_hours := FILE_EXPIRE_HOURS config;
                     service_running := Cleanup.is_running s |},
           lg ++ lg')
      end
  end.

End get_directory_stats.

(** The entries [is_file()] answers [True] for. *)
Definition regular (e : Cleanup.entry) : bool :=
  match Cleanup.is_file e with
  | Return true => true
  | _ => false
  end.

(** What the sizes of the regular files of a listing add up to. *)
Definition sizes (st_size : Cleanup.entry → pyresult Z) (l : list Cleanup.entry) : Z :=
  foldr (λ e acc, match st_size e with
                  | Return n => n + acc
                  | Raise _ => acc
                  end) 0 (List.filter regular l).

(** Every entry of the listing can be examined: [is_file()] answers, and
    the size of a regular file can be read. *)
Definition measurable (st_size : Cleanup.entry → pyresult Z) (l : list Cleanup.entry) : Prop :=
  Forall (λ e, (∀ x, Cleanup.is_file e ≠ Raise x) ∧
               (regular e = true → ∃ n, st_size e = Return n)) l.

(** A directory that is there and can be listed and measured. *)
Definition countable (st_size : Cleanup.entry → pyresult Z) (d : Cleanup.directory) : Prop :=
  Cleanup.exists_error d = None ∧ Cleanup.iterdir_error d = None ∧
  measurable st_size (Cleanup.entries d).

End Stats.

(** ** main.py: the remaining endpoints and the application events *)

Module Endpoints.

(** [FileResponse(path=.., filename=.., media_type=..)] *)
Record FileResponse : Type := {
  response_path : string;
  response_filename : string;
  media_type : string
}.

Section app.

Variable config : Config.

(** [verify_api_key], given [credentials.credentials]. *)
Definition verify_api_key (credentials : string) : pyresult string :=
  if negb (String.eqb credentials (API_KEY config))
  then Raise (HTTPException 401 "Invalid API key")
  else Return credentials.

(** [startup_event]: the fields of the clean-up service afterwards, or
    the [RuntimeError]. *)
Definition startup_event (s : Cleanup.service) : pyresult Cleanup.service :=
  if negb (validate config) then Raise (OtherError "Invalid configuration")
  else Return (Cleanup.start_cleanup_service config s).1.

Definition shutdown_event (s : Cleanup.service) : Cleanup.service :=
  (Cleanup.stop_cleanup_service s).1.

Definition download_file (filename : string) (files : gmap string Files.node)
  : pyresult FileResponse :=
  match Files.get_file_path config filename "output" files with
  | Raise e => Raise e
  | Return None => Raise (HTTPException 404 "File not found")
  | Return (Some file_path) =>
      Return {| response_path := file_path;
                response_filename := filename;
                media_type := "application/pdf" |}
  end.

(** [manual_cleanup]: the report as the response, or a 500. *)
Definition manual_cleanup (clock : nat → Z) (w : Cleanup.world)
  : pyresult Cleanup.report * Cleanup.world :=
  match Cleanup.cleanup_expired_files config clock w with
  | (Return result, w') => (Return result, w')
  | (Raise e, w') =>
      (Raise (HTTPException 500 ("Cleanup failed: " +:+ str_exn e)),
       Cleanup.log (EvLog ERROR ("Error in manual cleanup: " +:+ str_exn e)) w')
  end.

End app.
End Endpoints.

(** ** Reading a trace, continued *)

Definition is_kill (ev : event) : bool :=
  match ev with
  | EvKill _ => true
  | _ => false
  end.

(** The wait for the process ended in [asyncio.TimeoutError]. *)
Definition is_wait_timeout (ev : event) : bool :=
  match ev with
  | EvCommunicate _ _ (CommRaises (AsyncTimeoutError _)) => true
  | _ => false
  end.

(** The staged file was written. *)
Definition is_written (path : string) (ev : event) : bool :=
  match ev with
  | EvWrite p _ None => String.eqb p path
  | _ => false
  end.

(** The command line and the time limit of a launch are the configured
    ones, for the staged input and the output directory. *)
Definition launches_as_configured (config : Config) (env : Env) (filename : string)
    (ev : event) : Prop :=
  let cmd :=
    Converter.soffice_cmd config
      (Pathlib.joinpath (Converter.upload_dir config) (staged_name env filename))
      (Converter.output_dir config) in
  match ev with
  | EvRun c t _ => c = cmd ∧ t = CONVERSION_TIMEOUT config
  | EvSpawn c _ => c = cmd
  | EvCommunicate c t _ => c = cmd ∧ t = CONVERSION_TIMEOUT config
  | _ => True
  end.

(** The blocking call and the awaitable calls of an environment describe
    one run of the external process: its launch fails in both, or it is
    launched and ends with the same exit status in both, or it outlives
    the time limit in both. *)
Definition same_run (config : Config) (env : Env) (filename : string) : Prop :=
  let cmd :=
    Converter.soffice_cmd config
      (Pathlib.joinpath (Converter.upload_dir config) (staged_name env filename))
      (Converter.output_dir config) in
  match subprocess_run env cmd (CONVERSION_TIMEOUT config),
        create_subprocess_exec env cmd,
        communicate env cmd (CONVERSION_TIMEOUT config) with
  | RunRaises (TimeoutExpired _), None, CommRaises (AsyncTimeoutError _) => True
  | RunRaises (TimeoutExpired _), _, _ => False
  | RunRaises _, Some _, _ => True
  | Completed rc _ _, None, Communicated rc' _ _ => rc = rc'
  | Undecodable rc _, None, Communicated rc' _ _ => rc = rc'
  | _, _, _ => False
  end.

(** The staged file is written, the process exits with zero and leaves
    the predicted file, and what it printed cannot be decoded by the
    blocking call. *)
Definition spoiled (config : Config) (env : Env) (content : list byte)
    (filename : string) : Prop :=
  open_write env
    (Pathlib.joinpath (Converter.upload_dir config) (staged_name env filename)) content
    = None ∧
  (∃ msg,
     subprocess_run env
       (Converter.soffice_cmd config
          (Pathlib.joinpath (Converter.upload_dir config) (staged_name env filename))
          (Converter.output_dir config))
       (CONVERSION_TIMEOUT config) = Undecodable 0 msg) ∧
  path_exists env (predicted_path config env filename) = Return true.

(** Besides, the standard error stream reads the same in both, and a
    process that has outlived the time limit can be killed. *)
Definition same_process (config : Config) (env : Env) (filename : string) : Prop :=
  let cmd :=
    Converter.soffice_cmd config
      (Pathlib.joinpath (Converter.upload_dir config) (staged_name env filename))
      (Converter.output_dir config) in
  create_subprocess_exec env cmd = None ∧
  match subprocess_run env cmd (CONVERSION_TIMEOUT config),
        communicate env cmd (CONVERSION_TIMEOUT config) with
  | Completed rc _ err, Communicated rc' _ err' => rc = rc' ∧ err' = Return err
  | RunRaises (TimeoutExpired _), CommRaises (AsyncTimeoutError _) =>
      process_kill env = None
  | _, _ => False
  end.

(** Sleeps of a loop trace last at least [seconds]. *)
Definition sleeps_at_least (seconds : Z) (ev : Cleanup.loop_event) : Prop :=
  match ev with
  | Cleanup.LoopSleep d => seconds ≤ d
  | _ => True
  end.

Definition is_sleep (ev : Cleanup.loop_event) : bool :=
  match ev with
  | Cleanup.LoopSleep _ => true
  | _ => false
  end.

(** The configuration passes the three checks of [Config.validate]. *)
Definition valid_settings (config : Config) : Prop :=
  1 ≤ PORT config ≤ 65535 ∧
  0 < CLEANUP_INTERVAL_MINUTES config ∧
  0 < FILE_EXPIRE_HOURS config.

Definition is_run (ev : event) : bool :=
  match ev with
  | EvRun _ _ _ => true
  | _ => false
  end.

Definition is_spawn (ev : event) : bool :=
  match ev with
  | EvSpawn _ _ => true
  | _ => false
  end.

Definition is_communicate (ev : event) : bool :=
  match ev with
  | EvCommunicate _ _ _ => true
  | _ => false
  end.

(** How many events of a kind a trace has. *)
Definition occurrences (kind : event → bool) (t : list event) : nat :=
  length (List.filter kind t).

(** An attempt writes the staged file once, before anything else, and
    launches the external process only when the write went through. *)
Definition stages_then_launches (staged_path : string) (content : list byte)
    (m : Eff (bool * string * option string)) : Prop :=
  ∃ failure rest,
    trace_of m = EvWrite staged_path content failure :: rest ∧
    existsb is_staging rest = false ∧
    (existsb is_invocation rest = true → failure = None).

(** Two messages say the same in the words of the blocking and of the
    awaitable attempt. *)
Definition same_report (message message' : string) : Prop :=
  message = message' ∨
  (∃ err, message = "Conversion failed: " +:+ err ∧
          message' = "Async conversion failed: " +:+ err) ∨
  (∃ err, message = "Error during conversion: " +:+ err ∧
          message' = "Error during async conversion: " +:+ err).

(** ** Samples, continued *)

Definition plain_node : Files.node :=
  {| Files.stat_error := None; Files.unlink_error := None |}.

(** An entry that cannot be examined. *)
Definition broken_entry : Cleanup.entry := {|
  Cleanup.entry_name := "broken_link";
  Cleanup.is_file := Raise (PermissionError "[Errno 13] Permission denied");
  Cleanup.st_mtime := Return 0;
  Cleanup.unlink := None
|}.

(** The defaults, with [ENABLE_CLEANUP=false]. *)
Definition disabled_config : Config := {|
  API_KEY := "your-api-key-here";
  PORT := 8000;
  HOST := "0.0.0.0";
  UPLOAD_DIR := "uploads";
  OUTPUT_DIR := "outputs";
  ENABLE_CLEANUP := false;
  CLEANUP_INTERVAL_MINUTES := 30;
  FILE_EXPIRE_HOURS := 1;
  SOFFICE_PATH := "soffice";
  CONVERSION_TIMEOUT := 300;
  LOG_LEVEL := "INFO"
|}.

(** Every file is two kibibytes long. *)
Definition sample_size (e : Cleanup.entry) : pyresult Z := Return 2048.

(** The output directory after the sample conversion. *)
Definition converted_files : gmap string Files.node :=
  {[ "outputs/report_123e4567-e89b-42d3-a456-426614174000.pdf" := plain_node ]}.

(* ===================================================================== *)
(** * Part II: lemmas and theorems                                        *)
(* ===================================================================== *)

Example stem_report : Pathlib.stem "dir/report.docx" = "report".
Proof. reflexivity. Qed.

Example suffix_report : Pathlib.suffix "dir/report.docx" = ".docx".
Proof. reflexivity. Qed.

Example stem_trailing_dot : Pathlib.stem "report." = "report.".
Proof. reflexivity. Qed.

Example stem_hidden : Pathlib.stem ".bashrc" = ".bashrc".
Proof. reflexivity. Qed.

Example name_dot_component : Pathlib.name "a/b/." = "b".
Proof. reflexivity. Qed.

(** ** Strings *)

Lemma str_app_nil_l (s : string) : "" +:+ s = s.
Proof. reflexivity. Qed.

Lemma str_app_cons (a : ascii) (s t : string) :
  String a s +:+ t = String a (s +:+ t).
Proof. reflexivity. Qed.

Lemma str_app_nil_r (s : string) : s +:+ "" = s.
Proof. induction s as [|a s IH]; [done|]. by rewrite str_app_cons, IH. Qed.

Lemma str_app_assoc (s t u : string) : (s +:+ t) +:+ u = s +:+ t +:+ u.
Proof. induction s as [|a s IH]; [done|]. by rewrite !str_app_cons, IH. Qed.

Lemma str_length_app (s t : string) :
  String.length (s +:+ t) = (String.length s + String.length t)%nat.
Proof. induction s as [|a s IH]; [done|]. rewrite str_app_cons. simpl. by rewrite IH. Qed.

(** ** pathlib *)

Section pathlib_facts.
Import Pathlib.

Lemma rfind_app c (a b : string) :
  rfind c (a +:+ b) =
  match rfind c b with
  | Some i => Some (String.length a + i)%nat
  | None => rfind c a
  end.
Proof.
  induction a as [|x a IH].
  - rewrite str_app_nil_l. by destruct (rfind c b).
  - rewrite str_app_cons. simpl. rewrite IH. by destruct (rfind c b).
Qed.

Lemma rfind_head c r : rfind c r = None → rfind c (String c r) = Some 0%nat.
Proof. intros H. simpl. by rewrite H, Ascii.eqb_refl. Qed.

Lemma rfind_lt c s i : rfind c s = Some i → (i < String.length s)%nat.
Proof.
  revert i. induction s as [|x s IH]; intros i; simpl; [done|].
  destruct (rfind c s) as [j|].
  - intros [= <-]. specialize (IH j eq_refl). lia.
  - destruct (Ascii.eqb x c); [intros [= <-]; lia | done].
Qed.

(** The last occurrence cuts the string into a prefix, the character and
    a rest where it does not occur. *)
Lemma rfind_split c s i :
  rfind c s = Some i →
  ∃ r, s = str_take i s +:+ String c r ∧ str_drop i s = String c r
       ∧ String.length (str_take i s) = i ∧ rfind c r = None.
Proof.
  revert i. induction s as [|x s IH]; intros i; simpl; [done|].
  destruct (rfind c s) as [j|] eqn:Hj.
  - intros [= <-]. destruct (IH j eq_refl) as (r & Hs & Hd & Hl & Hr).
    exists r. simpl. rewrite str_app_cons, <- Hs, Hl. done.
  - destruct (Ascii.eqb_spec x c) as [->|]; [|done].
    intros [= <-]. exists s. done.
Qed.

Lemma rfind_take_None c s n : rfind c s = None → rfind c (str_take n s) = None.
Proof.
  revert n. induction s as [|x s IH]; intros [|n]; simpl; try done.
  destruct (rfind c s); [done|]. rewrite (IH n eq_refl).
  by destruct (Ascii.eqb x c).
Qed.

Lemma rfind_drop_None c s n : rfind c s = None → rfind c (str_drop n s) = None.
Proof.
  revert n. induction s as [|x s IH]; intros [|n]; simpl; try done.
  destruct (rfind c s); [done|]. intros _. by apply IH.
Qed.

Lemma rfind_app_None c a b :
  rfind c a = None → rfind c b = None → rfind c (a +:+ b) = None.
Proof. intros Ha Hb. by rewrite rfind_app, Hb. Qed.

Lemma str_take_app (a b : string) : str_take (String.length a) (a +:+ b) = a.
Proof. induction a as [|x a IH]; [by destruct b|]. rewrite str_app_cons. simpl. by rewrite IH. Qed.

(** Every piece of a split is free of the separator. *)
Lemma split_on_free sep s : Forall (λ x, rfind sep x = None) (split_on sep s).
Proof.
  induction s as [|a s IH]; simpl.
  - by repeat constructor.
  - destruct (Ascii.eqb a sep) eqn:Ha; [by constructor|].
    destruct (split_on sep s) as [|x xs].
    + repeat constructor. simpl. by rewrite Ha.
    + inversion IH as [|?? Hx Hxs]; subst. constructor; [|done].
      simpl. by rewrite Hx, Ha.
Qed.

Lemma split_on_no_sep sep s : rfind sep s = None → split_on sep s = [s].
Proof.
  induction s as [|a s IH]; simpl; [done|].
  destruct (rfind sep s); [done|].
  destruct (Ascii.eqb a sep); [done|]. intros _. by rewrite IH.
Qed.

Lemma last_Forall {A} (P : A → Prop) (l : list A) (d : A) :
  Forall P l → P d → P (List.last l d).
Proof.
  induction 1 as [|x l Hx Hl IH]; intros Hd; [done|].
  destruct l; [done|]. by apply IH.
Qed.

Lemma name_no_slash p : rfind slash (name p) = None.
Proof.
  unfold name, components. apply last_Forall; [|done].
  apply Forall_forall. intros x Hx%list_elem_of_In%filter_In.
  pose proof (split_on_free slash p) as HF.
  rewrite Forall_forall in HF. apply HF, list_elem_of_In. by destruct Hx.
Qed.

Lemma name_of_component s :
  rfind slash s = None → is_component s = true → name s = s.
Proof.
  intros Hs Hc. unfold name, components.
  rewrite (split_on_no_sep _ _ Hs). simpl. by rewrite Hc.
Qed.

Lemma stem_no_slash p : rfind slash (stem p) = None.
Proof.
  unfold stem. pose proof (name_no_slash p).
  destruct (rfind dot (name p)); [|done].
  destruct (splits_at _ _); [|done]. by apply rfind_take_None.
Qed.

Lemma suffix_no_slash p : rfind slash (suffix p) = None.
Proof.
  unfold suffix. pose proof (name_no_slash p).
  destruct (rfind dot (name p)); [|done].
  destruct (splits_at _ _); [|done]. by apply rfind_drop_None.
Qed.

End pathlib_facts.

Section staged_names.
Import Pathlib.

Lemma str_forallb_rfind_None f c s :
  f c = false → str_forallb f s = true → rfind c s = None.
Proof.
  intros Hc. induction s as [|a s IH]; simpl; [done|].
  intros [Ha Hs]%andb_true_iff. rewrite (IH Hs).
  destruct (Ascii.eqb_spec a c) as [->|]; [congruence | done].
Qed.

Lemma uuid_shaped_no_dot tok : uuid_shaped tok = true → rfind dot tok = None.
Proof.
  intros [_ H]%andb_true_iff. by apply (str_forallb_rfind_None uuid_char).
Qed.

Lemma uuid_shaped_no_slash tok : uuid_shaped tok = true → rfind slash tok = None.
Proof.
  intros [_ H]%andb_true_iff. by apply (str_forallb_rfind_None uuid_char).
Qed.

(** A string that contains an underscore is a path component. *)
Lemma is_component_underscore a b : is_component (a +:+ "_" +:+ b) = true.
Proof.
  assert (rfind "_"%char (a +:+ "_" +:+ b) ≠ None) as H.
  { rewrite rfind_app. unfold String.app at 1. simpl.
    by destruct (rfind "_"%char b). }
  unfold is_component.
  destruct (String.eqb_spec (a +:+ "_" +:+ b) "") as [E|_];
    [rewrite E in H; by simpl in H|].
  destruct (String.eqb_spec (a +:+ "_" +:+ b) ".") as [E|_];
    [rewrite E in H; by simpl in H|done].
Qed.

(** The staged name is its own final component. *)
Lemma name_staged p tok sfx :
  rfind slash tok = None → rfind slash sfx = None →
  name (stem p +:+ "_" +:+ tok +:+ sfx) = stem p +:+ "_" +:+ tok +:+ sfx.
Proof.
  intros Htok Hsfx. apply name_of_component.
  - apply rfind_app_None; [apply stem_no_slash|].
    apply rfind_app_None; [done|]. by apply rfind_app_None.
  - apply is_component_underscore.
Qed.

(** Taking the stem of the staged name gives back stem and token, unless
    the original name ends in a dot. *)
Lemma stem_staged p tok :
  rfind dot tok = None → rfind slash tok = None →
  ends_with_dot (name p) = false →
  stem (stem p +:+ "_" +:+ tok +:+ suffix p) = stem p +:+ "_" +:+ tok.
Proof.
  intros Hd Hs Hend.
  unfold stem at 1. rewrite (name_staged p tok (suffix p) Hs (suffix_no_slash p)).
  unfold stem, suffix, ends_with_dot in *.
  destruct (rfind dot (name p)) as [i|] eqn:Hi.
  - destruct (rfind_split _ _ _ Hi) as (r & Hnm & Hdrop & Hlen & Hr).
    pose proof (rfind_lt _ _ _ Hi) as Hlt.
    destruct (splits_at (name p) i) eqn:Hsp.
    + (* a proper suffix: the last dot of the staged name is the suffix's *)
      rewrite Hdrop.
      replace (str_take i (name p) +:+ "_" +:+ tok +:+ String dot r)
        with ((str_take i (name p) +:+ "_" +:+ tok) +:+ String dot r)
        by (by rewrite !str_app_assoc).
      rewrite rfind_app, (rfind_head dot r Hr), Nat.add_0_r.
      assert (r ≠ "") as Hne.
      { intros ->.
        assert (String.length (name p) = (i + 1)%nat) as Hl.
        { rewrite Hnm at 1. by rewrite str_length_app, Hlen. }
        unfold splits_at in Hsp. apply andb_true_iff in Hsp as [_ Hsp].
        apply Nat.ltb_lt in Hsp. lia. }
      assert (splits_at ((str_take i (name p) +:+ "_" +:+ tok) +:+ String dot r)
                (String.length (str_take i (name p) +:+ "_" +:+ tok)) = true) as ->.
      { unfold splits_at. rewrite !str_length_app. simpl.
        destruct r as [|x r]; [done|]. simpl.
        apply andb_true_iff; split; apply Nat.ltb_lt; lia. }
      apply str_take_app.
    + (* no suffix: the name starts with its only dot *)
      assert (i = 0%nat) as ->.
      { unfold splits_at in Hsp.
        apply andb_false_iff in Hsp. apply andb_false_iff in Hend.
        destruct Hsp as [Hsp|Hsp], Hend as [He|He];
          rewrite ?Nat.ltb_ge, ?Nat.ltb_nlt, ?Nat.eqb_neq in *; lia. }
      rewrite str_app_nil_r. simpl in Hnm. rewrite str_app_nil_l in Hnm.
      rewrite Hnm. rewrite str_app_cons.
      rewrite rfind_head; [done|].
      apply rfind_app_None; [done|]. by apply rfind_app_None.
  - rewrite str_app_nil_r.
    rewrite (rfind_app_None dot (name p) ("_" +:+ tok) Hi); [done|].
    by apply rfind_app_None.
Qed.

Lemma str_take_app_le n (a b : string) :
  (n ≤ String.length a)%nat → str_take n (a +:+ b) = str_take n a.
Proof.
  revert n. induction a as [|x a IH]; intros [|n] Hn; simpl in *; try done; try lia.
  rewrite IH; [done|lia].
Qed.

(** The exception is exact: when the original name ends in a dot, the
    predicted output name is the name without that dot and without the
    token. *)
Lemma stem_staged_trailing_dot p tok :
  rfind dot tok = None → rfind slash tok = None →
  ends_with_dot (name p) = true →
  suffix p = "" ∧ stem p = name p ∧
  name p = stem (stem p +:+ "_" +:+ tok +:+ suffix p) +:+ ".".
Proof.
  intros Hd Hs Hend.
  assert (suffix p = "" ∧ stem p = name p) as [Hsfx Hstem].
  { unfold suffix, stem, ends_with_dot, splits_at in *.
    destruct (rfind dot (name p)) as [i|]; [|done].
    apply andb_true_iff in Hend as [Hpos Hlast]. rewrite Hpos. simpl.
    apply Nat.eqb_eq in Hlast. rewrite Hlast, Nat.ltb_irrefl. done. }
  split; [done|]. split; [done|].
  pose proof (name_staged p tok (suffix p) Hs (suffix_no_slash p)) as Hname.
  unfold stem at 1. rewrite Hname, Hsfx, Hstem, str_app_nil_r.
  unfold ends_with_dot in Hend.
  destruct (rfind dot (name p)) as [i|] eqn:Hi; [|done].
  apply andb_true_iff in Hend as [Hpos%Nat.ltb_lt Hlast%Nat.eqb_eq].
  destruct (rfind_split _ _ _ Hi) as (r & Hnm & Hdrop & Hlen & Hr).
  pose proof (rfind_lt _ _ _ Hi) as Hlt.
  assert (r = "") as ->.
  { assert (String.length (name p) = (i + S (String.length r))%nat) as Hl.
    { rewrite Hnm at 1. by rewrite str_length_app, Hlen. }
    destruct r; [done|]. simpl in Hl. lia. }
  rewrite rfind_app, (rfind_app_None dot "_" tok eq_refl Hd), Hi.
  assert (splits_at (name p +:+ "_" +:+ tok) i = true) as ->.
  { unfold splits_at. rewrite !str_length_app. simpl.
    apply andb_true_iff; split; apply Nat.ltb_lt; lia. }
  rewrite str_take_app_le by lia. done.
Qed.

End staged_names.

(** ** converter.py: running a conversion attempt by cases *)

Section converter_facts.
Import Converter.
Variable config : Config.
Variable env : Env.

Ltac unfold_converter :=
  unfold success_criterion, absorbs_failures, output_iff_success,
    predicted_path, predicted_name, staged_name,
    convert_to_pdf, convert_to_pdf_async, _run_soffice_command,
    wait_for_communicate, write_file, run, spawn, kill, exists_,
    logger_info, logger_error, emit, raise, of_result, try_except,
    result_of, trace_of, exited_zero, found_at, missing_at, NOT_FOUND_MESSAGE.

(** Every way the blocking attempt can go. *)
Ltac sync_cases :=
  unfold_converter;
  destruct (open_write env _ _) as [ew|]; simpl;
  [| destruct (subprocess_run env _ _) as [rc so se|[]|rc ms]; simpl;
     [destruct (rc =? 0) eqn:Hrc; simpl;
      [destruct (path_exists env _) as [[|]|ee]; simpl|] | ..]].

(** Every way the awaitable attempt can go. *)
Ltac async_cases :=
  unfold_converter;
  destruct (open_write env _ _) as [ew|]; simpl;
  [| destruct (create_subprocess_exec env _) as [es|]; simpl;
     [| destruct (communicate env _ _) as [rc so [se|de]|[]]; simpl;
        [destruct (rc =? 0) eqn:Hrc; simpl;
         [destruct (path_exists env _) as [[|]|ee]; simpl|]
        |destruct (rc =? 0) eqn:Hrc; simpl;
         [destruct (path_exists env _) as [[|]|ee]; simpl|]
        |..]]];
  try match goal with
      | |- context [process_kill env] =>
          destruct (process_kill env) as [ek|]; simpl
      end.

Ltac close_case :=
  simpl;
  repeat match goal with
  | H : (?rc =? 0) = _ |- _ => rewrite ?H in *; clear H
  end;
  rewrite ?String.eqb_refl; simpl;
  repeat split; intros;
  repeat match goal with
  | H : _ ∧ _ |- _ => destruct H
  end;
  try done; try (cbv [String.append] in *; congruence).

Lemma convert_to_pdf_criterion content filename :
  success_criterion (predicted_path config env filename)
    (convert_to_pdf config env content filename).
Proof. sync_cases; do 3 eexists; (split; [reflexivity|]); close_case. Qed.

Lemma convert_to_pdf_async_criterion content filename :
  success_criterion (predicted_path config env filename)
    (convert_to_pdf_async config env content filename).
Proof. async_cases; do 3 eexists; (split; [reflexivity|]); close_case. Qed.

Lemma convert_to_pdf_absorbs content filename :
  absorbs_failures (predicted_path config env filename)
    (convert_to_pdf config env content filename).
Proof. sync_cases; do 3 eexists; (split; [reflexivity|]); close_case. Qed.

Lemma convert_to_pdf_async_absorbs content filename :
  absorbs_failures (predicted_path config env filename)
    (convert_to_pdf_async config env content filename).
Proof. async_cases; do 3 eexists; (split; [reflexivity|]); close_case. Qed.

(** The blocking invoker returns for every outcome of [subprocess.run],
    with a message, and reports success exactly on exit status zero. *)
Lemma _run_soffice_command_absorbs input_file outdir :
  ∃ ok message,
    result_of (_run_soffice_command config env input_file outdir) = Return (ok, message) ∧
    message ≠ "" ∧
    (ok = true ↔
     exited_zero (trace_of (_run_soffice_command config env input_file outdir)) = true).
Proof.
  unfold_converter.
  destruct (subprocess_run env _ _) as [rc so se|[]|rc ms]; simpl;
    [destruct (rc =? 0) eqn:Hrc; simpl|..];
    do 2 eexists; (split; [reflexivity|]); close_case.
Qed.

(** The failure taxonomy of the blocking invoker, outcome by outcome. *)
Lemma _run_soffice_command_taxonomy input_file outdir :
  result_of (_run_soffice_command config env input_file outdir) =
  match subprocess_run env (soffice_cmd config input_file outdir)
          (CONVERSION_TIMEOUT config) with
  | Completed rc _ stderr =>
      if rc =? 0 then Return (true, "Conversion successful")
      else Return (false, "Conversion failed: " +:+ stderr)
  | RunRaises (TimeoutExpired _) =>
      Return (false, "Conversion timeout after "
                       +:+ pretty (CONVERSION_TIMEOUT config) +:+ " seconds")
  | RunRaises (FileNotFoundError _) =>
      Return (false, "LibreOffice not found at " +:+ SOFFICE_PATH config)
  | RunRaises e =>
      Return (false, "Unexpected error during conversion: " +:+ str_exn e)
  | Undecodable _ msg =>
      Return (false, "Unexpected error during conversion: " +:+ msg)
  end.
Proof.
  unfold_converter.
  destruct (subprocess_run env _ _) as [rc so se|[]|rc ms]; simpl; try done.
  by destruct (rc =? 0).
Qed.

Lemma convert_to_pdf_output content filename :
  output_iff_success (convert_to_pdf config env content filename).
Proof.
  sync_cases; do 3 eexists; (split; [reflexivity|]); close_case; eauto.
Qed.

Lemma convert_to_pdf_async_output content filename :
  output_iff_success (convert_to_pdf_async config env content filename).
Proof.
  async_cases; do 3 eexists; (split; [reflexivity|]); close_case; eauto.
Qed.

Lemma convert_to_pdf_names content filename :
  names_used config env filename (convert_to_pdf config env content filename).
Proof.
  unfold names_used, uses_names.
  sync_cases; (split; [repeat constructor|]); intros; by simplify_eq.
Qed.

Lemma convert_to_pdf_async_names content filename :
  names_used config env filename (convert_to_pdf_async config env content filename).
Proof.
  unfold names_used, uses_names.
  async_cases; (split; [repeat constructor|]); intros; by simplify_eq.
Qed.

End converter_facts.

(** ** main.py: the endpoints and the background call *)

Section main_facts.
Import Main.
Variable config : Config.

Lemma convert_to_pdf_async_returns env content name :
  ∃ t ok msg out,
    Converter.convert_to_pdf_async config env content name = (t, Return (ok, msg, out)).
Proof.
  destruct (convert_to_pdf_async_output config env content name)
    as (ok & msg & out & Hr & _).
  destruct (Converter.convert_to_pdf_async config env content name) as [t r].
  simpl in Hr. subst r. eauto.
Qed.

(** With the task in the dictionary the background call returns and
    leaves the task completed or failed, its creation time kept. *)
Lemma process_async_conversion_present env id content name st old :
  async_tasks st !! id = Some old →
  ∃ t s msg out,
    s ≠ processing ∧
    process_async_conversion config env id content name st =
      (AppState (<[id := Task s msg out (created_at old)]> (async_tasks st))
                (background_tasks st),
       (t, Return tt)).
Proof.
  intros Hold.
  destruct (convert_to_pdf_async_returns env content name) as (t & ok & msg & out & Hc).
  unfold process_async_conversion, app_try_except, record_outcome, getitem, setitem,
    lift, mbind, App_bind.
  rewrite Hc. destruct ok; simpl; rewrite Hold; simpl.
  - by exists (t ++ []), completed, msg, out.
  - by exists (t ++ []), failed, msg, None.
Qed.

(** Without it, the lookup of the creation time raises in the body and
    again in the handler: the dictionary is as before, the error is
    logged, and [KeyError] leaves the call. *)
Lemma process_async_conversion_absent env id content name st :
  async_tasks st !! id = None →
  ∃ t,
    process_async_conversion config env id content name st = (st, (t, Raise (KeyError id))) ∧
    existsb (is_log ERROR) t = true ∧
    exited_zero t = exited_zero (trace_of (Converter.convert_to_pdf_async config env content name)).
Proof.
  intros Hnone.
  destruct (convert_to_pdf_async_returns env content name) as (t & ok & msg & out & Hc).
  unfold process_async_conversion, app_try_except, record_outcome, getitem, setitem,
    lift, mbind, App_bind, logger_error, emit, raise, trace_of.
  rewrite Hc. destruct ok; simpl; repeat (rewrite Hnone; simpl).
  all: eexists; split; [reflexivity|].
  all: unfold exited_zero; rewrite !existsb_app; simpl.
  all: by rewrite !orb_false_r, ?orb_true_r.
Qed.

(** *** The life cycle of a task *)

Create HintDb lifecycle.
#[local] Hint Constructors lifecycle status_step : lifecycle.

Lemma status_in_insert id id' t st bg :
  status_in id (AppState (<[id' := t]> (async_tasks st)) bg) =
  if decide (id' = id) then Some (task_state t) else status_in id st.
Proof.
  unfold status_in. simpl. rewrite lookup_insert. by case_decide.
Qed.

(** What a submission does to the state. *)
Lemma convert_async_state env (file : Upload) st :
  ∃ content name,
    (convert_async env file st).1 =
    if accepted file then
      AppState (<[uuid4 env := Task processing "Conversion in progress" None (datetime_now env)]>
                  (async_tasks st))
               (background_tasks st ++ [Scheduled (uuid4 env) content name])
    else st.
Proof.
  unfold convert_async, accepted, Path, app_try_except, lift, of_result, mbind, App_bind,
    setitem, add_task, endpoint_handler, raise.
  destruct (file_filename file) as [name|]; simpl; [|by exists [], ""].
  destruct (file_read file) as [content|e]; simpl.
  - exists content, name. destruct (bool_decide _); simpl; [|done].
    by destruct (length content =? 0)%nat.
  - exists [], "". destruct (bool_decide _); simpl; [|done]. by destruct e.
Qed.

Lemma get_task_status_state id st : (get_task_status id st).1 = st.
Proof.
  unfold get_task_status, contains, getitem, lift, raise, mbind, App_bind. simpl.
  destruct (async_tasks st !! id) eqn:Hl; simpl; by rewrite ?Hl.
Qed.

(** An operation keeps the correspondence, moves the status of every
    task by at most one step of its life cycle, and adds no key but the
    identifier it draws. *)
Lemma step_consistent o st :
  consistent st →
  (∀ id, id ∈ drawn_ids [o] → async_tasks st !! id = None) →
  consistent (step config o st) ∧
  (∀ id, status_step (status_in id st) (status_in id (step config o st))) ∧
  (∀ id, async_tasks st !! id = None →
         async_tasks (step config o st) !! id = None ∨ id ∈ drawn_ids [o]).
Proof.
  intros [Hnd Hpend] Hfresh.
  assert (consistent st ∧
          (∀ id, status_step (status_in id st) (status_in id st)) ∧
          (∀ id, async_tasks st !! id = None →
                 async_tasks st !! id = None ∨ id ∈ drawn_ids [o])) as Hsame.
  { repeat split; try apply Hpend; auto using status_same. }
  destruct o as [env file|env file|env k|id0|nm| |]; simpl; try exact Hsame.
  - (* a submission *)
    destruct (convert_async_state env file st) as (content & name & ->).
    unfold drawn_ids in *. simpl in *.
    destruct (accepted file); [|exact Hsame]. clear Hsame.
    assert (async_tasks st !! uuid4 env = None) as Hnone by (apply Hfresh; left).
    assert (uuid4 env ∉ pending_ids st) as Hnew.
    { intros Hin%Hpend. unfold status_in in Hin. by rewrite Hnone in Hin. }
    split; [split|split].
    + unfold pending_ids. simpl. rewrite fmap_app. apply NoDup_app.
      repeat split; [done| |apply NoDup_singleton].
      intros x Hx ->%list_elem_of_singleton. done.
    + intros id. unfold pending_ids. simpl.
      rewrite fmap_app, elem_of_app, status_in_insert. simpl.
      rewrite list_elem_of_singleton. case_decide as Hid.
      * subst. intuition.
      * fold (pending_ids st). rewrite Hpend. intuition congruence.
    + intros id. rewrite status_in_insert. case_decide as Hid; [|apply status_same].
      subst. unfold status_in. rewrite Hnone. apply status_create.
    + intros id Hid. simpl. destruct (decide (uuid4 env = id)) as [->|Hne].
      * right. left.
      * left. by rewrite lookup_insert_ne.
  - (* the framework runs a scheduled call *)
    destruct (background_tasks st !! k) as [s|] eqn:Hk; [clear Hsame|exact Hsame].
    assert (pending_ids st ≡ₚ sched_task_id s :: delete k (pending_ids st)) as Hperm.
    { apply delete_Permutation. unfold pending_ids. by rewrite list_lookup_fmap, Hk. }
    assert (status_in (sched_task_id s) st = Some processing) as Hproc.
    { apply Hpend. rewrite Hperm. left. }
    unfold status_in in Hproc.
    destruct (async_tasks st !! sched_task_id s) as [old|] eqn:Hold; [|done].
    injection Hproc as Hproc.
    edestruct (process_async_conversion_present env (sched_task_id s)
                 (sched_content s) (sched_filename s)
                 (AppState (async_tasks st) (delete k (background_tasks st))) old)
      as (t & s' & msg & out & Hs' & ->); [done|]. simpl.
    rewrite Hperm in Hnd. apply NoDup_cons in Hnd as [Hnotin Hnd'].
    split; [split|split].
    + unfold pending_ids. simpl. by rewrite list_fmap_delete.
    + intros id. unfold pending_ids. simpl. rewrite list_fmap_delete.
      fold (pending_ids st). rewrite status_in_insert. simpl. case_decide as Hid.
      * subst. split; [done|]. intros [= ?]. done.
      * rewrite <- Hpend. split; [apply list_elem_of_delete_inv|].
        intros Hin.
        assert (id ∈ sched_task_id s :: delete k (pending_ids st)) as Hin'
          by (by rewrite <- Hperm).
        apply elem_of_cons in Hin' as [?|?]; [congruence|done].
    + intros id. rewrite status_in_insert. simpl. case_decide as Hid; [|apply status_same].
      subst. unfold status_in. rewrite Hold. simpl. rewrite Hproc.
      by apply status_finish.
    + intros id Hid. left. simpl. rewrite lookup_insert_ne; [done|].
      intros <-. by rewrite Hold in Hid.
  - (* a status query only reads *)
    by rewrite get_task_status_state.
Qed.

Lemma run_lifecycle id ops st :
  consistent st → fresh_ids ops st →
  lifecycle (status_in id st) (status_history id (run config ops st)).
Proof.
  revert st. induction ops as [|o ops IH]; intros st Hc [Hnd Hfresh]; simpl.
  { auto with lifecycle. }
  change (o :: ops) with ([o] ++ ops) in Hnd, Hfresh.
  unfold drawn_ids in Hnd, Hfresh. rewrite omap_app in Hnd, Hfresh.
  fold (drawn_ids [o]) in Hnd, Hfresh. fold (drawn_ids ops) in Hnd, Hfresh.
  apply NoDup_app in Hnd as (_ & Hdisj & Hnd').
  destruct (step_consistent o st Hc) as (Hc' & Hstep & Hkeys).
  { intros x Hx. apply Hfresh, elem_of_app. by left. }
  assert (fresh_ids ops (step config o st)) as Hfresh'.
  { split; [done|]. intros x Hx.
    destruct (Hkeys x) as [Hn|Hin]; [apply Hfresh, elem_of_app; by right|done|].
    by destruct (Hdisj x Hin). }
  specialize (IH _ Hc' Hfresh').
  unfold status_history in *. simpl.
  specialize (Hstep id).
  destruct Hstep as [[s|]| |t Ht]; simpl; auto with lifecycle.
Qed.

(** The shape of a life cycle. *)
Lemma lifecycle_terminal t h :
  t ≠ processing → lifecycle (Some t) h → h = replicate (length h) t.
Proof.
  intros Ht. remember (Some t) as c eqn:Hc. intros H.
  induction H as [c|h H IH|s h H IH|t' h Ht' H IH]; simplify_eq; simpl; try done.
  f_equal. by apply IH.
Qed.

Lemma lifecycle_processing h :
  lifecycle (Some processing) h →
  ∃ n m t, t ≠ processing ∧ h = replicate n processing ++ replicate m t.
Proof.
  remember (Some processing) as c eqn:Hc. intros H.
  induction H as [c|h H IH|s h H IH|t' h Ht' H IH]; simplify_eq.
  - by exists 0%nat, 0%nat, completed.
  - destruct (IH eq_refl) as (n & m & t & Ht & ->).
    by exists (S n), m, t.
  - exists 0%nat, (S (length h)), t'. split; [done|]. simpl.
    f_equal. by apply lifecycle_terminal.
Qed.

Lemma lifecycle_new h :
  lifecycle None h →
  ∃ n m t, t ≠ processing ∧ (n = 0%nat → m = 0%nat) ∧
           h = replicate n processing ++ replicate m t.
Proof.
  inversion 1 as [|h' H'| |]; subst.
  - by exists 0%nat, 0%nat, completed.
  - destruct (lifecycle_processing h' H') as (n & m & t & Ht & ->).
    by exists (S n), m, t.
Qed.

Lemma initial_consistent : consistent initial_state.
Proof.
  split; [constructor|]. intros id. unfold pending_ids, status_in. simpl.
  rewrite lookup_empty. simpl. split; [by intros ?%elem_of_nil|done].
Qed.

End main_facts.

(** ** cleanup.py: scanning a directory *)

Section cleanup_facts.
Import Cleanup.
Variable config : Config.
Variable clock : nat → Z.

Lemma _is_file_expired_spec file_path e tick :
  (_is_file_expired config clock file_path e tick).1.1 =
  match st_mtime e with
  | Return m => m <? clock tick - expiry config
  | Raise _ => false
  end.
Proof. unfold _is_file_expired. by destruct (st_mtime e). Qed.

(** A scan never adds entries. *)
Lemma scan_remaining_subset path l tick x :
  In x (remaining (scan config clock path l tick)) → In x l.
Proof.
  revert tick. induction l as [|e l IH]; intros tick; simpl; [done|].
  destruct (is_file e) as [[|]|ex]; simpl; [|intros [?|?]; eauto|done].
  destruct (_is_file_expired _ _ _ _ _) as [[[|] tick'] lg];
    [destruct (unlink e)|]; simpl; intros H; intuition eauto.
Qed.

(** An entry stays unless it is a regular file, expired when checked,
    whose removal succeeds. *)
Lemma scan_keeps path l tick e :
  In e l →
  (∀ m, st_mtime e = Return m → ∀ k, (m <? clock k - expiry config) = false) →
  In e (remaining (scan config clock path l tick)).
Proof.
  intros Hin Hnew. revert tick.
  induction l as [|x l IH]; intros tick; simpl; [done|].
  destruct Hin as [->|Hin].
  - destruct (is_file e) as [[|]|ex]; simpl; [|by left..].
    pose proof (_is_file_expired_spec (Pathlib.joinpath path (entry_name e)) e tick) as Hexp.
    destruct (_is_file_expired _ _ _ _ _) as [[b tick'] lg]. simpl in Hexp. subst b.
    destruct (st_mtime e) as [m|]; [rewrite (Hnew m eq_refl)|]; simpl; by left.
  - specialize (IH Hin).
    destruct (is_file x) as [[|]|ex]; simpl; [|by right|by right].
    destruct (_is_file_expired _ _ _ _ _) as [[[|] tick'] lg];
      [destruct (unlink x)|]; simpl; auto.
Qed.

(** After a scan that runs to its end, a removable entry that is still
    there was not expired when it was checked. *)
Lemma scan_remaining_fresh path l tick e m :
  Forall (λ x, ∀ ex, is_file x ≠ Raise ex) l →
  In e (remaining (scan config clock path l tick)) →
  removable e → st_mtime e = Return m →
  ∃ k, (m <? clock k - expiry config) = false.
Proof.
  intros Hscan Hin [Hfile Hunlink] Hm. revert tick Hin.
  induction Hscan as [|x l Hx Hl IH]; intros tick; simpl; [done|].
  destruct (is_file x) as [[|]|ex] eqn:Hfx; simpl; [| |by destruct (Hx ex)].
  - pose proof (_is_file_expired_spec (Pathlib.joinpath path (entry_name x)) x tick) as Hspec.
    destruct (_is_file_expired _ _ _ _ _) as [[b tick'] lg]. simpl in Hspec.
    destruct b; [destruct (unlink x) eqn:Hux|]; simpl.
    + intros [->|Hin]; [congruence|eauto].
    + eauto.
    + intros [->|Hin]; [|eauto]. rewrite Hm in Hspec. eauto.
  - intros [->|Hin]; [congruence|eauto].
Qed.

(** A scan that runs to its end lists every expired entry it can remove. *)
Lemma scan_deleted_listed path l tick e m :
  Forall (λ x, ∀ ex, is_file x ≠ Raise ex) l →
  In e l → removable e → st_mtime e = Return m →
  (∀ k, m < clock k - expiry config) →
  In (Pathlib.joinpath path (entry_name e)) (deleted_files (scan config clock path l tick)).
Proof.
  intros Hscan Hin [Hfile Hunlink] Hm Hold. revert tick Hin.
  induction Hscan as [|x l Hx Hl IH]; intros tick Hin; simpl; [done|].
  destruct Hin as [->|Hin].
  - rewrite Hfile.
    pose proof (_is_file_expired_spec (Pathlib.joinpath path (entry_name e)) e tick) as Hspec.
    destruct (_is_file_expired _ _ _ _ _) as [[b tick'] lg]. simpl in Hspec.
    rewrite Hm in Hspec. subst b.
    rewrite (proj2 (Z.ltb_lt _ _) (Hold tick)), Hunlink. simpl. by left.
  - destruct (is_file x) as [[|]|ex] eqn:Hfx; simpl; [|eauto|by destruct (Hx ex)].
    destruct (_is_file_expired _ _ _ _ _) as [[[|] tick'] lg];
      [destruct (unlink x)|]; simpl; eauto.
Qed.

Lemma scan_deletes path l tick e m :
  Forall (λ x, ∀ ex, is_file x ≠ Raise ex) l →
  In e l → removable e → st_mtime e = Return m →
  (∀ k, m < clock k - expiry config) →
  ¬ In e (remaining (scan config clock path l tick)) ∧
  In (Pathlib.joinpath path (entry_name e)) (deleted_files (scan config clock path l tick)).
Proof.
  intros Hscan Hin Hrem Hm Hold. split; [|by eapply scan_deleted_listed].
  intros Hstill.
  destruct (scan_remaining_fresh path l tick e m Hscan Hstill Hrem Hm) as [k Hk].
  apply Z.ltb_ge in Hk. specialize (Hold k). lia.
Qed.

Lemma scan_ticks_le path l tick :
  (tick ≤ scan_ticks (scan config clock path l tick))%nat.
Proof.
  revert tick. induction l as [|x l IH]; intros tick; simpl; [done|].
  destruct (is_file x) as [[|]|ex]; simpl; [|apply IH|done].
  unfold _is_file_expired.
  destruct (st_mtime x) as [m|]; simpl.
  - destruct (m <? _); [destruct (unlink x)|]; simpl; specialize (IH (S tick)); lia.
  - apply IH.
Qed.

Lemma steady_between_incl lo hi l l' :
  steady_between config clock lo hi l → (∀ x, In x l' → In x l) →
  steady_between config clock lo hi l'.
Proof. intros Hs Hsub e m k He. apply Hs. auto. Qed.

(** What a scan does with the first entry of a listing. *)
Lemma scan_cons path x l tick :
  let r := scan config clock path (x :: l) tick in
  let kept t :=
    deleted_files r = deleted_files (scan config clock path l t) ∧
    remaining r = x :: remaining (scan config clock path l t) ∧
    scan_ticks r = scan_ticks (scan config clock path l t) in
  match is_file x with
  | Raise _ => deleted_files r = [] ∧ remaining r = x :: l ∧ scan_ticks r = tick
  | Return false => kept tick
  | Return true =>
      match st_mtime x with
      | Raise _ => kept tick
      | Return m =>
          if expired_at config clock m tick then
            match unlink x with
            | Some _ => kept (S tick)
            | None =>
                deleted_files r =
                  Pathlib.joinpath path (entry_name x)
                    :: deleted_files (scan config clock path l (S tick)) ∧
                remaining r = remaining (scan config clock path l (S tick)) ∧
                scan_ticks r = scan_ticks (scan config clock path l (S tick))
            end
          else kept (S tick)
      end
  end.
Proof.
  simpl. unfold _is_file_expired, expired_at, expiry.
  destruct (is_file x) as [[|]|ex]; simpl; [|done..].
  destruct (st_mtime x) as [m|em]; simpl; [|done].
  destruct (m <? _); [destruct (unlink x)|]; done.
Qed.

(** While no entry passes its expiry, a second scan finds nothing to do. *)
Lemma scan_settled path l lo hi tick tick' :
  steady_between config clock lo hi l →
  (lo ≤ tick)%nat → (scan_ticks (scan config clock path l tick) ≤ hi)%nat →
  (lo ≤ tick')%nat →
  (scan_ticks (scan config clock path
                 (remaining (scan config clock path l tick)) tick') ≤ hi)%nat →
  deleted_files (scan config clock path
                   (remaining (scan config clock path l tick)) tick') = [] ∧
  remaining (scan config clock path
               (remaining (scan config clock path l tick)) tick')
    = remaining (scan config clock path l tick).
Proof.
  revert tick tick'.
  induction l as [|x l IH]; intros tick tick' Hsteady Hlo Hhi Hlo' Hhi'; [done|].
  assert (steady_between config clock lo hi l) as Hsteady'.
  { apply (steady_between_incl _ _ _ _ Hsteady). by right. }
  assert (∀ m k k', st_mtime x = Return m → (lo ≤ k < hi)%nat → (lo ≤ k' < hi)%nat →
                    expired_at config clock m k = expired_at config clock m k') as Hx.
  { intros m k k' Hm Hk Hk'.
    rewrite (Hsteady x m k), (Hsteady x m k'); try done; by left. }
  specialize (IH tick tick' Hsteady') as IH0.
  specialize (IH (S tick) tick' Hsteady') as IH1.
  specialize (IH (S tick) (S tick') Hsteady') as IH2.
  pose proof (scan_ticks_le path l (S tick)) as Hle.
  pose proof (scan_cons path x l tick) as Hfirst. cbv zeta in Hfirst.
  pose proof (scan_cons path x (remaining (scan config clock path l tick)) tick') as Hsec0.
  pose proof (scan_cons path x (remaining (scan config clock path l (S tick))) tick')
    as Hsec1.
  pose proof (scan_ticks_le path (remaining (scan config clock path l (S tick))) (S tick'))
    as Hle'.
  cbv zeta in Hsec0, Hsec1.
  destruct (is_file x) as [[|]|ex] eqn:Hfx.
  - destruct (st_mtime x) as [m|em] eqn:Hm.
    + specialize (Hx m tick tick' eq_refl).
      destruct (expired_at config clock m tick) eqn:Hb;
        [destruct (unlink x) eqn:Hux|].
      * destruct Hfirst as (Hd & Hr & Ht). rewrite Hr, Ht in *.
        destruct (expired_at config clock m tick') eqn:Hb';
          destruct Hsec1 as (Hd' & Hr' & Ht'); rewrite Hd', Hr'; rewrite Ht' in Hhi';
          [|specialize (Hx ltac:(lia) ltac:(lia)); done].
        destruct IH2 as [-> ->]; [lia..|done].
      * destruct Hfirst as (Hd & Hr & Ht). rewrite Hr, Ht in *.
        apply IH1; [lia|done..].
      * destruct Hfirst as (Hd & Hr & Ht). rewrite Hr, Ht in *.
        destruct (expired_at config clock m tick') eqn:Hb';
          [destruct (unlink x)|];
          destruct Hsec1 as (Hd' & Hr' & Ht'); rewrite ?Hd', ?Hr'; rewrite Ht' in Hhi';
          try (specialize (Hx ltac:(lia) ltac:(lia)); done).
        destruct IH2 as [-> ->]; [lia..|done].
    + destruct Hfirst as (Hd & Hr & Ht). rewrite Hr, Ht in *.
      destruct Hsec0 as (Hd' & Hr' & Ht'). rewrite Hd', Hr'. rewrite Ht' in Hhi'.
      destruct IH0 as [-> ->]; done.
  - destruct Hfirst as (Hd & Hr & Ht). rewrite Hr, Ht in *.
    destruct Hsec0 as (Hd' & Hr' & Ht'). rewrite Hd', Hr'. rewrite Ht' in Hhi'.
    destruct IH0 as [-> ->]; done.
  - destruct Hfirst as (Hd & Hr & Ht). rewrite Hr.
    pose proof (scan_cons path x l tick') as Hsec. cbv zeta in Hsec. rewrite Hfx in Hsec.
    by destruct Hsec as (-> & -> & _).
Qed.

(** *** One pass over a directory *)

Lemma log_fs ev w : fs (log ev w) = fs w.
Proof. reflexivity. Qed.

(** A pass only touches its own directory. *)
Lemma pass_other p q w :
  q ≠ p → fs (_cleanup_directory config clock p w).2 !! q = fs w !! q.
Proof.
  intros Hne. unfold _cleanup_directory.
  destruct (fs w !! p) as [d|]; [|done].
  destruct (exists_error d); [done|].
  destruct (iterdir_error d); [done|]. simpl. by rewrite lookup_insert_ne.
Qed.

(** What a pass does to the entries of a directory, its own or another. *)
Lemma pass_effect p w area d :
  fs w !! area = Some d →
  ∃ d1, fs (_cleanup_directory config clock p w).2 !! area = Some d1 ∧
    (∀ x, In x (entries d1) → In x (entries d)) ∧
    (∀ e, In e (entries d) →
          (∀ m, st_mtime e = Return m → ∀ k, (m <? clock k - expiry config) = false) →
          In e (entries d1)) ∧
    (p = area → scannable d →
     ∀ del, (_cleanup_directory config clock p w).1 = Return del →
     ∀ e m, In e (entries d) → removable e → st_mtime e = Return m →
            (∀ k, m < clock k - expiry config) →
            ¬ In e (entries d1) ∧ In (Pathlib.joinpath p (entry_name e)) del).
Proof.
  intros Hd. destruct (decide (area = p)) as [->|Hne].
  2: { exists d. rewrite pass_other by done.
       split; [done|]. split; [auto|]. split; [auto|]. congruence. }
  unfold _cleanup_directory. rewrite Hd.
  destruct (exists_error d) eqn:Hex; simpl.
  { exists d. split; [done|]. split; [auto|]. split; [auto|]. done. }
  destruct (iterdir_error d) eqn:Hit; simpl.
  { exists d. split; [done|]. split; [auto|]. split; [auto|].
    intros _ [Hno _]. congruence. }
  eexists. rewrite lookup_insert_eq. split; [done|]. simpl.
  split; [intros x; apply scan_remaining_subset|].
  split; [intros e He Hnew; by apply scan_keeps|].
  intros _ [_ Hscan] del [= <-] e m He Hrem Hm Hold.
  by apply (scan_deletes p (entries d) (ticks w) e m).
Qed.

(** A pass raises exactly when its directory is there and cannot be
    examined, and then changes nothing. *)
Lemma pass_raises p w x :
  (_cleanup_directory config clock p w).1 = Raise x →
  (∃ d, fs w !! p = Some d ∧ exists_error d = Some x) ∧
  (_cleanup_directory config clock p w).2 = w.
Proof.
  unfold _cleanup_directory. destruct (fs w !! p) as [d|]; [|done].
  destruct (exists_error d) eqn:Hex; simpl; [intros [= ->]; eauto|].
  by destruct (iterdir_error d).
Qed.

(** A pass creates no directory and adds no entry, and leaves a
    directory that cannot be examined as it is. *)
Lemma pass_shrinks p w q d' :
  fs (_cleanup_directory config clock p w).2 !! q = Some d' →
  ∃ d, fs w !! q = Some d ∧ exists_error d = exists_error d' ∧
       ∀ x, In x (entries d') → In x (entries d).
Proof.
  destruct (decide (q = p)) as [->|Hne].
  2: { rewrite pass_other by done. eauto. }
  unfold _cleanup_directory.
  destruct (fs w !! p) as [d|] eqn:Hd; [|simpl; rewrite Hd; done].
  destruct (exists_error d) eqn:Hex; simpl; [rewrite Hd; intros [= <-]; eauto|].
  destruct (iterdir_error d) eqn:Hit; simpl; [rewrite Hd; intros [= <-]; eauto|].
  rewrite lookup_insert_eq. intros [= <-]. simpl.
  exists d. split; [done|]. split; [done|]. apply scan_remaining_subset.
Qed.

(** A pass reads the clock forwards. *)
Lemma pass_ticks p w :
  (ticks w ≤ ticks (_cleanup_directory config clock p w).2)%nat.
Proof.
  unfold _cleanup_directory.
  destruct (fs w !! p) as [d|]; [|done].
  destruct (exists_error d); [done|].
  destruct (iterdir_error d); simpl; [done|]. apply scan_ticks_le.
Qed.

Lemma pass_log_ticks p w :
  (ticks w ≤ ticks (_cleanup_directory config clock p w).2)%nat ∧
  logged w `prefix_of` logged (_cleanup_directory config clock p w).2.
Proof.
  unfold _cleanup_directory.
  destruct (fs w !! p) as [d|]; [|done].
  destruct (exists_error d); [done|].
  destruct (iterdir_error d); simpl; [split; [done|by apply prefix_app_r]|].
  split; [|by apply prefix_app_r].
  generalize (ticks w). induction (entries d) as [|x l IH]; intros tick; simpl; [done|].
  destruct (is_file x) as [[|]|ex]; simpl; [|apply IH|done].
  unfold _is_file_expired.
  destruct (st_mtime x) as [m|]; simpl.
  - destruct (m <? _); [destruct (unlink x)|]; simpl; specialize (IH (S tick)); lia.
  - apply IH.
Qed.

(** An entry whose removal fails stays, whatever else the scan does. *)
Lemma scan_keeps_unremovable path l tick e x :
  In e l → unlink e = Some x → In e (remaining (scan config clock path l tick)).
Proof.
  intros Hin Hux. revert tick.
  induction l as [|y l IH]; intros tick; simpl; [done|].
  destruct Hin as [->|Hin].
  - destruct (is_file e) as [[|]|ex]; simpl; [|by left..].
    destruct (_is_file_expired _ _ _ _ _) as [[[|] tick'] lg]; [rewrite Hux|];
      simpl; by left.
  - specialize (IH Hin).
    destruct (is_file y) as [[|]|ex]; simpl; [|by right..].
    destruct (_is_file_expired _ _ _ _ _) as [[[|] tick'] lg];
      [destruct (unlink y)|]; simpl; auto.
Qed.

(** A scan that runs to its end logs the failed removal of an expired
    file. *)
Lemma scan_logs_failure path l tick e m x :
  Forall (λ y, ∀ ex, is_file y ≠ Raise ex) l →
  In e l → is_file e = Return true → st_mtime e = Return m →
  (∀ k, m < clock k - expiry config) → unlink e = Some x →
  In (EvLog ERROR ("Error deleting file " +:+ Pathlib.joinpath path (entry_name e)
                     +:+ ": " +:+ str_exn x))
     (scan_log (scan config clock path l tick)).
Proof.
  intros Hscan Hin Hfile Hm Hold Hux. revert tick Hin.
  induction Hscan as [|y l Hy Hl IH]; intros tick Hin; simpl; [done|].
  destruct Hin as [->|Hin].
  - rewrite Hfile.
    pose proof (_is_file_expired_spec (Pathlib.joinpath path (entry_name e)) e tick) as Hspec.
    destruct (_is_file_expired _ _ _ _ _) as [[b tick'] lg]. simpl in Hspec.
    rewrite Hm in Hspec. subst b.
    rewrite (proj2 (Z.ltb_lt _ _) (Hold tick)), Hux. simpl.
    apply in_or_app. right. by left.
  - destruct (is_file y) as [[|]|ex] eqn:Hfy; simpl; [|eauto|by destruct (Hy ex)].
    destruct (_is_file_expired _ _ _ _ _) as [[[|] tick'] lg];
      [destruct (unlink y)|]; simpl; apply in_or_app; right;
      try (right); eauto.
Qed.

Lemma pass_keeps_unremovable p w area d e x :
  fs w !! area = Some d → In e (entries d) → unlink e = Some x →
  ∃ d1, fs (_cleanup_directory config clock p w).2 !! area = Some d1 ∧ In e (entries d1).
Proof.
  intros Hd He Hux. destruct (decide (area = p)) as [->|Hne].
  2: { exists d. by rewrite pass_other. }
  unfold _cleanup_directory. rewrite Hd.
  destruct (exists_error d); simpl; [eauto|].
  destruct (iterdir_error d); simpl; [eauto|].
  eexists. rewrite lookup_insert_eq. split; [done|]. simpl.
  by eapply scan_keeps_unremovable.
Qed.

Lemma pass_logs_failure p w d e m x del :
  fs w !! p = Some d → (_cleanup_directory config clock p w).1 = Return del →
  scannable d → In e (entries d) → is_file e = Return true → st_mtime e = Return m →
  (∀ k, m < clock k - expiry config) → unlink e = Some x →
  In (EvLog ERROR ("Error deleting file " +:+ Pathlib.joinpath p (entry_name e)
                     +:+ ": " +:+ str_exn x))
     (logged (_cleanup_directory config clock p w).2).
Proof.
  intros Hd Hret [Hit Hall] He Hfile Hm Hold Hux. revert Hret.
  unfold _cleanup_directory. rewrite Hd.
  destruct (exists_error d); [done|]. rewrite Hit. simpl. intros _.
  apply in_or_app. right. by eapply scan_logs_failure.
Qed.

(** While no entry passes its expiry, a pass over a directory that a
    pass has already been over ends the same way and changes nothing. *)
Lemma pass_again p w w2 lo hi :
  (∀ d, fs w !! p = Some d → steady_between config clock lo hi (entries d)) →
  (lo ≤ ticks w)%nat → (ticks (_cleanup_directory config clock p w).2 ≤ hi)%nat →
  (lo ≤ ticks w2)%nat → (ticks (_cleanup_directory config clock p w2).2 ≤ hi)%nat →
  fs w2 !! p = fs (_cleanup_directory config clock p w).2 !! p →
  fs (_cleanup_directory config clock p w2).2 = fs w2 ∧
  (_cleanup_directory config clock p w2).1 =
    match (_cleanup_directory config clock p w).1 with
    | Return _ => Return []
    | Raise x => Raise x
    end.
Proof.
  intros Hsteady Hlo Hhi Hlo' Hhi'. revert Hhi Hhi'.
  unfold _cleanup_directory.
  destruct (fs w !! p) as [d|] eqn:Hd; simpl.
  2: { intros _ _ Hp. rewrite Hd in Hp. by rewrite Hp. }
  destruct (exists_error d) eqn:Hex; simpl.
  { intros _ _ Hp. rewrite Hd in Hp. by rewrite Hp, Hex. }
  destruct (iterdir_error d) eqn:Hit; simpl.
  { intros _ _ Hp. rewrite Hd in Hp. by rewrite Hp, Hex, Hit. }
  rewrite lookup_insert_eq. intros Hhi Hhi' Hp. rewrite Hp in *. simpl in *.
  destruct (scan_settled p (entries d) lo hi (ticks w) (ticks w2)) as [Hdel Hrem];
    [by apply Hsteady|done..|].
  rewrite Hdel, Hrem. split; [|done].
  by apply insert_id.
Qed.

(** *** One sweep *)

Lemma sweep_unfold w :
  cleanup_expired_files config clock w =
  let up := _cleanup_directory config clock (upload_dir config)
              (log (EvLog INFO "Starting file cleanup process") w) in
  match up.1 with
  | Raise x => (Raise x, up.2)
  | Return uploads =>
      let out := _cleanup_directory config clock (output_dir config) up.2 in
      match out.1 with
      | Raise x => (Raise x, out.2)
      | Return outputs =>
          let result := {|
            timestamp := clock (ticks out.2);
            deleted_uploads := length uploads;
            deleted_outputs := length outputs;
            total_deleted := length uploads + length outputs;
            upload_files := uploads;
            output_files := outputs |} in
          (Return result,
           log (EvLog INFO ("Cleanup completed. Deleted "
                              +:+ pretty (total_deleted result) +:+ " files"))
             {| fs := fs out.2; ticks := S (ticks out.2); logged := logged out.2 |})
      end
  end.
Proof.
  unfold cleanup_expired_files.
  destruct (_cleanup_directory config clock (upload_dir config) _) as [[uploads|x] w1];
    simpl; [|done].
  by destruct (_cleanup_directory config clock (output_dir config) w1) as [[outputs|x] w2].
Qed.

(** A sweep reads the clock forwards, pass by pass. *)
Lemma sweep_ticks w :
  let up := _cleanup_directory config clock (upload_dir config)
              (log (EvLog INFO "Starting file cleanup process") w) in
  let out := _cleanup_directory config clock (output_dir config) up.2 in
  (ticks w ≤ ticks up.2)%nat ∧
  (ticks up.2 ≤ ticks (cleanup_expired_files config clock w).2)%nat ∧
  (∀ uploads, up.1 = Return uploads →
     (ticks up.2 ≤ ticks out.2)%nat ∧
     (ticks out.2 ≤ ticks (cleanup_expired_files config clock w).2)%nat).
Proof.
  rewrite sweep_unfold. simpl.
  set (w0 := log (EvLog INFO "Starting file cleanup process") w).
  pose proof (pass_ticks (upload_dir config) w0) as Hup.
  set (up := _cleanup_directory config clock (upload_dir config) w0) in *.
  pose proof (pass_ticks (output_dir config) up.2) as Hout.
  set (out := _cleanup_directory config clock (output_dir config) up.2) in *.
  split; [done|].
  destruct (up.1) as [uploads|x]; simpl.
  - destruct (out.1) as [outputs|x]; simpl; (split; [lia|]); intros _ _; lia.
  - split; [done|]. done.
Qed.

(** While no file passes its expiry, a sweep right after a sweep changes
    no directory and ends the way the first one did, with nothing
    deleted. *)
Lemma sweep_again w hi :
  (∀ area d, area = upload_dir config ∨ area = output_dir config →
             fs w !! area = Some d →
             steady_between config clock (ticks w) hi (entries d)) →
  (ticks (cleanup_expired_files config clock
            (cleanup_expired_files config clock w).2).2 ≤ hi)%nat →
  let first := cleanup_expired_files config clock w in
  let second := cleanup_expired_files config clock first.2 in
  fs second.2 = fs first.2 ∧
  match first.1 with
  | Return _ => ∃ r2, second.1 = Return r2 ∧ upload_files r2 = [] ∧ output_files r2 = []
  | Raise x => second.1 = Raise x
  end.
Proof.
  intros Hsteady. simpl.
  pose proof (sweep_ticks w) as Hticks. cbv zeta in Hticks. revert Hticks.
  rewrite (sweep_unfold w). simpl.
  set (w0 := log (EvLog INFO "Starting file cleanup process") w).
  set (up := _cleanup_directory config clock (upload_dir config) w0).
  set (out := _cleanup_directory config clock (output_dir config) up.2).
  (* the directories of the first sweep, pass by pass *)
  assert (∀ p d, p = upload_dir config ∨ p = output_dir config →
                 fs w0 !! p = Some d →
                 steady_between config clock (ticks w) hi (entries d)) as Hs0.
  { intros p d Hp Hd. by apply (Hsteady p). }
  assert (∀ p d, p = upload_dir config ∨ p = output_dir config →
                 fs up.2 !! p = Some d →
                 steady_between config clock (ticks w) hi (entries d)) as Hs1.
  { intros p d Hp Hd.
    destruct (pass_shrinks (upload_dir config) w0 p d Hd) as (d0 & Hd0 & _ & Hsub).
    eapply steady_between_incl; [by apply (Hs0 p d0)|done]. }
  assert (ticks w0 = ticks w) as Hw0 by done.
  destruct (up.1) as [uploads|x] eqn:Hup; simpl.
  - destruct (out.1) as [outputs|x] eqn:Hout; simpl.
    + (* both passes returned *)
      intros (T1 & _ & T3) Hhi. destruct (T3 uploads eq_refl) as [T2 _]. clear T3.
      match type of Hhi with
      | (ticks (cleanup_expired_files _ _ ?f).2 ≤ _)%nat =>
          pose proof (sweep_ticks f) as (S1 & S2 & S3); revert Hhi S1 S2 S3
      end.
      rewrite sweep_unfold. simpl.
      match goal with
      | |- context [_cleanup_directory config clock (upload_dir config) ?wx] =>
          set (w1 := wx)
      end.
      intros Hhi S1 S2 S3.
      assert (fs w1 = fs out.2) as Hw1 by done.
      assert (ticks w1 = S (ticks out.2)) as Ht1 by done.
      assert (fs (_cleanup_directory config clock (upload_dir config) w1).2 = fs w1 ∧
              (_cleanup_directory config clock (upload_dir config) w1).1 = Return [])
        as [Hfs1 Ho1].
      { destruct (decide (upload_dir config = output_dir config)) as [Hsame|Hdiff].
        - destruct (pass_again (upload_dir config) up.2 w1 (ticks w) hi) as [H1 H2].
          + intros d Hd. apply (Hs1 (upload_dir config)); [by left|done].
          + lia.
          + rewrite Hsame. fold out. lia.
          + lia.
          + lia.
          + rewrite Hw1, Hsame. done.
          + split; [done|]. rewrite H2, Hsame. fold out. by rewrite Hout.
        - destruct (pass_again (upload_dir config) w0 w1 (ticks w) hi) as [H1 H2].
          + intros d Hd. apply (Hs0 (upload_dir config)); [by left|done].
          + lia.
          + fold up. lia.
          + lia.
          + lia.
          + rewrite Hw1. unfold out. by rewrite pass_other.
          + split; [done|]. rewrite H2. fold up. by rewrite Hup. }
      revert Hhi S2 S3. rewrite Ho1. simpl. intros Hhi S2 S3.
      destruct (S3 [] eq_refl) as [S4 S5]. clear S3.
      destruct (pass_again (output_dir config) up.2
                  (_cleanup_directory config clock (upload_dir config) w1).2
                  (ticks w) hi) as [Hfs2 Ho2].
      * intros d Hd. apply (Hs1 (output_dir config)); [by right|done].
      * lia.
      * fold out. lia.
      * lia.
      * lia.
      * by rewrite Hfs1, Hw1.
      * fold out in Ho2. rewrite Hout in Ho2. rewrite Ho2. simpl.
        split; [by rewrite Hfs2, Hfs1|]. eauto.
    + (* the pass over the outputs raised *)
      intros (T1 & _ & T3) Hhi. destruct (T3 uploads eq_refl) as [T2 _]. clear T3.
      destruct (pass_raises _ _ _ Hout) as [_ Hsame]. fold out in Hsame.
      match type of Hhi with
      | (ticks (cleanup_expired_files _ _ ?f).2 ≤ _)%nat =>
          pose proof (sweep_ticks f) as (S1 & S2 & S3); revert Hhi S1 S2 S3
      end.
      rewrite sweep_unfold. simpl.
      match goal with
      | |- context [_cleanup_directory config clock (upload_dir config) ?wx] =>
          set (w1 := wx)
      end.
      intros Hhi S1 S2 S3.
      assert (fs w1 = fs up.2) as Hw1 by (unfold w1; by rewrite log_fs, Hsame).
      assert (ticks w1 = ticks up.2) as Ht1 by (unfold w1; simpl; by rewrite Hsame).
      assert (ticks out.2 = ticks up.2) as Ht2 by (by rewrite Hsame).
      destruct (decide (upload_dir config = output_dir config)) as [Heq|Hdiff].
      * destruct (pass_again (upload_dir config) up.2 w1 (ticks w) hi) as [H1 H2].
        -- intros d Hd. apply (Hs1 (upload_dir config)); [by left|done].
        -- lia.
        -- rewrite Heq. fold out. lia.
        -- lia.
        -- lia.
        -- rewrite Heq. fold out. by rewrite Hsame, Hw1.
        -- rewrite Heq in H2 at 2. fold out in H2. rewrite Hout in H2.
           rewrite H2. simpl. split; [|done]. by rewrite H1, Hw1, Hsame.
      * destruct (pass_again (upload_dir config) w0 w1 (ticks w) hi) as [H1 H2].
        -- intros d Hd. apply (Hs0 (upload_dir config)); [by left|done].
        -- lia.
        -- fold up. lia.
        -- lia.
        -- lia.
        -- by rewrite Hw1.
        -- fold up in H2. rewrite Hup in H2.
           revert Hhi S2 S3. rewrite H2. simpl. intros Hhi S2 S3.
           destruct (S3 [] eq_refl) as [S4 S5]. clear S3.
           destruct (pass_again (output_dir config) up.2
                       (_cleanup_directory config clock (upload_dir config) w1).2
                       (ticks w) hi) as [Hfs2 Ho2].
           ++ intros d Hd. apply (Hs1 (output_dir config)); [by right|done].
           ++ lia.
           ++ fold out. lia.
           ++ lia.
           ++ lia.
           ++ rewrite H1, Hw1. fold out. by rewrite Hsame.
           ++ fold out in Ho2. rewrite Hout in Ho2. rewrite Ho2. simpl.
              split; [|done]. by rewrite Hfs2, H1, Hw1, Hsame.
  - (* the pass over the uploads raised *)
    intros (T1 & _ & _) Hhi.
    destruct (pass_raises _ _ _ Hup) as [_ Hsame]. fold up in Hsame.
    match type of Hhi with
    | (ticks (cleanup_expired_files _ _ ?f).2 ≤ _)%nat =>
        pose proof (sweep_ticks f) as (S1 & S2 & _); revert Hhi S1 S2
    end.
    rewrite sweep_unfold. simpl.
    match goal with
    | |- context [_cleanup_directory config clock (upload_dir config) ?wx] =>
        set (w1 := wx)
    end.
    intros Hhi S1 S2.
    destruct (pass_again (upload_dir config) w0 w1 (ticks w) hi) as [H1 H2].
    + intros d Hd. apply (Hs0 (upload_dir config)); [by left|done].
    + lia.
    + fold up. lia.
    + unfold w1. simpl. lia.
    + lia.
    + fold up. unfold w1. by rewrite log_fs.
    + fold up in H2. rewrite Hup in H2. rewrite H2. simpl.
      split; [|done]. by rewrite H1.
Qed.

(** *** The loop *)

Lemma loop_body_enabled w :
  ENABLE_CLEANUP config = true →
  ∃ o rest, (loop_body config clock w).1.1 = LoopSweep o :: rest.
Proof.
  intros Hen. unfold loop_body. rewrite Hen.
  destruct (cleanup_expired_files config clock w) as [[r|x] w']; simpl; eauto.
Qed.

Lemma _cleanup_loop_first wakes w :
  ENABLE_CLEANUP config = true →
  ∃ o rest, (_cleanup_loop config clock wakes true w).1 = LoopSweep o :: rest.
Proof.
  intros Hen. destruct (loop_body_enabled w Hen) as (o & rest & Hb).
  destruct wakes as [|[|] wakes]; simpl;
    destruct (loop_body config clock w) as [[evs w1] h]; simpl in Hb; subst evs.
  - eauto.
  - destruct (_cleanup_loop config clock wakes true w1) as [evs' w2]. simpl. eauto.
  - destruct h; simpl; eauto.
Qed.

Lemma paced_app secs evs evs' :
  paced secs evs' →
  (∃ r, evs = [LoopSweep (Return r); LoopSleep secs]) ∨
  (∃ x msg, evs = [LoopSweep (Raise x); LoopLog ERROR msg; LoopSleep 60]) →
  paced secs (evs ++ evs').
Proof.
  intros Hp [[r ->]|(x & msg & ->)]; simpl; by constructor.
Qed.

Lemma loop_body_pass w :
  ENABLE_CLEANUP config = true →
  let '(evs, _, in_handler) := loop_body config clock w in
  (in_handler = false ∧
   ∃ r, evs = [LoopSweep (Return r); LoopSleep (CLEANUP_INTERVAL_MINUTES config * 60)]) ∨
  (in_handler = true ∧
   ∃ x msg, evs = [LoopSweep (Raise x); LoopLog ERROR msg; LoopSleep 60]).
Proof.
  intros Hen. unfold loop_body. rewrite Hen.
  destruct (cleanup_expired_files config clock w) as [[r|x] w']; eauto 6.
Qed.

Lemma _cleanup_loop_paced wakes w :
  ENABLE_CLEANUP config = true →
  paced (CLEANUP_INTERVAL_MINUTES config * 60) (_cleanup_loop config clock wakes true w).1.
Proof.
  intros Hen. revert w. induction wakes as [|[|] wakes IH]; intros w; simpl;
    pose proof (loop_body_pass w Hen) as Hb;
    destruct (loop_body config clock w) as [[evs w1] h].
  - rewrite <- (app_nil_r evs). apply paced_app; [constructor|].
    destruct Hb as [[_ ?]|[_ ?]]; eauto.
  - specialize (IH w1).
    destruct (_cleanup_loop config clock wakes true w1) as [evs' w2]. simpl in *.
    apply paced_app; [done|]. destruct Hb as [[_ ?]|[_ ?]]; eauto.
  - destruct Hb as [[-> Hb]|[-> Hb]]; simpl.
    + apply paced_app; [constructor|]. eauto.
    + rewrite <- (app_nil_r evs). apply paced_app; [constructor|]. eauto.
Qed.

Lemma _cleanup_loop_sweeps n w :
  ENABLE_CLEANUP config = true →
  length (List.filter is_sweep
            (_cleanup_loop config clock (replicate n Elapsed) true w).1) = S n.
Proof.
  intros Hen. revert w. induction n as [|n IH]; intros w; simpl;
    pose proof (loop_body_pass w Hen) as Hb;
    destruct (loop_body config clock w) as [[evs w1] h].
  - destruct Hb as [[_ [r ->]]|[_ (x & msg & ->)]]; done.
  - specialize (IH w1).
    destruct (_cleanup_loop config clock (replicate n Elapsed) true w1) as [evs' w2].
    simpl in *. rewrite List.filter_app, length_app, IH.
    destruct Hb as [[_ [r ->]]|[_ (x & msg & ->)]]; done.
Qed.

End cleanup_facts.

(* ===================================================================== *)
(** * The specification, claim by claim                                   *)
(* ===================================================================== *)

(** ** Conversion invoker *)

Example sync_success :
  result_of (Converter.convert_to_pdf default_config (env_exit 0 true)
               sample_content "report.docx")
  = Return (true, "Conversion completed successfully",
            Some "report_123e4567-e89b-42d3-a456-426614174000.pdf").
Proof. reflexivity. Qed.

Example sync_output_missing :
  result_of (Converter.convert_to_pdf default_config (env_exit 0 false)
               sample_content "report.docx")
  = Return (false, "PDF file not found after conversion", None).
Proof. reflexivity. Qed.

Example sync_nonzero_exit :
  result_of (Converter.convert_to_pdf default_config (env_exit 1 true)
               sample_content "report.docx")
  = Return (false, "Conversion failed: conversion error", None).
Proof. reflexivity. Qed.

Example sync_binary_missing :
  result_of (Converter.convert_to_pdf default_config
               (env_raise (FileNotFoundError "No such file or directory: 'soffice'"))
               sample_content "report.docx")
  = Return (false, "LibreOffice not found at soffice", None).
Proof. reflexivity. Qed.

Example sync_timeout :
  result_of (Converter.convert_to_pdf default_config
               (env_raise (TimeoutExpired "timed out"))
               sample_content "report.docx")
  = Return (false, "Conversion timeout after 300 seconds", None).
Proof. vm_compute. reflexivity. Qed.

Example async_timeout :
  result_of (Converter.convert_to_pdf_async default_config
               {| uuid4 := sample_uuid; open_write := λ _ _, None;
                  subprocess_run := λ _ _, RunRaises (OtherError "");
                  create_subprocess_exec := λ _, None;
                  communicate := λ _ _, CommRaises (AsyncTimeoutError "");
                  process_kill := None; path_exists := λ _, Return false;
                  datetime_now := 0 |}
               sample_content "report.docx")
  = Return (false, "Conversion timeout after 300 seconds", None).
Proof. vm_compute. reflexivity. Qed.

Example sync_undecodable_output :
  result_of (Converter.convert_to_pdf default_config env_undecodable
               sample_content "report.docx")
  = Return (false,
            "Unexpected error during conversion: 'utf-8' codec can't decode byte 0xff in position 0: invalid start byte",
            None).
Proof. reflexivity. Qed.

(** C1.  The claim is not met by the blocking attempt.  With
    [text=True], [subprocess.run] decodes what the process printed once
    the process has ended, and raises when it cannot.  Here LibreOffice
    exits with status zero and the file at the predicted output path
    exists, and the blocking attempt returns a failure, with the
    message of an unexpected error, where the claim has a success; the
    awaitable attempt, which decodes the error stream only after an
    exit status other than zero, returns the success for the same
    run. *)
Theorem undecodable_output_fails_blocking_attempt :
  exit_status
    (subprocess_run env_undecodable
       (Converter.soffice_cmd default_config
          (Pathlib.joinpath (Converter.upload_dir default_config)
             (staged_name env_undecodable "report.docx"))
          (Converter.output_dir default_config))
       (CONVERSION_TIMEOUT default_config)) = Some 0 ∧
  path_exists env_undecodable (predicted_path default_config env_undecodable "report.docx")
    = Return true ∧
  (∃ message,
     result_of (Converter.convert_to_pdf default_config env_undecodable
                  sample_content "report.docx") = Return (false, message, None) ∧
     message ≠ NOT_FOUND_MESSAGE) ∧
  result_of (Converter.convert_to_pdf_async default_config env_undecodable
               sample_content "report.docx")
    = Return (true, "Conversion completed successfully",
              Some "report_123e4567-e89b-42d3-a456-426614174000.pdf").
Proof.
  split; [reflexivity|]. split; [reflexivity|]. split; [|reflexivity].
  eexists. split; [reflexivity|]. discriminate.
Qed.

(** C3.  Whatever the file content, the file name and the behaviour of
    the environment (the write of the staged file, the launch, the exit
    status, a time-out, the look-up of the output, any raise of an
    [Exception]), both conversion attempts and the blocking invoker
    return instead of raising; the message is never empty; and unless
    the process exited with zero and the output was found, success is
    false. *)
Theorem conversion_absorbs_failures config env content filename input_file outdir :
  absorbs_failures (predicted_path config env filename)
    (Converter.convert_to_pdf config env content filename) ∧
  absorbs_failures (predicted_path config env filename)
    (Converter.convert_to_pdf_async config env content filename) ∧
  ∃ ok message,
    result_of (Converter._run_soffice_command config env input_file outdir)
      = Return (ok, message) ∧
    message ≠ "" ∧
    (ok = true ↔
     exited_zero (trace_of (Converter._run_soffice_command config env input_file outdir))
       = true).
Proof.
  split; [apply convert_to_pdf_absorbs|].
  split; [apply convert_to_pdf_async_absorbs|].
  apply _run_soffice_command_absorbs.
Qed.

(** C10.  The triple a conversion attempt returns, blocking or awaitable,
    carries an output file name exactly on success: with success true
    the name is there and ends in [.pdf], with success false it is
    [None]. *)
Theorem output_name_iff_success config env content filename :
  output_iff_success (Converter.convert_to_pdf config env content filename) ∧
  output_iff_success (Converter.convert_to_pdf_async config env content filename).
Proof.
  split; [apply convert_to_pdf_output | apply convert_to_pdf_async_output].
Qed.

(** ** Staged names *)

Example staged_report :
  staged_name (env_exit 0 true) "dir/report.docx"
  = "report_123e4567-e89b-42d3-a456-426614174000.docx".
Proof. reflexivity. Qed.

Example predicted_report :
  predicted_name (env_exit 0 true) "dir/report.docx"
  = "report_123e4567-e89b-42d3-a456-426614174000.pdf".
Proof. reflexivity. Qed.

Example staged_trailing_dot :
  staged_name (env_exit 0 true) "report."
  = "report._123e4567-e89b-42d3-a456-426614174000".
Proof. reflexivity. Qed.

Example predicted_trailing_dot :
  predicted_name (env_exit 0 true) "report." = "report.pdf".
Proof. reflexivity. Qed.

(** C9, as stated, fails for a name that ends in a dot: [report.] has
    the stem [report.] and no extension, the staged name is the stem, an
    underscore and the token, and its stem, cut at the dot, is [report]:
    the predicted output is [report.pdf], without the token. *)
Lemma trailing_dot_loses_token :
  ¬ names_as_specified (env_exit 0 true) "report.".
Proof. intros [_ H]. vm_compute in H. discriminate H. Qed.

(** C9, amended.  For every original file name whose final component
    does not end in a dot (every name that passes the extension
    allow-list of the endpoints is one) and every token [uuid4] draws,
    the staged name is the original stem, an underscore, the token and
    the original extension, and the predicted output name is the same
    stem and token with [.pdf]; both conversion attempts write the
    staged name, look up the predicted name in the output directory
    without listing it, and return that name. *)
Theorem staged_and_predicted_names config env content filename :
  uuid_shaped (uuid4 env) = true →
  Pathlib.ends_with_dot (Pathlib.name filename) = false →
  names_as_specified env filename ∧
  names_used config env filename (Converter.convert_to_pdf config env content filename) ∧
  names_used config env filename (Converter.convert_to_pdf_async config env content filename).
Proof.
  intros Htok Hend. split; [split; [done|]|].
  - unfold predicted_name, staged_name, Converter._generate_unique_filename.
    rewrite stem_staged;
      auto using uuid_shaped_no_dot, uuid_shaped_no_slash.
    by rewrite !str_app_assoc.
  - split; [apply convert_to_pdf_names | apply convert_to_pdf_async_names].
Qed.

Lemma staged_and_predicted_names_witness :
  uuid_shaped (uuid4 (env_exit 0 true)) = true ∧
  Pathlib.ends_with_dot (Pathlib.name "report.docx") = false ∧
  names_as_specified (env_exit 0 true) "report.docx" ∧
  names_used default_config (env_exit 0 true) "report.docx"
    (Converter.convert_to_pdf default_config (env_exit 0 true) sample_content "report.docx") ∧
  names_used default_config (env_exit 0 true) "report.docx"
    (Converter.convert_to_pdf_async default_config (env_exit 0 true)
       sample_content "report.docx").
Proof.
  split; [reflexivity|]. split; [reflexivity|].
  apply (staged_and_predicted_names default_config (env_exit 0 true)
           sample_content "report.docx"); reflexivity.
Defined.

(** Every name the endpoints let through has an extension, hence no
    trailing dot. *)
Lemma allowed_extension_no_trailing_dot filename :
  str_lower (Pathlib.suffix filename) ∈ Main.allowed_extensions →
  Pathlib.ends_with_dot (Pathlib.name filename) = false.
Proof.
  unfold Pathlib.suffix, Pathlib.ends_with_dot, Pathlib.splits_at.
  destruct (Pathlib.rfind Pathlib.dot (Pathlib.name filename)) as [i|]; [|done].
  destruct (0 <? i)%nat; simpl; [|done].
  destruct (Nat.ltb_spec i (String.length (Pathlib.name filename) - 1)) as [Hlt|Hge].
  - intros _. apply Nat.eqb_neq. lia.
  - simpl. intros H. exfalso. revert H. unfold Main.allowed_extensions.
    rewrite !elem_of_cons, elem_of_nil. intuition discriminate.
Qed.

(** ** Submission and the background call *)

Example sync_endpoint_success :
  result_of (Main.convert_sync default_config (env_exit 0 true) sample_upload)
  = Return {| Main.success := true;
              Main.message := "Conversion completed successfully";
              Main.task_id := None;
              Main.download_url :=
                Some "/download/report_123e4567-e89b-42d3-a456-426614174000.pdf";
              Main.filename := Some "report_123e4567-e89b-42d3-a456-426614174000.pdf" |}.
Proof. reflexivity. Qed.

Example sync_endpoint_empty :
  Main.convert_sync default_config (env_exit 0 true) empty_upload
  = ([], Raise (HTTPException 400 "Empty file")).
Proof. reflexivity. Qed.

Example sample_run_history :
  Main.status_history sample_uuid (Main.run default_config sample_run Main.initial_state)
  = [Main.processing; Main.processing; Main.completed; Main.completed].
Proof. vm_compute. reflexivity. Qed.

(** C6.  A submission whose content has length zero is rejected by the
    immediate and by the deferred endpoint with the status 400 of a
    precondition failure (a conversion failure is a 500); nothing is
    staged and the external binary is not launched; the deferred
    endpoint leaves the state as it was, so no task is registered and no
    background call is scheduled for the request. *)
Theorem empty_upload_rejected config env file st :
  Main.upload_content file = [] →
  (∃ detail, result_of (Main.convert_sync config env file)
             = Raise (HTTPException 400 detail)) ∧
  existsb is_staging (trace_of (Main.convert_sync config env file)) = false ∧
  existsb is_invocation (trace_of (Main.convert_sync config env file)) = false ∧
  ∃ detail t,
    Main.convert_async env file st = (st, (t, Raise (HTTPException 400 detail))) ∧
    existsb is_staging t = false ∧
    existsb is_invocation t = false.
Proof.
  intros Hempty.
  unfold Main.convert_sync, Main.convert_async, Main.app_try_except, Main.lift,
    Main.endpoint_handler, Main.Path, Main.received, try_except, raise, of_result,
    result_of, trace_of, mbind, Main.App_bind, Eff_bind.
  simpl. rewrite Hempty. simpl.
  destruct (negb _); simpl; eauto 10.
Qed.

Lemma empty_upload_rejected_witness :
  Main.upload_content empty_upload = [] ∧
  (∃ detail, result_of (Main.convert_sync default_config (env_exit 0 true) empty_upload)
             = Raise (HTTPException 400 detail)) ∧
  existsb is_staging
    (trace_of (Main.convert_sync default_config (env_exit 0 true) empty_upload)) = false ∧
  existsb is_invocation
    (trace_of (Main.convert_sync default_config (env_exit 0 true) empty_upload)) = false ∧
  ∃ detail t,
    Main.convert_async (env_exit 0 true) empty_upload Main.initial_state
      = (Main.initial_state, (t, Raise (HTTPException 400 detail))) ∧
    existsb is_staging t = false ∧
    existsb is_invocation t = false.
Proof.
  split; [reflexivity|].
  apply (empty_upload_rejected default_config (env_exit 0 true) empty_upload
           Main.initial_state).
  reflexivity.
Defined.

(** C5, as stated, fails: called for a task that is not in the
    dictionary, the background call converts the file and then raises
    [KeyError], in its body and again in its handler, where it reads the
    creation time of the task. *)
Lemma absent_task_raises :
  ¬ absent_is_logged_noop default_config (env_exit 0 true) "no-such-task"
      sample_content "report.docx" Main.initial_state.
Proof.
  intros H. destruct (H eq_refl) as (t & Hrun & _).
  vm_compute in Hrun. discriminate Hrun.
Qed.

(** C5, amended.  The background call never raises for a task that is in
    the dictionary, which is where the deferred endpoint puts it before
    it schedules the call: it returns and leaves the task completed or
    failed with its creation time kept.  For a task that is not in the
    dictionary the state is left as it was and the error is logged, but
    the call does not return: the [KeyError] of the look-up leaves it. *)
Theorem background_call_outcome config env id content name st :
  match Main.async_tasks st !! id with
  | Some old =>
      ∃ t s msg out,
        s ≠ Main.processing ∧
        Main.process_async_conversion config env id content name st =
          (Main.AppState (<[id := Main.Task s msg out (Main.created_at old)]>
                            (Main.async_tasks st))
                         (Main.background_tasks st),
           (t, Return tt))
  | None =>
      ∃ t,
        Main.process_async_conversion config env id content name st
          = (st, (t, Raise (KeyError id))) ∧
        existsb (is_log ERROR) t = true
  end.
Proof.
  destruct (Main.async_tasks st !! id) as [old|] eqn:Hid.
  - by apply process_async_conversion_present.
  - destruct (process_async_conversion_absent config env id content name st Hid)
      as (t & Hrun & Hlog & _). eauto.
Qed.

(** C2.  In every run of the application from its initial state, made of
    submissions, status queries and the background calls the framework
    runs, with the task identifiers drawn for the submissions pairwise
    distinct, the statuses a task goes through from the state where it
    first exists are a run of Processing followed by a run of one
    status, Completed or Failed: the task starts as Processing, its
    status changes at most once, and neither does a task come back to
    Processing nor does a Completed or Failed task change again. *)
Theorem task_status_lifecycle config ops id :
  NoDup (Main.drawn_ids ops) →
  ∃ n m t,
    t ≠ Main.processing ∧
    (n = 0%nat → m = 0%nat) ∧
    Main.status_history id (Main.run config ops Main.initial_state)
      = replicate n Main.processing ++ replicate m t.
Proof.
  intros Hnd. apply lifecycle_new.
  apply (run_lifecycle config id ops Main.initial_state initial_consistent).
  split; [done|]. intros x _. apply lookup_empty.
Qed.

Lemma task_status_lifecycle_witness :
  NoDup (Main.drawn_ids sample_run) ∧
  ∃ n m t,
    t ≠ Main.processing ∧
    (n = 0%nat → m = 0%nat) ∧
    Main.status_history sample_uuid (Main.run default_config sample_run Main.initial_state)
      = replicate n Main.processing ++ replicate m t.
Proof.
  assert (NoDup (Main.drawn_ids sample_run)) as Hnd.
  { vm_compute. apply NoDup_singleton. }
  split; [exact Hnd|].
  apply (task_status_lifecycle default_config sample_run sample_uuid Hnd).
Defined.

(** ** Retention sweeper *)

Example sweep_deletes_old_keeps_recent :
  (Cleanup.cleanup_expired_files default_config two_o_clock
     (staging [old_file; recent_file] [])).1
  = Return {| Cleanup.timestamp := 2 * hour;
              Cleanup.deleted_uploads := 1;
              Cleanup.deleted_outputs := 0;
              Cleanup.total_deleted := 1;
              Cleanup.upload_files := ["uploads/old_123e.docx"];
              Cleanup.output_files := [] |}.
Proof. vm_compute. reflexivity. Qed.

Example sweep_keeps_locked :
  Cleanup.entries <$>
    (Cleanup.fs (Cleanup.cleanup_expired_files default_config two_o_clock
                   (staging [] [locked_file])).2 !! "outputs")
  = Some [locked_file].
Proof. vm_compute. reflexivity. Qed.

(** C7, as stated, fails for an old file whose removal fails: the error
    of [unlink] is caught and logged, and the file is still in its
    staging area after the sweep. *)
Lemma locked_file_survives_sweep :
  ¬ Cleanup.deletes_every_expired default_config two_o_clock (staging [] [locked_file]).
Proof.
  intros H.
  destruct (Cleanup.cleanup_expired_files default_config two_o_clock
              (staging [] [locked_file])) as [[r|x] w'] eqn:Hsweep;
    [|vm_compute in Hsweep; discriminate Hsweep].
  assert (Cleanup.fs w' !! "outputs" = Some (plain_directory [locked_file])) as Hd'.
  { vm_compute in Hsweep. injection Hsweep as _ <-. vm_compute. reflexivity. }
  refine (H r w' "outputs" (plain_directory [locked_file]) locked_file 0
            Hsweep _ _ _ _ _ _ _ Hd' _).
  - by right.
  - reflexivity.
  - by left.
  - reflexivity.
  - reflexivity.
  - intros k. reflexivity.
  - by left.
Qed.

(** C7, amended.  After a sweep that returns, for every entry of either
    staging area with a modification time: if that time is not older
    than the clock less the expiry (in hours) at any reading, the entry
    is still there; if it is older at every reading, the entry is a
    regular file whose removal does not fail, and the listing of its
    directory can be scanned to the end, then the entry is gone and its
    path is in the report.  A failed removal is logged and the file
    stays. *)
Theorem sweep_retention config clock w r w' area d e m :
  Cleanup.cleanup_expired_files config clock w = (Return r, w') →
  area = Cleanup.upload_dir config ∨ area = Cleanup.output_dir config →
  Cleanup.fs w !! area = Some d →
  In e (Cleanup.entries d) →
  Cleanup.st_mtime e = Return m →
  ∃ d', Cleanup.fs w' !! area = Some d' ∧
    ((∀ k, clock k - Cleanup.expiry config ≤ m) → In e (Cleanup.entries d')) ∧
    ((∀ k, m < clock k - Cleanup.expiry config) →
     Cleanup.removable e → Cleanup.scannable d →
     ¬ In e (Cleanup.entries d') ∧
     In (Pathlib.joinpath area (Cleanup.entry_name e))
        (Cleanup.upload_files r ++ Cleanup.output_files r)) ∧
    (∀ x, Cleanup.unlink e = Some x →
       In e (Cleanup.entries d') ∧
       ((∀ k, m < clock k - Cleanup.expiry config) →
        Cleanup.is_file e = Return true → Cleanup.scannable d →
        In (EvLog ERROR ("Error deleting file "
                           +:+ Pathlib.joinpath area (Cleanup.entry_name e)
                           +:+ ": " +:+ str_exn x))
           (Cleanup.logged w'))).
Proof.
  rewrite sweep_unfold. simpl.
  set (w0 := Cleanup.log (EvLog INFO "Starting file cleanup process") w).
  set (up := Cleanup._cleanup_directory config clock (Cleanup.upload_dir config) w0).
  destruct (up.1) as [uploads|x] eqn:Hup; simpl; [|done].
  set (out := Cleanup._cleanup_directory config clock (Cleanup.output_dir config) up.2).
  destruct (out.1) as [outputs|x] eqn:Hout; simpl; [|done].
  intros [= Hr Hw'] Harea Hd He Hm. subst r w'. simpl.
  (* the entries of the area after the pass over the uploads ... *)
  destruct (pass_effect config clock (Cleanup.upload_dir config) w0 area d Hd)
    as (d1 & Hd1 & Hsub1 & Hkeep1 & Hdel1). fold up in Hd1, Hdel1.
  (* ... and after the pass over the outputs *)
  destruct (pass_effect config clock (Cleanup.output_dir config) up.2 area d1 Hd1)
    as (d2 & Hd2 & Hsub2 & Hkeep2 & Hdel2). fold out in Hd2, Hdel2.
  exists d2. split; [done|]. split; [|split].
  - (* a recent entry is kept by both passes *)
    intros Hnew.
    assert (∀ m', Cleanup.st_mtime e = Return m' →
                  ∀ k, (m' <? clock k - Cleanup.expiry config) = false) as Hnew'.
    { intros m' Hm' k. rewrite Hm in Hm'. injection Hm' as <-.
      apply Z.ltb_ge, Hnew. }
    auto.
  - (* an old entry is removed by the pass over its own area *)
    intros Hold Hrem Hscan.
    destruct (decide (area = Cleanup.upload_dir config)) as [->|Hne].
    + destruct (Hdel1 eq_refl Hscan uploads Hup e m He Hrem Hm Hold) as [Hgone Hlisted].
      split; [auto|]. apply in_or_app. by left.
    + destruct Harea as [?| ->]; [done|].
      assert (d1 = d) as ->.
      { unfold up in Hd1. rewrite pass_other in Hd1 by done.
        unfold w0 in Hd1. rewrite log_fs, Hd in Hd1. congruence. }
      destruct (Hdel2 eq_refl Hscan outputs Hout e m He Hrem Hm Hold) as [Hgone Hlisted].
      split; [done|]. apply in_or_app. by right.
  - (* an entry whose removal fails is kept, and the failure is logged *)
    intros x Hux. split.
    + destruct (pass_keeps_unremovable config clock (Cleanup.upload_dir config) w0
                  area d e x Hd He Hux) as (d1' & Hd1' & He1).
      fold up in Hd1'. rewrite Hd1 in Hd1'. injection Hd1' as <-.
      destruct (pass_keeps_unremovable config clock (Cleanup.output_dir config) up.2
                  area d1 e x Hd1 He1 Hux) as (d2' & Hd2' & He2).
      fold out in Hd2'. rewrite Hd2 in Hd2'. by injection Hd2' as <-.
    + intros Hold Hfile Hscan. apply in_or_app. left.
      destruct (pass_log_ticks config clock (Cleanup.output_dir config) up.2)
        as [_ [rest Hrest]]. fold out in Hrest.
      destruct (decide (area = Cleanup.upload_dir config)) as [->|Hne].
      * rewrite Hrest. apply in_or_app. left.
        by apply (pass_logs_failure config clock (Cleanup.upload_dir config) w0
                    d e m x uploads).
      * destruct Harea as [?| ->]; [done|].
        assert (d1 = d) as ->.
        { unfold up in Hd1. rewrite pass_other in Hd1 by done.
          unfold w0 in Hd1. rewrite log_fs, Hd in Hd1. congruence. }
        by apply (pass_logs_failure config clock (Cleanup.output_dir config) up.2
                    d e m x outputs).
Qed.

Lemma sweep_retention_witness :
  ∃ r w',
    Cleanup.cleanup_expired_files default_config two_o_clock
      (staging [old_file; recent_file] []) = (Return r, w') ∧
    Cleanup.fs (staging [old_file; recent_file] []) !! "uploads"
      = Some (plain_directory [old_file; recent_file]) ∧
    In old_file (Cleanup.entries (plain_directory [old_file; recent_file])) ∧
    Cleanup.st_mtime old_file = Return 0 ∧
    ∃ d', Cleanup.fs w' !! "uploads" = Some d' ∧
      ((∀ k, two_o_clock k - Cleanup.expiry default_config ≤ 0) →
       In old_file (Cleanup.entries d')) ∧
      ((∀ k, 0 < two_o_clock k - Cleanup.expiry default_config) →
       Cleanup.removable old_file →
       Cleanup.scannable (plain_directory [old_file; recent_file]) →
       ¬ In old_file (Cleanup.entries d') ∧
       In (Pathlib.joinpath "uploads" (Cleanup.entry_name old_file))
          (Cleanup.upload_files r ++ Cleanup.output_files r)) ∧
      (∀ x, Cleanup.unlink old_file = Some x →
         In old_file (Cleanup.entries d') ∧
         ((∀ k, 0 < two_o_clock k - Cleanup.expiry default_config) →
          Cleanup.is_file old_file = Return true →
          Cleanup.scannable (plain_directory [old_file; recent_file]) →
          In (EvLog ERROR ("Error deleting file "
                             +:+ Pathlib.joinpath "uploads" (Cleanup.entry_name old_file)
                             +:+ ": " +:+ str_exn x))
             (Cleanup.logged w'))).
Proof.
  eexists _, _. split; [vm_compute; reflexivity|].
  split; [reflexivity|]. split; [left; reflexivity|]. split; [reflexivity|].
  apply (sweep_retention default_config two_o_clock
           (staging [old_file; recent_file] [])
           _ _ "uploads" (plain_directory [old_file; recent_file]) old_file 0).
  - vm_compute. reflexivity.
  - left. reflexivity.
  - reflexivity.
  - left. reflexivity.
  - reflexivity.
Defined.

Example sweep_keeps_edge_file :
  (Cleanup.cleanup_expired_files default_config ticking (staging [edge_file] [])).1
  = Return {| Cleanup.timestamp := 2 * hour + 1;
              Cleanup.deleted_uploads := 0;
              Cleanup.deleted_outputs := 0;
              Cleanup.total_deleted := 0;
              Cleanup.upload_files := [];
              Cleanup.output_files := [] |}.
Proof. vm_compute. reflexivity. Qed.

(** C8, as stated, fails for a file that passes its expiry between the
    two sweeps.  Every check of a file reads the clock anew; with a
    clock that advances by a microsecond a reading, a file exactly one
    hour old at the first reading is kept by the first sweep, which
    reports no deletion, and is deleted by the second, run right after
    it with nothing added or modified in between. *)
Lemma second_sweep_deletes_edge_file :
  ¬ Cleanup.second_sweep_reports_nothing default_config ticking (staging [edge_file] []).
Proof.
  intros H.
  destruct (Cleanup.cleanup_expired_files default_config ticking (staging [edge_file] []))
    as [[r1|x] w1] eqn:Hfirst; [|vm_compute in Hfirst; discriminate Hfirst].
  destruct (Cleanup.cleanup_expired_files default_config ticking w1)
    as [[r2|x] w2] eqn:Hsecond.
  - destruct (H r1 w1 r2 w2 Hfirst Hsecond) as (_ & _ & Htotal).
    vm_compute in Hfirst. injection Hfirst as _ <-.
    vm_compute in Hsecond. injection Hsecond as <- _.
    discriminate Htotal.
  - vm_compute in Hfirst. injection Hfirst as _ <-.
    vm_compute in Hsecond. discriminate Hsecond.
Qed.

(** C8, amended.  Whatever the two staging areas hold, when a sweep is
    run twice in immediate succession, nothing touching the areas in
    between, and no file passes its expiry between the first reading of
    the clock by the first sweep and the last by the second, the second
    sweep changes no directory and, when the first sweep returned a
    report, returns a report whose deletion counts are all zero and
    whose lists of deleted paths are empty. *)
Theorem second_sweep_deletes_nothing config clock w :
  Cleanup.steady config clock w →
  Cleanup.fs (Cleanup.cleanup_expired_files config clock
                (Cleanup.cleanup_expired_files config clock w).2).2
    = Cleanup.fs (Cleanup.cleanup_expired_files config clock w).2 ∧
  ∀ r1, (Cleanup.cleanup_expired_files config clock w).1 = Return r1 →
    ∃ r2,
      (Cleanup.cleanup_expired_files config clock
         (Cleanup.cleanup_expired_files config clock w).2).1 = Return r2 ∧
      Cleanup.deleted_uploads r2 = 0%nat ∧
      Cleanup.deleted_outputs r2 = 0%nat ∧
      Cleanup.total_deleted r2 = 0%nat ∧
      Cleanup.upload_files r2 = [] ∧
      Cleanup.output_files r2 = [].
Proof.
  intros Hsteady.
  destruct (sweep_again config clock w _ Hsteady (le_n _)) as [Hfs Hout].
  split; [done|]. intros r1 Hr1. rewrite Hr1 in Hout.
  destruct Hout as (r2 & Hr2 & Hup & Hdown). exists r2. split; [done|].
  pose proof Hr2 as Hshape. rewrite sweep_unfold in Hshape. simpl in Hshape.
  repeat match type of Hshape with
         | context [match ?o with Return _ => _ | Raise _ => _ end] =>
             destruct o; simpl in Hshape; [|discriminate Hshape]
         end.
  injection Hshape as <-. simpl in *. by rewrite Hup, Hdown.
Qed.

Lemma second_sweep_deletes_nothing_witness :
  Cleanup.steady default_config ticking (staging [old_file; recent_file] [locked_file]) ∧
  Cleanup.fs (Cleanup.cleanup_expired_files default_config ticking
                (Cleanup.cleanup_expired_files default_config ticking
                   (staging [old_file; recent_file] [locked_file])).2).2
    = Cleanup.fs (Cleanup.cleanup_expired_files default_config ticking
                    (staging [old_file; recent_file] [locked_file])).2 ∧
  ∀ r1, (Cleanup.cleanup_expired_files default_config ticking
           (staging [old_file; recent_file] [locked_file])).1 = Return r1 →
    ∃ r2,
      (Cleanup.cleanup_expired_files default_config ticking
         (Cleanup.cleanup_expired_files default_config ticking
            (staging [old_file; recent_file] [locked_file])).2).1 = Return r2 ∧
      Cleanup.deleted_uploads r2 = 0%nat ∧
      Cleanup.deleted_outputs r2 = 0%nat ∧
      Cleanup.total_deleted r2 = 0%nat ∧
      Cleanup.upload_files r2 = [] ∧
      Cleanup.output_files r2 = [].
Proof.
  assert (Cleanup.steady default_config ticking
            (staging [old_file; recent_file] [locked_file])) as Hsteady.
  { unfold Cleanup.steady.
    assert (Cleanup.ticks
              (Cleanup.cleanup_expired_files default_config ticking
                 (Cleanup.cleanup_expired_files default_config ticking
                    (staging [old_file; recent_file] [locked_file])).2).2 = 7%nat) as ->
      by (vm_compute; reflexivity).
    intros area d Harea Hd e m k He Hm Hk.
    assert (k < 7)%nat as Hk7 by (simpl in Hk; lia). clear Hk.
    destruct Harea as [-> | ->]; vm_compute in Hd; injection Hd as <-;
      simpl in He; repeat (destruct He as [<-|He]; [injection Hm as <-|]); try done;
      do 7 (destruct k as [|k]; [vm_compute; reflexivity|]); lia. }
  split; [exact Hsteady|].
  apply (second_sweep_deletes_nothing default_config ticking
           (staging [old_file; recent_file] [locked_file]) Hsteady).
Defined.

(** The two sweeps of the witness: the first deletes the old upload, the
    second nothing. *)
Example two_sweeps_in_a_row :
  Cleanup.sweep_totals
    (Cleanup.started_loop default_config two_o_clock [Cleanup.Elapsed] stopped
       (staging [old_file; recent_file] [locked_file])).1
  = [1%nat; 0%nat].
Proof. vm_compute. reflexivity. Qed.

Example loop_trace_kinds :
  (Cleanup.started_loop default_config two_o_clock [] stopped (staging [old_file] [])).1
  = [Cleanup.LoopSweep
       (Return {| Cleanup.timestamp := 2 * hour;
                  Cleanup.deleted_uploads := 1;
                  Cleanup.deleted_outputs := 0;
                  Cleanup.total_deleted := 1;
                  Cleanup.upload_files := ["uploads/old_123e.docx"];
                  Cleanup.output_files := [] |});
     Cleanup.LoopSleep 1800].
Proof. vm_compute. reflexivity. Qed.

(** C4, as stated, fails: the loop sweeps before it sleeps, so the first
    sweep of a started sweeper, which here deletes an old upload, comes
    after no sleep at all, not after the interval of 1800 seconds. *)
Lemma first_sweep_is_not_delayed :
  ¬ Cleanup.first_sweep_after_interval default_config two_o_clock
      [Cleanup.Elapsed] stopped (staging [old_file] []).
Proof.
  intros H. specialize (H 0). vm_compute in H.
  apply H; reflexivity.
Qed.

(** C4, amended.  When clean-up is enabled and the service is not yet
    running, the loop task of a started sweeper begins with a sweep: no
    sleep comes before the first sweep.  From there the trace is a
    sequence of passes, each a sweep followed by one sleep, of the
    configured interval after a sweep that returned and of 60 seconds
    after one that raised, until the task is cancelled; after [n] sleeps
    that ran their time there have been [n + 1] sweeps. *)
Theorem first_sweep_is_immediate config clock wakes s w :
  ENABLE_CLEANUP config = true →
  Cleanup.is_running s = false →
  (∃ o rest,
     (Cleanup.started_loop config clock wakes s w).1 = Cleanup.LoopSweep o :: rest) ∧
  Cleanup.slept_before_first_sweep (Cleanup.started_loop config clock wakes s w).1
    = Some 0 ∧
  Cleanup.paced (CLEANUP_INTERVAL_MINUTES config * 60)
    (Cleanup.started_loop config clock wakes s w).1 ∧
  (∀ n, wakes = replicate n Cleanup.Elapsed →
        length (List.filter Cleanup.is_sweep
                  (Cleanup.started_loop config clock wakes s w).1) = S n).
Proof.
  intros Hen Hrun.
  assert ((Cleanup.started_loop config clock wakes s w)
          = Cleanup._cleanup_loop config clock wakes true w) as ->.
  { unfold Cleanup.started_loop, Cleanup.creates_task, Cleanup.start_cleanup_service.
    by rewrite Hen, Hrun. }
  destruct (_cleanup_loop_first config clock wakes w Hen) as (o & rest & Hfirst).
  split; [eauto|]. split; [by rewrite Hfirst|].
  split; [by apply _cleanup_loop_paced|].
  intros n ->. by apply _cleanup_loop_sweeps.
Qed.

Lemma first_sweep_is_immediate_witness :
  ENABLE_CLEANUP default_config = true ∧
  Cleanup.is_running stopped = false ∧
  (∃ o rest,
     (Cleanup.started_loop default_config two_o_clock [Cleanup.Elapsed] stopped
        (staging [old_file] [])).1 = Cleanup.LoopSweep o :: rest) ∧
  Cleanup.slept_before_first_sweep
    (Cleanup.started_loop default_config two_o_clock [Cleanup.Elapsed] stopped
       (staging [old_file] [])).1 = Some 0 ∧
  Cleanup.paced (CLEANUP_INTERVAL_MINUTES default_config * 60)
    (Cleanup.started_loop default_config two_o_clock [Cleanup.Elapsed] stopped
       (staging [old_file] [])).1 ∧
  (∀ n, [Cleanup.Elapsed] = replicate n Cleanup.Elapsed →
        length (List.filter Cleanup.is_sweep
                  (Cleanup.started_loop default_config two_o_clock [Cleanup.Elapsed]
                     stopped (staging [old_file] [])).1) = S n).
Proof.
  split; [reflexivity|]. split; [reflexivity|].
  apply (first_sweep_is_immediate default_config two_o_clock [Cleanup.Elapsed] stopped
           (staging [old_file] [])); reflexivity.
Defined.

(* ===================================================================== *)
(** * Further properties of the code                                      *)
(* ===================================================================== *)

(** ** converter.py: the two conversion attempts *)

Section converter_more.
Import Converter.
Variable config : Config.
Variable env : Env.

Ltac unfold_attempt :=
  unfold stages_then_launches, launches_as_configured, occurrences,
    predicted_path, predicted_name, staged_name,
    convert_to_pdf, convert_to_pdf_async, _run_soffice_command,
    wait_for_communicate, write_file, run, spawn, kill, exists_,
    logger_info, logger_error, emit, raise, of_result, try_except,
    result_of, trace_of.

Ltac blocking_cases :=
  unfold_attempt;
  destruct (open_write env _ _) as [ew|]; simpl;
  [| destruct (subprocess_run env _ _) as [rc so se|[]|rc ms]; simpl;
     [destruct (rc =? 0) eqn:Hrc; simpl;
      [destruct (path_exists env _) as [[|]|ee]; simpl|] | ..]].

Ltac awaitable_cases :=
  unfold_attempt;
  destruct (open_write env _ _) as [ew|]; simpl;
  [| destruct (create_subprocess_exec env _) as [es|]; simpl;
     [| destruct (communicate env _ _) as [rc so [se|de]|[]]; simpl;
        [destruct (rc =? 0) eqn:Hrc; simpl;
         [destruct (path_exists env _) as [[|]|ee]; simpl|]
        |destruct (rc =? 0) eqn:Hrc; simpl;
         [destruct (path_exists env _) as [[|]|ee]; simpl|]
        |..]]];
  try match goal with
      | |- context [process_kill env] =>
          destruct (process_kill env) as [ek|]; simpl
      end.

Lemma convert_to_pdf_stages content filename :
  stages_then_launches
    (Pathlib.joinpath (upload_dir config) (staged_name env filename)) content
    (convert_to_pdf config env content filename).
Proof. blocking_cases; do 2 eexists; (split; [reflexivity|]); split; done. Qed.

Lemma convert_to_pdf_async_stages content filename :
  stages_then_launches
    (Pathlib.joinpath (upload_dir config) (staged_name env filename)) content
    (convert_to_pdf_async config env content filename).
Proof. awaitable_cases; do 2 eexists; (split; [reflexivity|]); split; done. Qed.

(** X3.  The blocking attempt launches the external process at most
    once, with the configured binary, the fixed options, the output
    directory and the staged input as its command line and the
    configured time limit; it never spawns, awaits or kills a process. *)
Lemma convert_to_pdf_launch content filename :
  Forall (launches_as_configured config env filename)
    (trace_of (convert_to_pdf config env content filename)) ∧
  (occurrences is_run (trace_of (convert_to_pdf config env content filename)) ≤ 1)%nat ∧
  occurrences is_spawn (trace_of (convert_to_pdf config env content filename)) = 0%nat ∧
  occurrences is_communicate (trace_of (convert_to_pdf config env content filename)) = 0%nat ∧
  occurrences is_kill (trace_of (convert_to_pdf config env content filename)) = 0%nat.
Proof.
  blocking_cases; (split; [repeat constructor|]); repeat split; simpl; lia.
Qed.

(** X4.  The awaitable attempt spawns at most one process, with the same
    command line, and waits for it at most once, under the configured
    time limit; it never runs the blocking call, and it kills the
    process exactly when the wait timed out. *)
Lemma convert_to_pdf_async_launch content filename :
  Forall (launches_as_configured config env filename)
    (trace_of (convert_to_pdf_async config env content filename)) ∧
  occurrences is_run (trace_of (convert_to_pdf_async config env content filename)) = 0%nat ∧
  (occurrences is_spawn (trace_of (convert_to_pdf_async config env content filename)) ≤ 1)%nat ∧
  (occurrences is_communicate
     (trace_of (convert_to_pdf_async config env content filename)) ≤ 1)%nat ∧
  existsb is_kill (trace_of (convert_to_pdf_async config env content filename))
    = existsb is_wait_timeout (trace_of (convert_to_pdf_async config env content filename)).
Proof.
  awaitable_cases; (split; [repeat constructor|]); repeat split; simpl; lia.
Qed.

(** What the blocking attempt returns, answer by answer of the
    environment. *)
Lemma convert_to_pdf_result content filename :
  result_of (convert_to_pdf config env content filename) =
  match open_write env
          (Pathlib.joinpath (upload_dir config) (staged_name env filename)) content with
  | Some e => Return (false, "Error during conversion: " +:+ str_exn e, None)
  | None =>
      match subprocess_run env
              (soffice_cmd config
                 (Pathlib.joinpath (upload_dir config) (staged_name env filename))
                 (output_dir config))
              (CONVERSION_TIMEOUT config) with
      | Completed rc _ stderr =>
          if rc =? 0 then
            match path_exists env (predicted_path config env filename) with
            | Return true =>
                Return (true, "Conversion completed successfully",
                        Some (predicted_name env filename))
            | Return false => Return (false, NOT_FOUND_MESSAGE, None)
            | Raise e => Return (false, "Error during conversion: " +:+ str_exn e, None)
            end
          else Return (false, "Conversion failed: " +:+ stderr, None)
      | RunRaises (TimeoutExpired _) =>
          Return (false, "Conversion timeout after "
                           +:+ pretty (CONVERSION_TIMEOUT config) +:+ " seconds", None)
      | RunRaises (FileNotFoundError _) =>
          Return (false, "LibreOffice not found at " +:+ SOFFICE_PATH config, None)
      | RunRaises e =>
          Return (false, "Unexpected error during conversion: " +:+ str_exn e, None)
      | Undecodable _ msg =>
          Return (false, "Unexpected error during conversion: " +:+ msg, None)
      end
  end.
Proof. unfold NOT_FOUND_MESSAGE. blocking_cases; reflexivity. Qed.

(** What the awaitable attempt returns, answer by answer of the
    environment. *)
Lemma convert_to_pdf_async_result content filename :
  result_of (convert_to_pdf_async config env content filename) =
  let failed e := Return (false, "Error during async conversion: " +:+ str_exn e, None) in
  match open_write env
          (Pathlib.joinpath (upload_dir config) (staged_name env filename)) content with
  | Some e => failed e
  | None =>
      match create_subprocess_exec env
              (soffice_cmd config
                 (Pathlib.joinpath (upload_dir config) (staged_name env filename))
                 (output_dir config)) with
      | Some e => failed e
      | None =>
          match communicate env
                  (soffice_cmd config
                     (Pathlib.joinpath (upload_dir config) (staged_name env filename))
                     (output_dir config))
                  (CONVERSION_TIMEOUT config) with
          | Communicated rc _ stderr_decode =>
              if rc =? 0 then
                match path_exists env (predicted_path config env filename) with
                | Return true =>
                    Return (true, "Conversion completed successfully",
                            Some (predicted_name env filename))
                | Return false => Return (false, NOT_FOUND_MESSAGE, None)
                | Raise e => failed e
                end
              else
                match stderr_decode with
                | Return stderr =>
                    Return (false, "Async conversion failed: " +:+ stderr, None)
                | Raise e => failed e
                end
          | CommRaises (AsyncTimeoutError _) =>
              match process_kill env with
              | None =>
                  Return (false, "Conversion timeout after "
                                   +:+ pretty (CONVERSION_TIMEOUT config) +:+ " seconds",
                          None)
              | Some e => failed e
              end
          | CommRaises e => failed e
          end
      end
  end.
Proof. unfold NOT_FOUND_MESSAGE. awaitable_cases; reflexivity. Qed.

(** X5.  When the blocking call and the awaitable calls describe one run
    of the external process, the two attempts return the same verdict
    and the same output name, with one exception: a process that exits
    with zero and leaves the predicted file, but prints what the
    blocking call cannot decode, is a failure of the blocking attempt
    and a success of the awaitable one.  When moreover the standard
    error stream reads the same in both and a process that outlived the
    time limit can be killed, the two messages say the same. *)
Lemma attempts_compared content filename :
  same_run config env filename →
  ∃ ok message output ok' message' output',
    result_of (convert_to_pdf config env content filename) = Return (ok, message, output) ∧
    result_of (convert_to_pdf_async config env content filename)
      = Return (ok', message', output') ∧
    (spoiled config env content filename ∧ ok = false ∧ ok' = true ∨
     ¬ spoiled config env content filename ∧ ok = ok' ∧ output = output') ∧
    (same_process config env filename → same_report message message').
Proof.
  rewrite convert_to_pdf_result, convert_to_pdf_async_result.
  unfold same_run, same_process, spoiled, same_report, NOT_FOUND_MESSAGE. simpl.
  intros Hrun.
  destruct (open_write env _ _) as [ew|] eqn:Hw; simpl.
  { do 6 eexists. split; [reflexivity|]. split; [reflexivity|].
    split; [right; split; [by intros (? & _)|done]|eauto]. }
  destruct (subprocess_run env _ _) as [rc so se|e|rc ms] eqn:Hr;
    destruct (create_subprocess_exec env _) as [es|] eqn:Hs; simpl in *.
  all: try (destruct e; try done).
  all: try match goal with
           | H : context [communicate env ?c ?t] |- _ =>
               destruct (communicate env c t) as [rc' so' d|e'] eqn:Hc; simpl in *
           end.
  all: try done.
  all: try (destruct e'; try done).
  all: subst.
  all: try (destruct (rc' =? 0) eqn:Hrc; simpl;
            [apply Z.eqb_eq in Hrc; subst;
             destruct (path_exists env _) as [[|]|ee] eqn:Hex; simpl|]).
  all: try match goal with
           | |- context [process_kill env] =>
               destruct (process_kill env) as [ek|] eqn:Hk; simpl
           end.
  all: try match goal with
           | |- context [match ?d with Return _ => _ | Raise _ => _ end] =>
               destruct d as [se'|de]; simpl
           end.
  all: do 6 eexists; (split; [reflexivity|]); (split; [reflexivity|]); split.
  (* the messages *)
  all: try (intros Hsp;
            repeat match goal with H : _ ∧ _ |- _ => destruct H end;
            simplify_eq; try done; eauto; fail).
  (* the verdicts *)
  all: try (right; split; [intros (_ & [m Hm] & Hx); simplify_eq|done]; fail).
  all: left; eauto 10.
Qed.

(** X26.  What decides a conversion attempt.  The blocking attempt
    reports success exactly when the staged file was written,
    [subprocess.run] returned with exit status zero and the predicted
    file exists; the awaitable attempt, exactly when the staged file was
    written, the process was spawned, the wait returned with exit status
    zero and the predicted file exists.  Either reports "PDF file not
    found after conversion" exactly when all of this holds but for the
    file, which is missing; no other failure carries that message. *)
Lemma conversion_succeeds_exactly content filename :
  let staged := Pathlib.joinpath (upload_dir config) (staged_name env filename) in
  let cmd := soffice_cmd config staged (output_dir config) in
  let found b := path_exists env (predicted_path config env filename) = Return b in
  (∃ ok message output,
     result_of (convert_to_pdf config env content filename) = Return (ok, message, output) ∧
     (ok = true ↔
        open_write env staged content = None ∧
        (∃ so se, subprocess_run env cmd (CONVERSION_TIMEOUT config) = Completed 0 so se) ∧
        found true) ∧
     (message = NOT_FOUND_MESSAGE ↔
        open_write env staged content = None ∧
        (∃ so se, subprocess_run env cmd (CONVERSION_TIMEOUT config) = Completed 0 so se) ∧
        found false)) ∧
  (∃ ok message output,
     result_of (convert_to_pdf_async config env content filename)
       = Return (ok, message, output) ∧
     (ok = true ↔
        open_write env staged content = None ∧
        create_subprocess_exec env cmd = None ∧
        (∃ so d, communicate env cmd (CONVERSION_TIMEOUT config) = Communicated 0 so d) ∧
        found true) ∧
     (message = NOT_FOUND_MESSAGE ↔
        open_write env staged content = None ∧
        create_subprocess_exec env cmd = None ∧
        (∃ so d, communicate env cmd (CONVERSION_TIMEOUT config) = Communicated 0 so d) ∧
        found false)).
Proof.
  simpl. rewrite convert_to_pdf_result, convert_to_pdf_async_result.
  unfold NOT_FOUND_MESSAGE. simpl.
  assert (∀ rc, (rc =? 0) = false → rc ≠ 0) as Hnz by (intros rc H ->; done).
  destruct (open_write env _ _) as [ew|] eqn:Hw; simpl.
  { split; do 3 eexists; (split; [reflexivity|]); split; split; try done;
      try (by intros (? & _)); intros Hm; cbv [String.append] in Hm; congruence. }
  split.
  - destruct (subprocess_run env _ _) as [rc so se|e|rc ms] eqn:Hr; simpl;
      [destruct (rc =? 0) eqn:Hrc; simpl;
       [apply Z.eqb_eq in Hrc; subst;
        destruct (path_exists env _) as [[|]|ee] eqn:Hex; simpl
       |apply Hnz in Hrc]
      |destruct e; simpl|].
    all: do 3 eexists; (split; [reflexivity|]); split; split.
    all: first
      [ done
      | intros Hm; cbv [String.append] in Hm; congruence
      | intros H;
        repeat match goal with
               | H : _ ∧ _ |- _ => destruct H
               | H : ∃ _, _ |- _ => destruct H
               end; simplify_eq; done
      | intros _; by eauto 10 ].
  - destruct (create_subprocess_exec env _) as [es|] eqn:Hs; simpl;
      [|destruct (communicate env _ _) as [rc so d|e] eqn:Hc; simpl;
        [destruct (rc =? 0) eqn:Hrc; simpl;
         [apply Z.eqb_eq in Hrc; subst;
          destruct (path_exists env _) as [[|]|ee] eqn:Hex; simpl
         |apply Hnz in Hrc; destruct d as [se|de]; simpl]
        |destruct e; simpl; try (destruct (process_kill env) as [ek|]; simpl)]].
    all: do 3 eexists; (split; [reflexivity|]); split; split.
    all: first
      [ done
      | intros Hm; cbv [String.append] in Hm; congruence
      | intros H;
        repeat match goal with
               | H : _ ∧ _ |- _ => destruct H
               | H : ∃ _, _ |- _ => destruct H
               end; simplify_eq; done
      | intros _; by eauto 10 ].
Qed.

(** X6.  A launch that fails because the binary is not there is told
    apart by the blocking attempt only: it names the configured path,
    where the awaitable attempt reports the error as any other. *)
Lemma binary_missing_reports content filename msg :
  open_write env (Pathlib.joinpath (upload_dir config) (staged_name env filename)) content
    = None →
  (subprocess_run env
     (soffice_cmd config
        (Pathlib.joinpath (upload_dir config) (staged_name env filename))
        (output_dir config))
     (CONVERSION_TIMEOUT config) = RunRaises (FileNotFoundError msg) →
   result_of (convert_to_pdf config env content filename)
     = Return (false, "LibreOffice not found at " +:+ SOFFICE_PATH config, None)) ∧
  (create_subprocess_exec env
     (soffice_cmd config
        (Pathlib.joinpath (upload_dir config) (staged_name env filename))
        (output_dir config)) = Some (FileNotFoundError msg) →
   result_of (convert_to_pdf_async config env content filename)
     = Return (false, "Error during async conversion: " +:+ msg, None)).
Proof.
  unfold staged_name. intros Hw. split; intros Hlaunch; unfold_attempt;
    rewrite Hw; simpl; by rewrite Hlaunch.
Qed.

End converter_more.

(** X2.  Both attempts write the staged file first and once, under the
    upload directory and the staged name, with the content given; the
    external process is launched only after a write that went through. *)
Theorem staging_precedes_launch config env content filename :
  stages_then_launches
    (Pathlib.joinpath (Converter.upload_dir config) (staged_name env filename)) content
    (Converter.convert_to_pdf config env content filename) ∧
  stages_then_launches
    (Pathlib.joinpath (Converter.upload_dir config) (staged_name env filename)) content
    (Converter.convert_to_pdf_async config env content filename).
Proof.
  split; [apply convert_to_pdf_stages|apply convert_to_pdf_async_stages].
Qed.

Lemma attempts_compared_witness :
  ∃ ok message output ok' message' output',
    result_of (Converter.convert_to_pdf default_config env_undecodable
                 sample_content "report.docx") = Return (ok, message, output) ∧
    result_of (Converter.convert_to_pdf_async default_config env_undecodable
                 sample_content "report.docx") = Return (ok', message', output') ∧
    (spoiled default_config env_undecodable sample_content "report.docx" ∧
     ok = false ∧ ok' = true ∨
     ¬ spoiled default_config env_undecodable sample_content "report.docx" ∧
     ok = ok' ∧ output = output') ∧
    (same_process default_config env_undecodable "report.docx" →
     same_report message message').
Proof.
  apply (attempts_compared default_config env_undecodable sample_content "report.docx").
  reflexivity.
Defined.

Lemma binary_missing_reports_witness :
  result_of (Converter.convert_to_pdf default_config
               (env_raise (FileNotFoundError "[Errno 2] No such file or directory: 'soffice'"))
               sample_content "report.docx")
    = Return (false, "LibreOffice not found at soffice", None) ∧
  result_of (Converter.convert_to_pdf_async default_config
               (env_raise (FileNotFoundError "[Errno 2] No such file or directory: 'soffice'"))
               sample_content "report.docx")
    = Return (false,
              "Error during async conversion: [Errno 2] No such file or directory: 'soffice'",
              None).
Proof.
  destruct (binary_missing_reports default_config
              (env_raise (FileNotFoundError "[Errno 2] No such file or directory: 'soffice'"))
              sample_content "report.docx"
              "[Errno 2] No such file or directory: 'soffice'" eq_refl) as [Hs Ha].
  split; [exact (Hs eq_refl)|exact (Ha eq_refl)].
Defined.

(** ** converter.py: names do not collide *)

Section names_more.
Import Pathlib.

Lemma str_app_inj_length (a b x y : string) :
  a +:+ x = b +:+ y → String.length x = String.length y → a = b ∧ x = y.
Proof.
  revert b. induction a as [|c a IH]; intros [|d b] Heq Hlen.
  - done.
  - rewrite str_app_nil_l in Heq. subst x.
    rewrite str_length_app in Hlen. simpl in Hlen. lia.
  - rewrite str_app_nil_l in Heq. subst y.
    rewrite str_length_app in Hlen. simpl in Hlen. lia.
  - rewrite !str_app_cons in Heq. injection Heq as -> Heq.
    destruct (IH b Heq Hlen) as [-> ->]. done.
Qed.

Lemma uuid_shaped_length tok : uuid_shaped tok = true → String.length tok = 36%nat.
Proof. intros [H _]%andb_true_iff. by apply Nat.eqb_eq. Qed.

Lemma stem_token_inj (a b t1 t2 : string) :
  uuid_shaped t1 = true → uuid_shaped t2 = true →
  a +:+ "_" +:+ t1 = b +:+ "_" +:+ t2 → t1 = t2.
Proof.
  intros H1%uuid_shaped_length H2%uuid_shaped_length Heq.
  rewrite <- !str_app_assoc in Heq.
  apply str_app_inj_length in Heq as [_ ?]; [done|congruence].
Qed.

End names_more.

(** X1.  Two conversion attempts that draw different tokens never share
    a name: whatever the two original file names (not ending in a dot),
    the staged input names differ and the predicted output names
    differ. *)
Theorem distinct_tokens_distinct_names env1 env2 filename1 filename2 :
  uuid_shaped (uuid4 env1) = true →
  uuid_shaped (uuid4 env2) = true →
  uuid4 env1 ≠ uuid4 env2 →
  Pathlib.ends_with_dot (Pathlib.name filename1) = false →
  Pathlib.ends_with_dot (Pathlib.name filename2) = false →
  staged_name env1 filename1 ≠ staged_name env2 filename2 ∧
  predicted_name env1 filename1 ≠ predicted_name env2 filename2.
Proof.
  intros H1 H2 Hne Hd1 Hd2.
  assert (∀ env f, uuid_shaped (uuid4 env) = true →
                   Pathlib.ends_with_dot (Pathlib.name f) = false →
                   Pathlib.stem (staged_name env f)
                   = Pathlib.stem f +:+ "_" +:+ uuid4 env) as Hstem.
  { intros env f Hu Hd. unfold staged_name, Converter._generate_unique_filename.
    apply stem_staged; auto using uuid_shaped_no_dot, uuid_shaped_no_slash. }
  assert (Pathlib.stem (staged_name env1 filename1)
          ≠ Pathlib.stem (staged_name env2 filename2)) as Hdiff.
  { rewrite !Hstem by done. intros Heq. by apply stem_token_inj in Heq. }
  split.
  - intros Heq. apply Hdiff. by rewrite Heq.
  - unfold predicted_name. intros Heq. apply Hdiff.
    by apply str_app_inj_length in Heq as [? _].
Qed.

Lemma distinct_tokens_distinct_names_witness :
  uuid_shaped (uuid4 (env_exit 0 true)) = true ∧
  uuid_shaped (uuid4 other_env) = true ∧
  uuid4 (env_exit 0 true) ≠ uuid4 other_env ∧
  Pathlib.ends_with_dot (Pathlib.name "report.docx") = false ∧
  staged_name (env_exit 0 true) "report.docx" ≠ staged_name other_env "report.docx" ∧
  predicted_name (env_exit 0 true) "report.docx" ≠ predicted_name other_env "report.docx".
Proof.
  assert (uuid4 (env_exit 0 true) ≠ uuid4 other_env) as Hne by discriminate.
  split; [reflexivity|]. split; [reflexivity|]. split; [exact Hne|].
  split; [reflexivity|].
  apply (distinct_tokens_distinct_names (env_exit 0 true) other_env
           "report.docx" "report.docx"); try reflexivity.
  exact Hne.
Defined.

(** ** converter.py and main.py: looking up, deleting and serving files *)

Section files_more.
Import Files.
Variable config : Config.

Lemma get_file_path_found filename file_type files path :
  get_file_path config filename file_type files = Return (Some path) →
  (∃ n, files !! path = Some n ∧ stat_error n = None) ∧
  ∀ files', get_file_path config filename file_type files' =
            match files' !! path with
            | None => Return None
            | Some n => match stat_error n with
                        | Some e => Raise e
                        | None => Return (Some path)
                        end
            end.
Proof.
  unfold get_file_path, path_exists.
  destruct (String.eqb file_type "upload");
    (destruct (files !! _) as [n|] eqn:Hn; [destruct (stat_error n) eqn:Hs|]; try done;
     intros [= <-]; split; [eauto|];
     intros files'; destruct (files' !! _) as [n'|]; [destruct (stat_error n')|]; done).
Qed.

End files_more.

(** X7.  [delete_file] answers [True] exactly when the file is found and
    its removal goes through, and then the file, and nothing else, is
    gone; whenever it answers [False] every file is as before.  It is
    silent only when the file is not there. *)
Theorem delete_file_outcome config filename file_type files :
  let '(ok, files', lg) := Files.delete_file config filename file_type files in
  (ok = true ↔
     ∃ path n, Files.get_file_path config filename file_type files = Return (Some path) ∧
               files !! path = Some n ∧ Files.unlink_error n = None) ∧
  (ok = true →
     ∃ path, Files.get_file_path config filename file_type files = Return (Some path) ∧
             files' = delete path files) ∧
  (ok = false → files' = files) ∧
  (lg = [] ↔ Files.get_file_path config filename file_type files = Return None).
Proof.
  unfold Files.delete_file.
  destruct (Files.get_file_path config filename file_type files) as [[path|]|e] eqn:Hget.
  - destruct (get_file_path_found config _ _ _ _ Hget) as [(n & Hn & Hs) _].
    unfold Files.unlink. rewrite Hn.
    destruct (Files.unlink_error n) eqn:Hu.
    + split; [|done]. split; [done|].
      intros (path' & n' & [= <-] & Hn' & Hu'). congruence.
    + split; [|split; [eauto|done]]. split; [eauto|done].
  - split; [|done]. split; [done|]. by intros (? & ? & ? & _).
  - split; [|done]. split; [done|]. by intros (? & ? & ? & _).
Qed.

(** X8.  After a deletion that answered [True] the file is not found any
    more: the lookup gives [None], a second deletion answers [False]
    without a word and changes nothing, and a download of an output so
    deleted is a 404. *)
Theorem deleted_file_is_gone config filename file_type files files' lg :
  Files.delete_file config filename file_type files = (true, files', lg) →
  Files.get_file_path config filename file_type files' = Return None ∧
  Files.delete_file config filename file_type files' = (false, files', []) ∧
  (String.eqb file_type "upload" = false →
   Endpoints.download_file config filename files'
     = Raise (HTTPException 404 "File not found")).
Proof.
  unfold Files.delete_file at 1.
  destruct (Files.get_file_path config filename file_type files) as [[path|]|e] eqn:Hget;
    [|done..].
  destruct (get_file_path_found config _ _ _ _ Hget) as [(n & Hn & Hs) Hlook].
  unfold Files.unlink. rewrite Hn.
  destruct (Files.unlink_error n); [done|]. intros [= <- <-].
  assert (Files.get_file_path config filename file_type (delete path files) = Return None)
    as Hgone by (by rewrite Hlook, lookup_delete_eq).
  split; [done|]. split.
  - unfold Files.delete_file. by rewrite Hgone.
  - intros Hty. unfold Endpoints.download_file.
    assert (Files.get_file_path config filename "output" (delete path files)
            = Files.get_file_path config filename file_type (delete path files)) as ->.
    { unfold Files.get_file_path. by rewrite Hty. }
    by rewrite Hgone.
Qed.

Lemma deleted_file_is_gone_witness :
  Files.delete_file default_config "report_123e4567-e89b-42d3-a456-426614174000.pdf"
    "output" converted_files
    = (true, ∅,
       [EvLog INFO "Deleted file: outputs/report_123e4567-e89b-42d3-a456-426614174000.pdf"]) ∧
  Files.get_file_path default_config "report_123e4567-e89b-42d3-a456-426614174000.pdf"
    "output" ∅ = Return None ∧
  Files.delete_file default_config "report_123e4567-e89b-42d3-a456-426614174000.pdf"
    "output" ∅ = (false, ∅, []) ∧
  (String.eqb "output" "upload" = false →
   Endpoints.download_file default_config
     "report_123e4567-e89b-42d3-a456-426614174000.pdf" ∅
     = Raise (HTTPException 404 "File not found")).
Proof.
  assert (Files.delete_file default_config
            "report_123e4567-e89b-42d3-a456-426614174000.pdf" "output" converted_files
          = (true, ∅,
             [EvLog INFO
                "Deleted file: outputs/report_123e4567-e89b-42d3-a456-426614174000.pdf"]))
    as Hdel.
  { unfold Files.delete_file, Files.get_file_path, Files.path_exists, Files.unlink,
      converted_files.
    simpl. rewrite !lookup_singleton_eq. simpl. by rewrite delete_singleton_eq. }
  split; [exact Hdel|].
  exact (deleted_file_is_gone default_config
           "report_123e4567-e89b-42d3-a456-426614174000.pdf" "output"
           converted_files ∅ _ Hdel).
Defined.

(** X9.  A blocking conversion that the endpoint answers with success
    has checked the very path the download endpoint serves: the response
    names the predicted file, the trace shows it was found, and a
    download of that name looks up the predicted path and no other. *)
Theorem converted_file_is_served config env (file : Main.UploadFile) r :
  result_of (Main.convert_sync config env file) = Return r →
  Main.filename r = Some (predicted_name env (Main.upload_filename file)) ∧
  Main.download_url r
    = Some ("/download/" +:+ predicted_name env (Main.upload_filename file)) ∧
  found_at (predicted_path config env (Main.upload_filename file))
    (trace_of (Main.convert_sync config env file)) = true ∧
  ∀ files,
    Endpoints.download_file config (predicted_name env (Main.upload_filename file)) files =
    match files !! predicted_path config env (Main.upload_filename file) with
    | None => Raise (HTTPException 404 "File not found")
    | Some n =>
        match Files.stat_error n with
        | Some e => Raise e
        | None =>
            Return {| Endpoints.response_path :=
                        predicted_path config env (Main.upload_filename file);
                      Endpoints.response_filename :=
                        predicted_name env (Main.upload_filename file);
                      Endpoints.media_type := "application/pdf" |}
        end
    end.
Proof.
  intros Hr.
  assert (∀ files,
    Endpoints.download_file config (predicted_name env (Main.upload_filename file)) files =
    match files !! predicted_path config env (Main.upload_filename file) with
    | None => Raise (HTTPException 404 "File not found")
    | Some n =>
        match Files.stat_error n with
        | Some e => Raise e
        | None =>
            Return {| Endpoints.response_path :=
                        predicted_path config env (Main.upload_filename file);
                      Endpoints.response_filename :=
                        predicted_name env (Main.upload_filename file);
                      Endpoints.media_type := "application/pdf" |}
        end
    end) as Hserve.
  { intros files.
    unfold Endpoints.download_file, Files.get_file_path, Files.path_exists, predicted_path.
    simpl. destruct (files !! _) as [n|]; [|done]. by destruct (Files.stat_error n). }
  revert Hr.
  unfold Main.convert_sync, Main.endpoint_handler, Main.Path, Main.received, found_at,
    predicted_path, predicted_name,
    staged_name, Converter.convert_to_pdf, Converter._run_soffice_command,
    Converter.write_file, Converter.run, Converter.exists_,
    logger_info, logger_error, emit, raise, of_result, try_except, result_of, trace_of.
  simpl. destruct (bool_decide _); simpl; [|done].
  destruct (length (Main.upload_content file) =? 0)%nat; simpl; [done|].
  destruct (open_write env _ _) as [ew|]; simpl; [done|].
  destruct (subprocess_run env _ _) as [rc so se|[]|rc ms]; simpl; try done.
  destruct (rc =? 0); simpl; [|done].
  destruct (path_exists env _) as [[|]|ee] eqn:Hex; simpl; try done.
  intros [= <-]. simpl. rewrite String.eqb_refl. simpl.
  repeat split; done.
Qed.

Lemma converted_file_is_served_witness :
  ∃ r, result_of (Main.convert_sync default_config (env_exit 0 true) sample_upload) = Return r ∧
       Main.filename r = Some "report_123e4567-e89b-42d3-a456-426614174000.pdf" ∧
       Endpoints.download_file default_config
         "report_123e4567-e89b-42d3-a456-426614174000.pdf" converted_files
       = Return {| Endpoints.response_path :=
                     "outputs/report_123e4567-e89b-42d3-a456-426614174000.pdf";
                   Endpoints.response_filename :=
                     "report_123e4567-e89b-42d3-a456-426614174000.pdf";
                   Endpoints.media_type := "application/pdf" |}.
Proof.
  eexists. split; [reflexivity|].
  destruct (converted_file_is_served default_config (env_exit 0 true) sample_upload _ eq_refl)
    as (Hname & _ & _ & Hserve).
  split; [exact Hname|].
  specialize (Hserve converted_files).
  change (predicted_name (env_exit 0 true) (Main.upload_filename sample_upload))
    with "report_123e4567-e89b-42d3-a456-426614174000.pdf" in Hserve.
  rewrite Hserve. unfold converted_files.
  change (predicted_path default_config (env_exit 0 true) (Main.upload_filename sample_upload))
    with "outputs/report_123e4567-e89b-42d3-a456-426614174000.pdf".
  by rewrite lookup_singleton_eq.
Defined.

(** ** cleanup.py: directory statistics *)

Section stats_more.
Import Cleanup Stats.
Variable config : Config.
Variable clock : nat → Z.
Variable st_size : entry → pyresult Z.

Lemma count_measurable path l files size :
  measurable st_size l →
  count st_size path l files size
    = ((files + length (List.filter regular l))%nat, size + sizes st_size l, []).
Proof.
  intros Hm. revert files size.
  induction Hm as [|e l [Hfile Hsize] _ IH]; intros files size.
  - simpl. unfold sizes. simpl. do 2 f_equal; lia.
  - simpl. unfold sizes, regular in *. simpl.
    destruct (is_file e) as [[|]|x]; simpl.
    + destruct (Hsize eq_refl) as [n ->]. rewrite IH. unfold sizes, regular.
      do 2 f_equal; lia.
    + apply IH.
    + by destruct (Hfile x).
Qed.

Lemma get_dir_info_countable path w d :
  fs w !! path = Some d → countable st_size d →
  get_dir_info st_size path w =
    (Return {| dir_exists := true;
               file_count := length (List.filter regular (entries d));
               total_size := sizes st_size (entries d) |}, []).
Proof.
  intros Hd (Hex & Hit & Hm). unfold get_dir_info.
  rewrite Hd, Hex, Hit, (count_measurable _ _ _ _ Hm). simpl. done.
Qed.

(** A scan of a measurable listing accounts for every regular file: it
    is either still there or reported as deleted. *)
Lemma scan_accounts path l tick :
  measurable st_size l →
  measurable st_size (remaining (scan config clock path l tick)) ∧
  (length (List.filter regular (remaining (scan config clock path l tick)))
   + length (deleted_files (scan config clock path l tick)))%nat
  = length (List.filter regular l).
Proof.
  intros Hm. revert tick.
  induction Hm as [|e l He _ IH]; intros tick; simpl; [by split; [constructor|]|].
  assert (regular e = match is_file e with Return true => true | _ => false end)
    as Hreg by done.
  pose (P := λ e, (∀ x, is_file e ≠ Raise x) ∧
                  (regular e = true → ∃ n, st_size e = Return n)).
  change (P e) in He.
  destruct (is_file e) as [[|]|x] eqn:Hf; simpl.
  - destruct (_is_file_expired _ _ _ _ _) as [[[|] tick'] lg];
      [destruct (unlink e)|]; simpl; destruct (IH tick') as [IH1 IH2].
    + split; [by constructor|]. rewrite Hreg. simpl. lia.
    + split; [done|]. rewrite Hreg. simpl. lia.
    + split; [by constructor|]. rewrite Hreg. simpl. lia.
  - destruct (IH tick) as [IH1 IH2].
    split; [by constructor|]. by rewrite Hreg.
  - by destruct He as [He _]; destruct (He x).
Qed.

Lemma pass_accounts p w d :
  fs w !! p = Some d → countable st_size d →
  ∃ del d',
    (_cleanup_directory config clock p w).1 = Return del ∧
    fs (_cleanup_directory config clock p w).2 !! p = Some d' ∧
    countable st_size d' ∧
    (length (List.filter regular (entries d')) + length del)%nat
    = length (List.filter regular (entries d)).
Proof.
  intros Hd (Hex & Hit & Hm). unfold _cleanup_directory. rewrite Hd, Hex, Hit. simpl.
  destruct (scan_accounts p (entries d) (ticks w) Hm) as [Hm' Hlen].
  eexists _, _. split; [done|]. rewrite lookup_insert_eq. split; [done|].
  split; [by repeat split|done].
Qed.

End stats_more.

(** X10.  For a directory that can be listed and measured, the statistics
    count its regular files and add up their sizes, and nothing is
    logged. *)
Theorem directory_statistics_count st_size path w d :
  Cleanup.fs w !! path = Some d → Stats.countable st_size d →
  Stats.get_dir_info st_size path w =
    (Return {| Stats.dir_exists := true;
               Stats.file_count := length (List.filter Stats.regular (Cleanup.entries d));
               Stats.total_size := Stats.sizes st_size (Cleanup.entries d) |}, []).
Proof. apply get_dir_info_countable. Qed.

Lemma directory_statistics_count_witness :
  Stats.get_dir_info sample_size "uploads" (staging [old_file; recent_file] [locked_file]) =
    (Return {| Stats.dir_exists := true; Stats.file_count := 2; Stats.total_size := 4096 |}, []).
Proof.
  apply (directory_statistics_count sample_size "uploads"
           (staging [old_file; recent_file] [locked_file])
           (plain_directory [old_file; recent_file])).
  - reflexivity.
  - split; [reflexivity|]. split; [reflexivity|].
    repeat constructor; try discriminate; intros _; by exists 2048.
Defined.

(** X11.  Statistics taken before and after a sweep differ by what the
    sweep reports: with two distinct staging directories that can be
    listed and measured, the sweep returns, and in each directory the
    files counted afterwards and the files reported deleted add up to
    the files counted before. *)
Theorem statistics_account_for_sweep config clock st_size s w du dout :
  Cleanup.upload_dir config ≠ Cleanup.output_dir config →
  Cleanup.fs w !! Cleanup.upload_dir config = Some du → Stats.countable st_size du →
  Cleanup.fs w !! Cleanup.output_dir config = Some dout → Stats.countable st_size dout →
  ∃ r w' before after,
    Cleanup.cleanup_expired_files config clock w = (Return r, w') ∧
    Stats.get_directory_stats config st_size s w = (Return before, []) ∧
    Stats.get_directory_stats config st_size s w' = (Return after, []) ∧
    (Stats.file_count (Stats.stats_upload_dir after) + Cleanup.deleted_uploads r)%nat
      = Stats.file_count (Stats.stats_upload_dir before) ∧
    (Stats.file_count (Stats.stats_output_dir after) + Cleanup.deleted_outputs r)%nat
      = Stats.file_count (Stats.stats_output_dir before) ∧
    (Stats.file_count (Stats.stats_upload_dir after)
     + Stats.file_count (Stats.stats_output_dir after) + Cleanup.total_deleted r)%nat
      = (Stats.file_count (Stats.stats_upload_dir before)
         + Stats.file_count (Stats.stats_output_dir before))%nat.
Proof.
  intros Hne Hdu Hcu Hdo Hco.
  rewrite sweep_unfold. simpl.
  set (w0 := Cleanup.log (EvLog INFO "Starting file cleanup process") w).
  destruct (pass_accounts config clock st_size (Cleanup.upload_dir config) w0 du Hdu Hcu)
    as (delu & du' & Hup & Hdu' & Hcu' & Hlu).
  set (up := Cleanup._cleanup_directory config clock (Cleanup.upload_dir config) w0) in *.
  rewrite Hup. simpl.
  assert (Cleanup.fs up.2 !! Cleanup.output_dir config = Some dout) as Hdo1.
  { unfold up. rewrite pass_other by done. done. }
  destruct (pass_accounts config clock st_size (Cleanup.output_dir config) up.2 dout Hdo1 Hco)
    as (delo & do' & Hout & Hdo' & Hco' & Hlo).
  set (out := Cleanup._cleanup_directory config clock (Cleanup.output_dir config) up.2) in *.
  rewrite Hout. simpl.
  assert (Cleanup.fs out.2 !! Cleanup.upload_dir config = Some du') as Hdu2.
  { unfold out. rewrite pass_other by done. done. }
  unfold Stats.get_directory_stats.
  rewrite (get_dir_info_countable st_size _ w du Hdu Hcu),
    (get_dir_info_countable st_size _ w dout Hdo Hco).
  eexists _, _, _, _. split; [reflexivity|]. split; [reflexivity|].
  rewrite (get_dir_info_countable st_size (Cleanup.upload_dir config) _ du'),
    (get_dir_info_countable st_size (Cleanup.output_dir config) _ do'); try done.
  split; [reflexivity|]. simpl. lia.
Qed.

Lemma statistics_account_for_sweep_witness :
  ∃ r w' before after,
    Cleanup.cleanup_expired_files default_config two_o_clock
      (staging [old_file; recent_file] [locked_file]) = (Return r, w') ∧
    Stats.get_directory_stats default_config sample_size stopped
      (staging [old_file; recent_file] [locked_file]) = (Return before, []) ∧
    Stats.get_directory_stats default_config sample_size stopped w' = (Return after, []) ∧
    (Stats.file_count (Stats.stats_upload_dir after) + Cleanup.deleted_uploads r)%nat
      = Stats.file_count (Stats.stats_upload_dir before) ∧
    (Stats.file_count (Stats.stats_output_dir after) + Cleanup.deleted_outputs r)%nat
      = Stats.file_count (Stats.stats_output_dir before) ∧
    (Stats.file_count (Stats.stats_upload_dir after)
     + Stats.file_count (Stats.stats_output_dir after) + Cleanup.total_deleted r)%nat
      = (Stats.file_count (Stats.stats_upload_dir before)
         + Stats.file_count (Stats.stats_output_dir before))%nat.
Proof.
  apply (statistics_account_for_sweep default_config two_o_clock sample_size stopped
           (staging [old_file; recent_file] [locked_file])
           (plain_directory [old_file; recent_file])
           (plain_directory [locked_file])).
  - discriminate.
  - reflexivity.
  - split; [reflexivity|]. split; [reflexivity|].
    repeat constructor; try discriminate; intros _; by exists 2048.
  - reflexivity.
  - split; [reflexivity|]. split; [reflexivity|].
    repeat constructor; try discriminate; intros _; by exists 2048.
Defined.

(** ** config.py, cleanup.py and main.py: starting and stopping the service *)

Lemma validate_spec config : validate config = true ↔ valid_settings config.
Proof.
  unfold validate, valid_settings.
  destruct (1 <=? PORT config) eqn:H1; destruct (PORT config <=? 65535) eqn:H2;
    destruct (CLEANUP_INTERVAL_MINUTES config <=? 0) eqn:H3;
    destruct (FILE_EXPIRE_HOURS config <=? 0) eqn:H4; simpl; lia.
Qed.

(** X12.  The application starts exactly when the configuration passes
    the three checks of [validate]; otherwise the start-up raises and
    the sweeper is not started.  After a start-up that returns, the
    sweeper runs if it is enabled (or was running already), and a
    shutdown leaves it not running. *)
Theorem startup_event_outcome config s :
  match Endpoints.startup_event config s with
  | Raise e => e = OtherError "Invalid configuration" ∧ ¬ valid_settings config
  | Return s' =>
      valid_settings config ∧
      Cleanup.is_running s' = ENABLE_CLEANUP config || Cleanup.is_running s ∧
      Cleanup.cleanup_task s' = Cleanup.creates_task config s || Cleanup.cleanup_task s ∧
      Cleanup.is_running (Endpoints.shutdown_event s') = false
  end.
Proof.
  unfold Endpoints.startup_event, Endpoints.shutdown_event, Cleanup.start_cleanup_service,
    Cleanup.stop_cleanup_service, Cleanup.creates_task.
  pose proof (validate_spec config) as Hv.
  destruct (validate config); simpl.
  - split; [by apply Hv|].
    destruct (ENABLE_CLEANUP config), s as [[|] c]; simpl; by rewrite ?orb_true_r.
  - split; [done|]. intros H%Hv. done.
Qed.

(** X13.  Starting and stopping the sweeper: a start right after a start
    creates no second loop task and changes nothing; a stop always
    leaves the service not running, and a second stop changes nothing
    and logs nothing; a start after a stop runs again when the sweeper
    is enabled. *)
Theorem service_start_stop config s :
  let started := (Cleanup.start_cleanup_service config s).1 in
  let stopped_ := (Cleanup.stop_cleanup_service s).1 in
  Cleanup.creates_task config started = false ∧
  (Cleanup.start_cleanup_service config started).1 = started ∧
  Cleanup.is_running stopped_ = false ∧
  Cleanup.stop_cleanup_service stopped_ = (stopped_, []) ∧
  Cleanup.is_running (Cleanup.stop_cleanup_service started).1 = false ∧
  Cleanup.is_running (Cleanup.start_cleanup_service config stopped_).1
    = ENABLE_CLEANUP config ∧
  Cleanup.creates_task config stopped_ = ENABLE_CLEANUP config.
Proof.
  unfold Cleanup.start_cleanup_service, Cleanup.stop_cleanup_service, Cleanup.creates_task.
  destruct s as [[|] c], (ENABLE_CLEANUP config) eqn:Hen; simpl; rewrite ?Hen; simpl;
    repeat split; done.
Qed.

(** ** cleanup.py: the loop *)

Section loop_more.
Import Cleanup.
Variable config : Config.
Variable clock : nat → Z.

Lemma loop_body_disabled w :
  ENABLE_CLEANUP config = false →
  loop_body config clock w
    = ([LoopSleep (CLEANUP_INTERVAL_MINUTES config * 60)], w, false).
Proof. intros Hen. unfold loop_body. by rewrite Hen. Qed.

Lemma loop_body_one_sleep w :
  length (List.filter is_sleep (loop_body config clock w).1.1) = 1%nat ∧
  Forall (sleeps_at_least (Z.min 60 (CLEANUP_INTERVAL_MINUTES config * 60)))
    (loop_body config clock w).1.1.
Proof.
  unfold loop_body. destruct (ENABLE_CLEANUP config).
  - destruct (cleanup_expired_files config clock w) as [[r|x] w']; simpl;
      (split; [done|]); repeat constructor; simpl; lia.
  - simpl. split; [done|]. repeat constructor; simpl; lia.
Qed.

Lemma _cleanup_loop_sleeps seconds wakes running w :
  seconds ≤ Z.min 60 (CLEANUP_INTERVAL_MINUTES config * 60) →
  Forall (sleeps_at_least seconds) (_cleanup_loop config clock wakes running w).1.
Proof.
  intros Hs.
  assert (∀ w, Forall (sleeps_at_least seconds) (loop_body config clock w).1.1) as Hbody.
  { intros w0. eapply Forall_impl; [apply loop_body_one_sleep|].
    intros [| |]; simpl; lia. }
  revert w. induction wakes as [|[|] wakes IH]; intros w; simpl;
    destruct running; simpl; try by constructor.
  - specialize (Hbody w). by destruct (loop_body config clock w) as [[evs w1] h].
  - specialize (Hbody w). destruct (loop_body config clock w) as [[evs w1] h].
    specialize (IH w1). simpl in IH.
    destruct (_cleanup_loop config clock wakes true w1) as [evs' w2].
    simpl in *. by apply Forall_app.
  - specialize (Hbody w). destruct (loop_body config clock w) as [[evs w1] [|]];
      simpl in *; [done|]. apply Forall_app. split; [done|]. by repeat constructor.
Qed.

Lemma _cleanup_loop_cancelled n rest running w :
  _cleanup_loop config clock (replicate n Elapsed ++ CancelledError :: rest) running w
  = _cleanup_loop config clock (replicate n Elapsed ++ [CancelledError]) running w.
Proof.
  revert w. induction n as [|n IH]; intros w; simpl; [done|].
  destruct running; simpl; [|done].
  destruct (loop_body config clock w) as [[evs w1] h]. by rewrite IH.
Qed.

Lemma _cleanup_loop_passes n w :
  length (List.filter is_sleep
            (_cleanup_loop config clock (replicate n Elapsed ++ [CancelledError]) true w).1)
  = S n.
Proof.
  revert w. induction n as [|n IH]; intros w; simpl;
    pose proof (loop_body_one_sleep w) as [Hone _];
    destruct (loop_body config clock w) as [[evs w1] h]; simpl in Hone.
  - destruct h; simpl; [done|]. rewrite List.filter_app, length_app, Hone. done.
  - specialize (IH w1).
    destruct (_cleanup_loop config clock (replicate n Elapsed ++ [CancelledError]) true w1)
      as [evs' w2].
    simpl in *. by rewrite List.filter_app, length_app, Hone, IH.
Qed.

Lemma _cleanup_loop_disabled wakes running w :
  ENABLE_CLEANUP config = false →
  (_cleanup_loop config clock wakes running w).2 = w ∧
  existsb is_sweep (_cleanup_loop config clock wakes running w).1 = false.
Proof.
  intros Hen. revert w. induction wakes as [|[|] wakes IH]; intros w; simpl;
    destruct running; simpl; try done; rewrite (loop_body_disabled w Hen); simpl; try done.
  specialize (IH w). simpl in IH.
  destruct (_cleanup_loop config clock wakes true w) as [evs' w2]. simpl in *. done.
Qed.

End loop_more.

(** X14.  With [ENABLE_CLEANUP] off nothing is ever swept: a start
    creates no loop task, and even a loop that runs only sleeps, and
    leaves every directory, the clock and the log as they were. *)
Theorem disabled_sweeper_never_sweeps config clock wakes running s w :
  ENABLE_CLEANUP config = false →
  Cleanup.started_loop config clock wakes s w = ([], w) ∧
  (Cleanup.start_cleanup_service config s).1 = s ∧
  (Cleanup._cleanup_loop config clock wakes running w).2 = w ∧
  existsb Cleanup.is_sweep (Cleanup._cleanup_loop config clock wakes running w).1 = false.
Proof.
  intros Hen.
  split; [unfold Cleanup.started_loop, Cleanup.creates_task; by rewrite Hen|].
  split; [unfold Cleanup.start_cleanup_service; by rewrite Hen|].
  by apply _cleanup_loop_disabled.
Qed.

Lemma disabled_sweeper_never_sweeps_witness :
  Cleanup.started_loop disabled_config two_o_clock [Cleanup.Elapsed; Cleanup.Elapsed]
    stopped (staging [old_file] []) = ([], staging [old_file] []) ∧
  (Cleanup.start_cleanup_service disabled_config stopped).1 = stopped ∧
  (Cleanup._cleanup_loop disabled_config two_o_clock [Cleanup.Elapsed; Cleanup.Elapsed]
     true (staging [old_file] [])).2 = staging [old_file] [] ∧
  existsb Cleanup.is_sweep
    (Cleanup._cleanup_loop disabled_config two_o_clock [Cleanup.Elapsed; Cleanup.Elapsed]
       true (staging [old_file] [])).1 = false.
Proof.
  apply (disabled_sweeper_never_sweeps disabled_config two_o_clock
           [Cleanup.Elapsed; Cleanup.Elapsed] true stopped (staging [old_file] [])).
  reflexivity.
Defined.

(** X15.  With a configuration that [validate] accepts, the loop never
    spins: every sleep it begins, after a sweep or after a failure,
    lasts at least sixty seconds. *)
Theorem loop_sleeps_a_minute config clock wakes running w :
  validate config = true →
  Forall (sleeps_at_least 60) (Cleanup._cleanup_loop config clock wakes running w).1.
Proof.
  intros (_ & Hint & _)%validate_spec. apply _cleanup_loop_sleeps. lia.
Qed.

Lemma loop_sleeps_a_minute_witness :
  Forall (sleeps_at_least 60)
    (Cleanup._cleanup_loop default_config two_o_clock [Cleanup.Elapsed; Cleanup.CancelledError]
       true (staging [old_file] [locked_file])).1.
Proof.
  apply (loop_sleeps_a_minute default_config two_o_clock
           [Cleanup.Elapsed; Cleanup.CancelledError] true (staging [old_file] [locked_file])).
  reflexivity.
Defined.

(** X16.  A cancellation ends the loop: what the loop does up to a
    cancelled sleep does not depend on anything after it, and a running
    loop whose first [n] sleeps elapse and whose next one is cancelled
    has made [n + 1] passes, each with one sleep. *)
Theorem cancellation_ends_loop config clock n rest running w :
  Cleanup._cleanup_loop config clock
    (replicate n Cleanup.Elapsed ++ Cleanup.CancelledError :: rest) running w
  = Cleanup._cleanup_loop config clock
      (replicate n Cleanup.Elapsed ++ [Cleanup.CancelledError]) running w ∧
  length (List.filter is_sleep
            (Cleanup._cleanup_loop config clock
               (replicate n Cleanup.Elapsed ++ Cleanup.CancelledError :: rest) running w).1)
  = (if running then S n else 0%nat).
Proof.
  split; [apply _cleanup_loop_cancelled|].
  rewrite _cleanup_loop_cancelled. destruct running.
  - apply _cleanup_loop_passes.
  - by destruct n.
Qed.

(** ** cleanup.py and main.py: what a sweep deletes and what it leaves *)

Section sweep_more.
Import Cleanup.
Variable config : Config.
Variable clock : nat → Z.

(** Whatever a scan reports as deleted was a regular file of the
    listing, found expired at some reading of the clock, whose removal
    went through. *)
Lemma scan_deleted_sound path l tick p :
  In p (deleted_files (scan config clock path l tick)) →
  ∃ e m k, In e l ∧ p = Pathlib.joinpath path (entry_name e) ∧
           is_file e = Return true ∧ st_mtime e = Return m ∧
           m < clock k - expiry config ∧ unlink e = None.
Proof.
  revert tick. induction l as [|x l IH]; intros tick; simpl; [done|].
  assert (∀ t, In p (deleted_files (scan config clock path l t)) →
               ∃ e m k, (x = e ∨ In e l) ∧ p = Pathlib.joinpath path (entry_name e) ∧
                        is_file e = Return true ∧ st_mtime e = Return m ∧
                        m < clock k - expiry config ∧ unlink e = None) as IH'.
  { intros t Ht. destruct (IH t Ht) as (e & m & k & ? & ?). exists e, m, k. auto. }
  destruct (is_file x) as [[|]|ex] eqn:Hfx; simpl; [|by apply IH'|done].
  pose proof (_is_file_expired_spec config clock (Pathlib.joinpath path (entry_name x)) x tick)
    as Hspec.
  destruct (_is_file_expired _ _ _ _ _) as [[b tick'] lg]. simpl in Hspec.
  destruct b; [destruct (unlink x) eqn:Hux|]; simpl; try by apply IH'.
  intros [<-|Hin]; [|by eapply IH'].
  destruct (st_mtime x) as [m|] eqn:Hm; [|done].
  symmetry in Hspec. apply Z.ltb_lt in Hspec.
  exists x, m, tick. auto 10.
Qed.

Lemma pass_deleted_sound p w del f :
  (_cleanup_directory config clock p w).1 = Return del → In f del →
  ∃ d e m k, fs w !! p = Some d ∧ In e (entries d) ∧
             f = Pathlib.joinpath p (entry_name e) ∧
             is_file e = Return true ∧ st_mtime e = Return m ∧
             m < clock k - expiry config ∧ unlink e = None.
Proof.
  unfold _cleanup_directory.
  destruct (fs w !! p) as [d|] eqn:Hd; [|by intros [= <-]].
  destruct (exists_error d); [done|].
  destruct (iterdir_error d); simpl; [by intros [= <-]|].
  intros [= <-] Hin.
  destruct (scan_deleted_sound _ _ _ _ Hin) as (e & m & k & ?). exists d, e, m, k. auto.
Qed.

End sweep_more.

(** X17.  The clean-up endpoint fails exactly when a staging directory is
    there and cannot be examined; its failure is always a 500 that
    carries the error, and a report it returns counts the files it
    lists. *)
Theorem manual_cleanup_outcome config clock w :
  ((∃ e, (Endpoints.manual_cleanup config clock w).1 = Raise e) ↔
   ∃ area d x,
     (area = Cleanup.upload_dir config ∨ area = Cleanup.output_dir config) ∧
     Cleanup.fs w !! area = Some d ∧ Cleanup.exists_error d = Some x) ∧
  (∀ e, (Endpoints.manual_cleanup config clock w).1 = Raise e →
        ∃ x, e = HTTPException 500 ("Cleanup failed: " +:+ str_exn x)) ∧
  (∀ r, (Endpoints.manual_cleanup config clock w).1 = Return r →
        Cleanup.deleted_uploads r = length (Cleanup.upload_files r) ∧
        Cleanup.deleted_outputs r = length (Cleanup.output_files r) ∧
        Cleanup.total_deleted r
          = (length (Cleanup.upload_files r) + length (Cleanup.output_files r))%nat).
Proof.
  unfold Endpoints.manual_cleanup. rewrite sweep_unfold. simpl.
  set (w0 := Cleanup.log (EvLog INFO "Starting file cleanup process") w).
  set (up := Cleanup._cleanup_directory config clock (Cleanup.upload_dir config) w0).
  destruct (up.1) as [uploads|x] eqn:Hup; simpl.
  - set (out := Cleanup._cleanup_directory config clock (Cleanup.output_dir config) up.2).
    destruct (out.1) as [outputs|x] eqn:Hout; simpl.
    + split; [|split; [done|by intros r [= <-]]].
      split; [by intros [e ?]|]. intros (area & d & x & [-> | ->] & Hd & Hex).
      * unfold up, Cleanup._cleanup_directory in Hup.
        change (Cleanup.fs w0) with (Cleanup.fs w) in Hup. by rewrite Hd, Hex in Hup.
      * exfalso.
        assert (Cleanup.fs up.2 !! Cleanup.output_dir config = Some d ∨
                Cleanup.upload_dir config = Cleanup.output_dir config) as [Hd1|Heq].
        { destruct (decide (Cleanup.output_dir config = Cleanup.upload_dir config)); [auto|].
          left. unfold up. by rewrite pass_other. }
        -- unfold out, Cleanup._cleanup_directory in Hout. by rewrite Hd1, Hex in Hout.
        -- unfold up, Cleanup._cleanup_directory in Hup. rewrite Heq in Hup.
           change (Cleanup.fs w0) with (Cleanup.fs w) in Hup. by rewrite Hd, Hex in Hup.
    + split; [|split; [intros e [= <-]; eauto|done]].
      split; [|eauto]. intros _.
      destruct (pass_raises config clock _ _ _ Hout) as [(d & Hd & Hex) _].
      fold up in Hd. unfold up in Hd.
      destruct (pass_shrinks config clock _ _ _ _ Hd) as (d0 & Hd0 & Hex0 & _).
      exists (Cleanup.output_dir config), d0, x.
      split; [auto|]. split; [done|]. congruence.
  - split; [|split; [intros e [= <-]; eauto|done]].
    split; [|eauto]. intros _.
    destruct (pass_raises config clock _ _ _ Hup) as [(d & Hd & Hex) _].
    exists (Cleanup.upload_dir config), d, x. auto.
Qed.

(** X18.  A sweep deletes nothing but expired regular files of the two
    staging directories: every path it reports names an entry of the
    directory it was listed for, which is a regular file whose
    modification time was read and lay before a reading of the clock
    less the expiry, and whose removal went through. *)
Theorem sweep_deletes_only_expired config clock w r w' area files f :
  Cleanup.cleanup_expired_files config clock w = (Return r, w') →
  (area = Cleanup.upload_dir config ∧ files = Cleanup.upload_files r) ∨
  (area = Cleanup.output_dir config ∧ files = Cleanup.output_files r) →
  In f files →
  ∃ d e m k,
    Cleanup.fs w !! area = Some d ∧ In e (Cleanup.entries d) ∧
    f = Pathlib.joinpath area (Cleanup.entry_name e) ∧
    Cleanup.is_file e = Return true ∧ Cleanup.st_mtime e = Return m ∧
    m < clock k - Cleanup.expiry config ∧ Cleanup.unlink e = None.
Proof.
  rewrite sweep_unfold. simpl.
  set (w0 := Cleanup.log (EvLog INFO "Starting file cleanup process") w).
  set (up := Cleanup._cleanup_directory config clock (Cleanup.upload_dir config) w0).
  destruct (up.1) as [uploads|x] eqn:Hup; simpl; [|done].
  set (out := Cleanup._cleanup_directory config clock (Cleanup.output_dir config) up.2).
  destruct (out.1) as [outputs|x] eqn:Hout; simpl; [|done].
  intros [= <- _] [[-> ->]|[-> ->]] Hin; simpl in Hin.
  - apply (pass_deleted_sound config clock _ _ _ _ Hup Hin).
  - destruct (pass_deleted_sound config clock _ _ _ _ Hout Hin)
      as (d & e & m & k & Hd & He & Hrest).
    destruct (pass_shrinks config clock _ _ _ _ Hd) as (d0 & Hd0 & _ & Hsub).
    exists d0, e, m, k. split; [done|]. split; [auto|done].
Qed.

Lemma sweep_deletes_only_expired_witness :
  ∃ d e m k,
    Cleanup.fs (staging [old_file; recent_file] [locked_file]) !! "uploads" = Some d ∧
    In e (Cleanup.entries d) ∧
    "uploads/old_123e.docx" = Pathlib.joinpath "uploads" (Cleanup.entry_name e) ∧
    Cleanup.is_file e = Return true ∧ Cleanup.st_mtime e = Return m ∧
    m < two_o_clock k - Cleanup.expiry default_config ∧ Cleanup.unlink e = None.
Proof.
  refine (sweep_deletes_only_expired default_config two_o_clock
            (staging [old_file; recent_file] [locked_file]) _ _
            "uploads" ["uploads/old_123e.docx"] "uploads/old_123e.docx" eq_refl _ _).
  - left. split; reflexivity.
  - left. reflexivity.
Defined.

(** X19.  A sweep only ever takes entries away, and only from the two
    staging directories: every other directory is as before, no
    directory appears, no entry is added to a listing, the clock has
    not been read fewer times, and the log has only grown. *)
Theorem sweep_only_removes config clock w :
  let w' := (Cleanup.cleanup_expired_files config clock w).2 in
  (∀ p, p ≠ Cleanup.upload_dir config → p ≠ Cleanup.output_dir config →
        Cleanup.fs w' !! p = Cleanup.fs w !! p) ∧
  (∀ p d', Cleanup.fs w' !! p = Some d' →
           ∃ d, Cleanup.fs w !! p = Some d ∧
                ∀ x, In x (Cleanup.entries d') → In x (Cleanup.entries d)) ∧
  (Cleanup.ticks w ≤ Cleanup.ticks w')%nat ∧
  Cleanup.logged w `prefix_of` Cleanup.logged w'.
Proof.
  rewrite sweep_unfold. simpl.
  set (w0 := Cleanup.log (EvLog INFO "Starting file cleanup process") w).
  set (up := Cleanup._cleanup_directory config clock (Cleanup.upload_dir config) w0).
  set (out := Cleanup._cleanup_directory config clock (Cleanup.output_dir config) up.2).
  assert (∀ p, p ≠ Cleanup.upload_dir config → Cleanup.fs up.2 !! p = Cleanup.fs w !! p)
    as Hup_other by (intros p Hp; unfold up; by rewrite pass_other).
  assert (∀ p, p ≠ Cleanup.upload_dir config → p ≠ Cleanup.output_dir config →
               Cleanup.fs out.2 !! p = Cleanup.fs w !! p)
    as Hout_other by (intros p Hp Hp'; unfold out; rewrite pass_other by done; auto).
  assert (∀ p d', Cleanup.fs up.2 !! p = Some d' →
                  ∃ d, Cleanup.fs w !! p = Some d ∧
                       ∀ x, In x (Cleanup.entries d') → In x (Cleanup.entries d))
    as Hup_sub.
  { intros p d' Hd'. destruct (pass_shrinks config clock _ _ _ _ Hd') as (d & ? & _ & ?).
    eauto. }
  assert (∀ p d', Cleanup.fs out.2 !! p = Some d' →
                  ∃ d, Cleanup.fs w !! p = Some d ∧
                       ∀ x, In x (Cleanup.entries d') → In x (Cleanup.entries d))
    as Hout_sub.
  { intros p d' Hd'. destruct (pass_shrinks config clock _ _ _ _ Hd') as (d1 & Hd1 & _ & H1).
    destruct (Hup_sub p d1 Hd1) as (d & Hd & H0). eauto. }
  destruct (pass_log_ticks config clock (Cleanup.upload_dir config) w0) as [Ht1 Hl1].
  destruct (pass_log_ticks config clock (Cleanup.output_dir config) up.2) as [Ht2 Hl2].
  fold up in Ht1, Hl1. fold out in Ht2, Hl2.
  assert (Cleanup.logged w `prefix_of` Cleanup.logged w0) as Hl0
    by (by apply prefix_app_r).
  change (Cleanup.ticks w0) with (Cleanup.ticks w) in Ht1.
  destruct (up.1) as [uploads|x] eqn:Hup; simpl.
  - destruct (out.1) as [outputs|x] eqn:Hout; simpl.
    + split; [done|]. split; [done|]. split; [lia|].
      apply prefix_app_r. by etrans; [|etrans].
    + split; [done|]. split; [done|]. split; [lia|]. by etrans; [|etrans].
  - split; [auto|]. split; [done|]. split; [done|]. by etrans.
Qed.

(** ** main.py: the endpoints *)

Section endpoints_more.
Import Main.
Variable config : Config.

Lemma get_task_status_present id st t :
  async_tasks st !! id = Some t →
  get_task_status id st =
    (st, ([], Return {| status_task_id := id;
                        status := status_str (task_state t);
                        status_message := task_message t;
                        status_download_url :=
                          match task_state t, task_filename t with
                          | completed, Some f =>
                              if (String.length f =? 0)%nat then None
                              else Some ("/download/" +:+ f)
                          | _, _ => None
                          end;
                        status_filename := task_filename t |})).
Proof.
  intros Ht.
  unfold get_task_status, contains, getitem, lift, raise, mbind, App_bind. simpl.
  rewrite Ht. simpl. by rewrite Ht.
Qed.

Lemma get_task_status_absent id st :
  async_tasks st !! id = None →
  get_task_status id st = (st, ([], Raise (HTTPException 404 "Task not found"))).
Proof.
  intros Ht.
  unfold get_task_status, contains, getitem, lift, raise, mbind, App_bind. simpl.
  by rewrite Ht.
Qed.

(** The state a background call leaves, read off the outcome of the
    conversion attempt. *)
Lemma process_async_conversion_records env id content name st old :
  async_tasks st !! id = Some old →
  ∃ ok msg out,
    result_of (Converter.convert_to_pdf_async config env content name)
      = Return (ok, msg, out) ∧
    (process_async_conversion config env id content name st).1 =
      AppState (<[id := if ok : bool
                        then Task completed msg out (created_at old)
                        else Task failed msg None (created_at old)]> (async_tasks st))
               (background_tasks st).
Proof.
  intros Hold.
  destruct (convert_to_pdf_async_returns config env content name) as (t & ok & msg & out & Hc).
  exists ok, msg, out. unfold result_of. rewrite Hc. split; [done|].
  unfold process_async_conversion, app_try_except, record_outcome, getitem, setitem,
    lift, mbind, App_bind.
  rewrite Hc. destruct ok; simpl; rewrite Hold; simpl; done.
Qed.

Lemma pdf_name_not_empty base : (String.length (base +:+ ".pdf") =? 0)%nat = false.
Proof. rewrite str_length_app. simpl. apply Nat.eqb_neq. lia. Qed.

Lemma drawn_ids_cons o ops : drawn_ids (o :: ops) = drawn_ids [o] ++ drawn_ids ops.
Proof.
  unfold drawn_ids. simpl.
  destruct o as [env file|env file|env k|id'| | |]; try done.
  by destruct (accepted file).
Qed.

Lemma step_keeps_task o st id t :
  async_tasks st !! id = Some t →
  ∃ t', async_tasks (step config o st) !! id = Some t' ∧
        (id ∉ drawn_ids [o] → created_at t' = created_at t).
Proof.
  intros Ht. destruct o as [env file|env file|env k|id'| | |]; simpl; eauto.
  - destruct (convert_async_state env file st) as (content & name & ->).
    destruct (accepted file) eqn:Hacc; [|eauto].
    simpl. destruct (decide (uuid4 env = id)) as [<-|Hne].
    + rewrite lookup_insert_eq. eexists. split; [done|].
      intros Hnot. exfalso. apply Hnot.
      unfold drawn_ids. simpl. constructor.
    + rewrite lookup_insert_ne by done. eauto.
  - destruct (background_tasks st !! k) as [s|] eqn:Hk; [|eauto].
    set (st1 := AppState (async_tasks st) (delete k (background_tasks st))).
    destruct (async_tasks st !! sched_task_id s) as [old|] eqn:Hold.
    + destruct (process_async_conversion_present config env (sched_task_id s)
                  (sched_content s) (sched_filename s) st1 old Hold)
        as (tr & s' & msg & out & _ & ->).
      simpl. destruct (decide (sched_task_id s = id)) as [Heq|Hne].
      * rewrite Heq, lookup_insert_eq. eexists. split; [done|].
        intros _. simpl. rewrite Heq in Hold. congruence.
      * rewrite lookup_insert_ne by done. eauto.
    + destruct (process_async_conversion_absent config env (sched_task_id s)
                  (sched_content s) (sched_filename s) st1 Hold) as (tr & -> & _).
      simpl. eauto.
  - rewrite get_task_status_state. eauto.
Qed.

End endpoints_more.

Example sync_endpoint_unnamed :
  Main.convert_sync default_config (env_exit 0 true)
    {| Main.file_filename := None; Main.file_read := Return sample_content |}
  = ([EvLog ERROR
        "Error in sync conversion: expected str, bytes or os.PathLike object, not NoneType"],
     Raise (HTTPException 500
              "Internal server error: expected str, bytes or os.PathLike object, not NoneType")).
Proof. reflexivity. Qed.

Example sync_endpoint_unreadable :
  Main.convert_sync default_config (env_exit 0 true)
    {| Main.file_filename := Some "report.docx";
       Main.file_read := Raise (OtherError "I/O operation on closed file.") |}
  = ([EvLog ERROR "Error in sync conversion: I/O operation on closed file."],
     Raise (HTTPException 500 "Internal server error: I/O operation on closed file.")).
Proof. reflexivity. Qed.

(** X20.  The blocking endpoint answers in one of four ways and no
    other, and what it raises is always an [HTTPException].  A rejected
    upload (extension not allowed, or empty content) is a 400 raised
    before anything is staged, launched or logged.  An accepted upload
    whose conversion fails is a 500 that carries the converter's own
    message.  A response is returned only for an accepted upload whose
    conversion succeeded.  The handlers of the endpoint are reached by
    nothing but the upload itself: a missing file name or a failing
    [read()], whose error is raised again when it is an [HTTPException]
    and is otherwise logged and answered with a 500 "Internal server
    error". *)
Theorem convert_sync_outcome config env (file : Main.Upload) :
  match result_of (Main.convert_sync config env file) with
  | Return r =>
      ∃ name content,
        Main.file_filename file = Some name ∧ Main.file_read file = Return content ∧
        Main.accepted file = true ∧ Main.success r = true ∧ Main.task_id r = None ∧
        result_of (Converter.convert_to_pdf config env content name)
          = Return (true, Main.message r, Main.filename r)
  | Raise (HTTPException code detail) =>
      (code = 400 ∧ Main.accepted file = false ∧ Main.upload_fault file = None ∧
       trace_of (Main.convert_sync config env file) = []) ∨
      (code = 500 ∧ Main.accepted file = true ∧
       ∃ name content,
         Main.file_filename file = Some name ∧ Main.file_read file = Return content ∧
         result_of (Converter.convert_to_pdf config env content name)
           = Return (false, detail, None)) ∨
      (Main.accepted file = false ∧
       ∃ x, Main.upload_fault file = Some x ∧
            match x with
            | HTTPException _ _ =>
                x = HTTPException code detail ∧
                trace_of (Main.convert_sync config env file) = []
            | _ =>
                code = 500 ∧ detail = "Internal server error: " +:+ str_exn x ∧
                trace_of (Main.convert_sync config env file)
                  = [EvLog ERROR ("Error in sync conversion: " +:+ str_exn x)]
            end)
  | Raise _ => False
  end.
Proof.
  unfold Main.convert_sync, Main.accepted, Main.upload_fault, Main.endpoint_handler, Main.Path,
    raise, of_result, try_except, result_of, trace_of.
  destruct (Main.file_filename file) as [name|]; simpl.
  2: { right. right. split; [done|]. eexists. split; [done|]. done. }
  destruct (bool_decide _); simpl.
  2: { left. by destruct (Main.file_read file). }
  destruct (Main.file_read file) as [content|x]; simpl.
  2: { destruct x; simpl; right; right; (split; [done|]); eexists; (split; [done|]); done. }
  destruct (length content =? 0)%nat; simpl; [by left|].
  destruct (convert_to_pdf_output config env content name)
    as (ok & msg & out & Hres & _ & Hnone).
  destruct (Converter.convert_to_pdf config env content name) as [t res] eqn:Hc.
  simpl in Hres. subst res. simpl.
  destruct ok; simpl.
  - exists name, content. by rewrite Hc.
  - right. left. split; [done|]. split; [done|]. exists name, content.
    by rewrite Hc, (Hnone eq_refl).
Qed.

(** X21.  The non-blocking endpoint stages and launches nothing itself.
    An accepted upload is registered under the identifier drawn, as
    processing, with exactly one background call scheduled for it, and
    no other task is touched; a status query made right away answers
    [processing] with no download link.  A rejected upload is a 400 and
    leaves the registry and the schedule as they were. *)
Theorem convert_async_outcome env (file : Main.UploadFile) st :
  if Main.accepted file then
    ∃ st',
      Main.convert_async env file st =
        (st', ([], Return {| Main.success := true;
                             Main.message := "Conversion task started";
                             Main.task_id := Some (uuid4 env);
                             Main.download_url := None;
                             Main.filename := None |})) ∧
      Main.background_tasks st' =
        Main.background_tasks st ++
          [Main.Scheduled (uuid4 env) (Main.upload_content file) (Main.upload_filename file)] ∧
      (∀ id, id ≠ uuid4 env → Main.async_tasks st' !! id = Main.async_tasks st !! id) ∧
      Main.get_task_status (uuid4 env) st' =
        (st', ([], Return {| Main.status_task_id := uuid4 env;
                             Main.status := "processing";
                             Main.status_message := "Conversion in progress";
                             Main.status_download_url := None;
                             Main.status_filename := None |}))
  else
    ∃ detail, Main.convert_async env file st = (st, ([], Raise (HTTPException 400 detail))).
Proof.
  unfold Main.accepted. simpl.
  destruct (bool_decide _) eqn:Hext; simpl.
  - destruct (length (Main.upload_content file) =? 0)%nat eqn:Hlen; simpl.
    + unfold Main.convert_async, Main.app_try_except, Main.lift, Main.Path, of_result,
        mbind, Main.App_bind, Main.endpoint_handler, raise.
      simpl. rewrite Hext, Hlen. simpl. eauto.
    + eexists. split.
      * unfold Main.convert_async, Main.app_try_except, Main.lift, Main.Path, of_result,
          mbind, Main.App_bind, Main.setitem, Main.add_task, Main.endpoint_handler, raise.
        simpl. rewrite Hext, Hlen. simpl. reflexivity.
      * simpl. split; [done|]. split; [intros id Hne; by rewrite lookup_insert_ne|].
        rewrite (get_task_status_present _ _
                   (Main.Task Main.processing "Conversion in progress" None
                      (datetime_now env)));
          [reflexivity|]. simpl. by rewrite lookup_insert_eq.
  - unfold Main.convert_async, Main.app_try_except, Main.lift, Main.Path, of_result,
      mbind, Main.App_bind, Main.endpoint_handler, raise.
    simpl. rewrite Hext. simpl. eauto.
Qed.

(** X22.  A status query changes nothing and logs nothing.  It is a 404
    exactly for an identifier that is not registered; otherwise it
    reports the status and file name as stored, with a download link
    exactly when the task is completed and has a non-empty file name,
    and the link then names that file. *)
Theorem get_task_status_outcome id st :
  (Main.get_task_status id st).1 = st ∧
  trace_of (Main.get_task_status id st).2 = [] ∧
  match Main.async_tasks st !! id with
  | None =>
      result_of (Main.get_task_status id st).2 = Raise (HTTPException 404 "Task not found")
  | Some t =>
      ∃ resp,
        result_of (Main.get_task_status id st).2 = Return resp ∧
        Main.status_task_id resp = id ∧
        Main.status resp = Main.status_str (Main.task_state t) ∧
        Main.status_message resp = Main.task_message t ∧
        Main.status_filename resp = Main.task_filename t ∧
        (∀ url, Main.status_download_url resp = Some url ↔
                Main.task_state t = Main.completed ∧
                ∃ f, Main.task_filename t = Some f ∧ f ≠ "" ∧ url = "/download/" +:+ f)
  end.
Proof.
  destruct (Main.async_tasks st !! id) as [t|] eqn:Ht.
  - rewrite (get_task_status_present id st t Ht). simpl.
    split; [done|]. split; [done|]. eexists. split; [reflexivity|]. simpl.
    do 4 (split; [done|]). intros url. split.
    + destruct (Main.task_state t); try done.
      destruct (Main.task_filename t) as [[|a f]|]; try done.
      simpl. intros [= <-]. split; [done|]. by exists (String a f).
    + intros [Hstate (f & Hf & Hne & ->)]. rewrite Hstate, Hf.
      destruct f; done.
  - rewrite (get_task_status_absent id st Ht). done.
Qed.

(** X23.  After the background call for a registered task, a status
    query reads [completed], with the predicted name and a link to it,
    exactly when the external process exited with zero and the
    predicted PDF was found; otherwise it reads [failed], with a
    message and neither name nor link. *)
Theorem finished_task_status config env id content name st old :
  Main.async_tasks st !! id = Some old →
  let t := trace_of (Converter.convert_to_pdf_async config env content name) in
  let st' := (Main.process_async_conversion config env id content name st).1 in
  ∃ resp,
    result_of (Main.get_task_status id st').2 = Return resp ∧
    if exited_zero t && found_at (predicted_path config env name) t then
      Main.status resp = "completed" ∧
      Main.status_filename resp = Some (predicted_name env name) ∧
      Main.status_download_url resp = Some ("/download/" +:+ predicted_name env name)
    else
      Main.status resp = "failed" ∧ Main.status_message resp ≠ "" ∧
      Main.status_filename resp = None ∧ Main.status_download_url resp = None.
Proof.
  intros Hold. simpl.
  destruct (process_async_conversion_records config env id content name st old Hold)
    as (ok & msg & out & Hres & ->).
  destruct (convert_to_pdf_async_criterion config env content name)
    as (ok' & msg' & out' & Hres' & Hok & _).
  destruct (convert_to_pdf_async_absorbs config env content name)
    as (ok2 & msg2 & out2 & Hres2 & Hmsg & _).
  destruct (convert_to_pdf_async_names config env content name) as [_ Hname].
  destruct (convert_to_pdf_async_output config env content name)
    as (ok3 & msg3 & out3 & Hres3 & Hsome & _).
  rewrite Hres in Hres', Hres2, Hres3.
  injection Hres' as <- <- <-. injection Hres2 as <- <- <-. injection Hres3 as <- <- <-.
  erewrite get_task_status_present; [|simpl; by rewrite lookup_insert_eq].
  eexists. split; [reflexivity|]. simpl.
  destruct ok.
  - destruct Hok as [[-> ->] _]; [done|]. simpl.
    destruct (Hsome eq_refl) as [base ->].
    rewrite (Hname _ _ _ Hres). simpl.
    unfold predicted_name. rewrite pdf_name_not_empty. done.
  - destruct (exited_zero _ && found_at _ _) eqn:Hboth; [|done].
    apply andb_true_iff in Hboth. by apply Hok in Hboth.
Qed.

Lemma finished_task_status_witness :
  ∃ resp,
    result_of
      (Main.get_task_status sample_uuid
         (Main.process_async_conversion default_config (env_exit 0 true) sample_uuid
            sample_content "report.docx"
            (Main.convert_async (env_exit 0 true) sample_upload Main.initial_state).1).1).2
      = Return resp ∧
    Main.status resp = "completed" ∧
    Main.status_filename resp = Some "report_123e4567-e89b-42d3-a456-426614174000.pdf" ∧
    Main.status_download_url resp
      = Some "/download/report_123e4567-e89b-42d3-a456-426614174000.pdf".
Proof.
  exact (finished_task_status default_config (env_exit 0 true) sample_uuid
           sample_content "report.docx"
           (Main.convert_async (env_exit 0 true) sample_upload Main.initial_state).1
           (Main.Task Main.processing "Conversion in progress" None 1762160000000000)
           eq_refl).
Defined.

(** X24.  A task, once registered, is never forgotten: whatever requests
    and background calls follow, its identifier stays in the registry,
    and its creation time stays the same unless a later submission
    draws the same identifier again. *)
Theorem tasks_are_never_forgotten config ops st id t :
  Main.async_tasks st !! id = Some t →
  Forall (λ st', ∃ t', Main.async_tasks st' !! id = Some t' ∧
                       (id ∉ Main.drawn_ids ops → Main.created_at t' = Main.created_at t))
         (Main.run config ops st).
Proof.
  revert st t. induction ops as [|o ops IH]; intros st t Ht; [constructor|].
  destruct (step_keeps_task config o st id t Ht) as (t1 & Ht1 & Hc1).
  rewrite drawn_ids_cons. simpl.
  constructor.
  - exists t1. split; [done|]. intros [Ho _]%not_elem_of_app. by apply Hc1.
  - eapply Forall_impl; [apply (IH _ t1 Ht1)|]. simpl.
    intros st' (t' & Ht' & Hc'). exists t'. split; [done|].
    intros [Ho Hops]%not_elem_of_app.
    rewrite Hc' by done. by apply Hc1.
Qed.

Lemma tasks_are_never_forgotten_witness :
  Forall (λ st', ∃ t', Main.async_tasks st' !! sample_uuid = Some t' ∧
                       (sample_uuid ∉ Main.drawn_ids
                                       [Main.OpTaskStatus sample_uuid;
                                        Main.OpBackground (env_exit 0 true) 0;
                                        Main.OpTaskStatus sample_uuid] →
                        Main.created_at t' = 1762160000000000))
         (Main.run default_config
            [Main.OpTaskStatus sample_uuid;
             Main.OpBackground (env_exit 0 true) 0;
             Main.OpTaskStatus sample_uuid]
            (Main.convert_async (env_exit 0 true) sample_upload Main.initial_state).1).
Proof.
  exact (tasks_are_never_forgotten default_config
           [Main.OpTaskStatus sample_uuid;
            Main.OpBackground (env_exit 0 true) 0;
            Main.OpTaskStatus sample_uuid]
           (Main.convert_async (env_exit 0 true) sample_upload Main.initial_state).1
           sample_uuid
           (Main.Task Main.processing "Conversion in progress" None 1762160000000000)
           eq_refl).
Defined.

(** ** cleanup.py: an entry that cannot be examined *)

(** X25.  An entry whose [is_file()] raises ends the scan of its
    directory there: what was deleted before it stays deleted and
    reported, the entry and everything listed after it are left alone,
    whether expired or not, and the error is logged last. *)
Theorem scan_stops_at_failure config clock path before e x after tick :
  Forall (λ y, ∀ ex, Cleanup.is_file y ≠ Raise ex) before →
  Cleanup.is_file e = Raise x →
  let whole := Cleanup.scan config clock path (before ++ e :: after) tick in
  let part := Cleanup.scan config clock path before tick in
  Cleanup.deleted_files whole = Cleanup.deleted_files part ∧
  Cleanup.remaining whole = Cleanup.remaining part ++ e :: after ∧
  Cleanup.scan_ticks whole = Cleanup.scan_ticks part ∧
  Cleanup.scan_log whole =
    Cleanup.scan_log part ++
      [EvLog ERROR ("Error scanning directory " +:+ path +:+ ": " +:+ str_exn x)].
Proof.
  intros Hbefore He. simpl. revert tick.
  induction Hbefore as [|y l Hy _ IH]; intros tick; simpl.
  - by rewrite He.
  - destruct (Cleanup.is_file y) as [[|]|ex] eqn:Hfy; simpl.
    + destruct (Cleanup._is_file_expired _ _ _ _ _) as [[[|] tick'] lg];
        [destruct (Cleanup.unlink y)|]; simpl;
        destruct (IH tick') as (-> & -> & -> & ->);
        repeat split; try done; by rewrite <- ?app_assoc.
    + by destruct (IH tick) as (-> & -> & -> & ->).
    + by destruct (Hy ex).
Qed.

Lemma scan_stops_at_failure_witness :
  Cleanup.deleted_files
    (Cleanup.scan default_config two_o_clock "uploads"
       ([old_file; recent_file] ++ broken_entry :: [old_file]) 0)
    = ["uploads/old_123e.docx"] ∧
  Cleanup.remaining
    (Cleanup.scan default_config two_o_clock "uploads"
       ([old_file; recent_file] ++ broken_entry :: [old_file]) 0)
    = [recent_file] ++ broken_entry :: [old_file].
Proof.
  destruct (scan_stops_at_failure default_config two_o_clock "uploads"
              [old_file; recent_file] broken_entry
              (PermissionError "[Errno 13] Permission denied") [old_file] 0)
    as (Hdel & Hrem & _).
  - repeat constructor; discriminate.
  - reflexivity.
  - split; [exact Hdel|exact Hrem].
Defined.
